(** * Report rendering pipeline of the stock-analysis frontend

  A shallow embedding of the presentation helpers of the Next.js frontend:
  the recommended-stocks sidebar (deduplication by stock id), the
  impacted-industries grid, the report card (category colours, date
  formatting, tag stripping, industry tags) and the home page's auxiliary
  count fetches.

  JavaScript strings are sequences of UTF-16 code units and are modelled as
  [list N]; numbers that hold database ids and counts are modelled as [Z]. *)

From Stdlib Require Import List ZArith NArith Bool Lia ZifyBool.
From Stdlib Require Import Strings.String Strings.Ascii.
Import ListNotations.

Set Implicit Arguments.

(* ================================================================== *)
(** ** JavaScript strings *)
(* ================================================================== *)

Module JsString.

(** A UTF-16 code unit. *)
Abbreviation unit := N (only parsing).

(** A JavaScript string value. *)
Abbreviation jsstring := (list N) (only parsing).

Definition unit_eqb (a b : unit) : bool := N.eqb a b.

Fixpoint eqb (s t : jsstring) : bool :=
  match s, t with
  | [], [] => true
  | a :: s', b :: t' => unit_eqb a b && eqb s' t'
  | _, _ => false
  end.

(** *** Literals

    Source literals are written in this file as UTF-8 text; [utf16] turns
    such a literal into the code units the JavaScript engine holds. *)

Fixpoint bytes_of (s : string) : list N :=
  match s with
  | EmptyString => []
  | String c r => N_of_ascii c :: bytes_of r
  end.

(** Code points of a well-formed UTF-8 byte sequence (a truncated or stray
    byte is passed through as it is). *)
Fixpoint codepoints (bs : list N) : list N :=
  match bs with
  | [] => []
  | b0 :: r0 =>
    if (b0 <? 192)%N then b0 :: codepoints r0
    else match r0 with
    | [] => [b0]
    | b1 :: r1 =>
      if (b0 <? 224)%N
      then ((b0 - 192) * 64 + (b1 - 128))%N :: codepoints r1
      else match r1 with
      | [] => [b0; b1]
      | b2 :: r2 =>
        if (b0 <? 240)%N
        then ((b0 - 224) * 4096 + (b1 - 128) * 64 + (b2 - 128))%N
             :: codepoints r2
        else match r2 with
        | [] => [b0; b1; b2]
        | b3 :: r3 =>
          ((b0 - 240) * 262144 + (b1 - 128) * 4096
           + (b2 - 128) * 64 + (b3 - 128))%N :: codepoints r3
        end
      end
    end
  end.

(** UTF-16 encoding of one code point. *)
Definition units_of_codepoint (cp : N) : list unit :=
  if (cp <? 65536)%N then [cp]
  else [(55296 + (cp - 65536) / 1024)%N; (56320 + (cp - 65536) mod 1024)%N].

Definition utf16 (s : string) : jsstring :=
  flat_map units_of_codepoint (codepoints (bytes_of s)).

(** *** [String.prototype.includes] *)

Fixpoint startsWith (s k : jsstring) : bool :=
  match k, s with
  | [], _ => true
  | _ :: _, [] => false
  | b :: k', a :: s' => unit_eqb a b && startsWith s' k'
  end.

Fixpoint includes (s k : jsstring) : bool :=
  startsWith s k ||
  match s with
  | [] => false
  | _ :: s' => includes s' k
  end.

(** *** [String.prototype.trim]

    The code units of the ECMAScript productions WhiteSpace and
    LineTerminator. *)
Definition isWhiteSpace (c : unit) : bool :=
  ((9 <=? c) && (c <=? 13) || (c =? 32) || (c =? 160) || (c =? 5760)
   || (8192 <=? c) && (c <=? 8202) || (c =? 8232) || (c =? 8233)
   || (c =? 8239) || (c =? 8287) || (c =? 12288) || (c =? 65279))%N.

Fixpoint trimStart (s : jsstring) : jsstring :=
  match s with
  | [] => []
  | c :: r => if isWhiteSpace c then trimStart r else s
  end.

Definition trimEnd (s : jsstring) : jsstring := rev (trimStart (rev s)).

Definition trim (s : jsstring) : jsstring := trimEnd (trimStart s).

(** Whether a string begins, or ends, with white space. *)
Definition startsWhite (s : jsstring) : bool :=
  match s with
  | [] => false
  | c :: _ => isWhiteSpace c
  end.

Definition endsWhite (s : jsstring) : bool := startsWhite (rev s).

(** *** [String.prototype.padStart] with a one-unit filler *)
Definition padStart (s : jsstring) (targetLength : nat) (fill : unit)
  : jsstring :=
  repeat fill (targetLength - List.length s) ++ s.

End JsString.

Import JsString.

(* ================================================================== *)
(** ** Array helpers *)
(* ================================================================== *)

Module JsArray.

Section Indexed.
Variable A : Type.

(** [Array.prototype.findIndex]: the index of the first element that
    satisfies the predicate, or [-1]. *)
Fixpoint findIndex_from (p : A -> bool) (l : list A) (i : Z) : Z :=
  match l with
  | [] => (-1)%Z
  | x :: r => if p x then i else findIndex_from p r (i + 1)%Z
  end.

Definition findIndex (p : A -> bool) (l : list A) : Z :=
  findIndex_from p l 0%Z.

(** [Array.prototype.filter] with the three-argument callback
    [(element, index, array)]. *)
Fixpoint filter_from (f : A -> Z -> list A -> bool) (self l : list A)
         (i : Z) : list A :=
  match l with
  | [] => []
  | x :: r =>
    if f x i self then x :: filter_from f self r (i + 1)%Z
    else filter_from f self r (i + 1)%Z
  end.

Definition filter3 (f : A -> Z -> list A -> bool) (l : list A) : list A :=
  filter_from f l l 0%Z.

(** [Array.prototype.slice(0, n)]. *)
Definition slice0 (n : nat) (l : list A) : list A := firstn n l.

End Indexed.

End JsArray.

Import JsArray.

(* ================================================================== *)
(** ** Data model ([lib/api/reports]) *)
(* ================================================================== *)

Inductive Trend := up | down | neutral.

Inductive ImpactLevel := high | medium | low.

Inductive TrendDirection := positive | negative | flat.

(** Modelled from the spec: the [Stock] type of [lib/api/reports], whose
    declaration is not among the sources; the fields are those of the
    spec's data model (the decimal [confidence_score], which no code below
    reads, is left out). *)
Record Stock := mkStock {
  id : Z;
  stock_code : jsstring;
  stock_name : jsstring;
  expected_trend : Trend;
  reasoning : jsstring
}.

(** Modelled from the spec: the [Industry] type of [lib/api/reports]. *)
Record Industry := mkIndustry {
  industry_id : Z;
  industry_name : jsstring;
  impact_level : option ImpactLevel;
  impact_description : option jsstring;
  trend_direction : option TrendDirection;
  stocks : list Stock
}.

(* ================================================================== *)
(** ** Recommended-stocks sidebar *)
(* ================================================================== *)

Module Sidebar.

(** [industries.flatMap((industry) => industry.stocks)] *)
Definition allStocks (industries : list Industry) : list Stock :=
  flat_map stocks industries.

(** [allStocks.filter((stock, index, self) =>
       index === self.findIndex((s) => s.id === stock.id))] *)
Definition dedupById (all : list Stock) : list Stock :=
  filter3
    (fun stock index self =>
       (index =? findIndex (fun s => (id s =? id stock)%Z) self)%Z)
    all.

Definition uniqueStocks (industries : list Industry) : list Stock :=
  dedupById (allStocks industries).

(** What the component returns: [null], or the list of stock cards (one per
    unique stock, in order) between the fixed heading and disclaimer. *)
Inductive view :=
| RenderNull
| RenderStockCards (cards : list Stock).

Definition RecommendedStocksSidebar (industries : list Industry) : view :=
  let uniqueStocks := uniqueStocks industries in
  if (List.length uniqueStocks =? 0)%nat then RenderNull
  else RenderStockCards uniqueStocks.

(** The spec's wording of the same operation: walk the list once and keep a
    record only when its id has not been seen before. *)
Fixpoint keepFirst (seen : list Z) (l : list Stock) : list Stock :=
  match l with
  | [] => []
  | x :: r =>
    if existsb (Z.eqb (id x)) seen then keepFirst seen r
    else x :: keepFirst (id x :: seen) r
  end.

(** [subseq a b]: [a] is [b] with some elements deleted, order kept. *)
Inductive subseq : list Stock -> list Stock -> Prop :=
| subseq_nil : subseq [] []
| subseq_skip x a b : subseq a b -> subseq a (x :: b)
| subseq_keep x a b : subseq a b -> subseq (x :: a) (x :: b).

(** The first record of [l] that carries the id of [x]. *)
Definition firstWithId (x : Stock) (l : list Stock) : option Stock :=
  find (fun s => (id s =? id x)%Z) l.

(** The two callbacks of the filter, named. *)
Definition sameId (x : Stock) : Stock -> bool :=
  fun s => (id s =? id x)%Z.

Definition isFirst : Stock -> Z -> list Stock -> bool :=
  fun stock index self =>
    (index =? findIndex (fun s => (id s =? id stock)%Z) self)%Z.

End Sidebar.

(* ================================================================== *)
(** ** Dates: the ECMAScript time-value operations *)
(* ================================================================== *)

Module JsDate.

Local Open Scope Z_scope.

(** A Number that holds an integer or NaN. *)
Definition number := option Z.

Definition NaN : number := None.

Definition msPerDay : Z := 86400000.

Definition Day (t : Z) : Z := t / msPerDay.

Definition TimeWithinDay (t : Z) : Z := t mod msPerDay.

Definition DaysInYear (y : Z) : Z :=
  if negb (y mod 4 =? 0) then 365
  else if negb (y mod 100 =? 0) then 366
  else if negb (y mod 400 =? 0) then 365
  else 366.

Definition DayFromYear (y : Z) : Z :=
  365 * (y - 1970) + (y - 1969) / 4 - (y - 1901) / 100 + (y - 1601) / 400.

Definition TimeFromYear (y : Z) : Z := msPerDay * DayFromYear y.

(** The largest year whose first day is not after day number [d]: the
    estimate [y0] is off by at most one year. *)
Definition YearFromDay (d : Z) : Z :=
  let y0 := 1970 + (d * 400) / 146097 in
  if DayFromYear (y0 + 1) <=? d then y0 + 1
  else if DayFromYear y0 <=? d then y0
  else y0 - 1.

Definition YearFromTime (t : Z) : Z := YearFromDay (Day t).

Definition InLeapYear (t : Z) : Z :=
  if DaysInYear (YearFromTime t) =? 366 then 1 else 0.

Definition DayWithinYear (t : Z) : Z := Day t - DayFromYear (YearFromTime t).

Definition MonthFromTime (t : Z) : Z :=
  let d := DayWithinYear t in
  let L := InLeapYear t in
  if d <? 31 then 0
  else if d <? 59 + L then 1
  else if d <? 90 + L then 2
  else if d <? 120 + L then 3
  else if d <? 151 + L then 4
  else if d <? 181 + L then 5
  else if d <? 212 + L then 6
  else if d <? 243 + L then 7
  else if d <? 273 + L then 8
  else if d <? 304 + L then 9
  else if d <? 334 + L then 10
  else 11.

Definition DateFromTime (t : Z) : Z :=
  let d := DayWithinYear t in
  let L := InLeapYear t in
  match MonthFromTime t with
  | 0 => d + 1
  | 1 => d - 30
  | 2 => d - 58 - L
  | 3 => d - 89 - L
  | 4 => d - 119 - L
  | 5 => d - 150 - L
  | 6 => d - 180 - L
  | 7 => d - 211 - L
  | 8 => d - 242 - L
  | 9 => d - 272 - L
  | 10 => d - 303 - L
  | _ => d - 333 - L
  end.

(** Day within the year on which month [mn] (0 to 11) starts. *)
Definition monthStart (mn L : Z) : Z :=
  match mn with
  | 0 => 0
  | 1 => 31
  | 2 => 59 + L
  | 3 => 90 + L
  | 4 => 120 + L
  | 5 => 151 + L
  | 6 => 181 + L
  | 7 => 212 + L
  | 8 => 243 + L
  | 9 => 273 + L
  | 10 => 304 + L
  | _ => 334 + L
  end.

(** [MakeDay(year, month, date)]: the day number of the first of the month,
    plus [date - 1]. *)
Definition MakeDay (year month date : Z) : Z :=
  let ym := year + month / 12 in
  let mn := month mod 12 in
  let L := if DaysInYear ym =? 366 then 1 else 0 in
  DayFromYear ym + monthStart mn L + date - 1.

Definition MakeTime (hour min sec ms : Z) : Z :=
  hour * 3600000 + min * 60000 + sec * 1000 + ms.

Definition MakeDate (day time : Z) : Z := day * msPerDay + time.

Definition TimeClip (t : Z) : number :=
  if Z.abs t <=? 8640000000000000 then Some t else NaN.

(** *** The date-time string format

    [YYYY[-MM[-DD]]] or the expanded year [±YYYYYY], then optionally
    [THH:mm[:ss[.sss]]] and a zone designator [Z] or [±HH:mm]. *)

Definition digit (c : unit) : option Z :=
  if ((48 <=? c) && (c <=? 57))%N then Some (Z.of_N c - 48) else None.

Fixpoint digitsN (n : nat) (acc : Z) (s : jsstring) : option (Z * jsstring) :=
  match n with
  | O => Some (acc, s)
  | S n' =>
    match s with
    | [] => None
    | c :: r =>
      match digit c with
      | Some d => digitsN n' (10 * acc + d) r
      | None => None
      end
    end
  end.

(** The zone a string names: none written, or minutes east of UTC. *)
Inductive zone :=
| NoZone
| Offset (minutes : Z).

Record isoFields := mkIso {
  iso_year : Z;
  iso_month : Z;
  iso_day : Z;
  iso_timed : bool;
  iso_hour : Z;
  iso_minute : Z;
  iso_second : Z;
  iso_ms : Z;
  iso_zone : zone
}.

(** The next unit, when it is [c]. *)
Definition expect (c : unit) (s : jsstring) : option jsstring :=
  match s with
  | x :: r => if (x =? c)%N then Some r else None
  | [] => None
  end.

Definition parseYear (s : jsstring) : option (Z * jsstring) :=
  match expect 43%N s, expect 45%N s with
  | Some r, _ => digitsN 6 0 r
  | None, Some r =>
    match digitsN 6 0 r with
    | Some (y, r') => if y =? 0 then None else Some (- y, r')
    | None => None
    end
  | None, None => digitsN 4 0 s
  end.

(** [-NN] when the next unit is a hyphen; otherwise the default. *)
Definition parseDashed (default : Z) (s : jsstring)
  : option (bool * Z * jsstring) :=
  match expect 45%N s with
  | Some r =>
    match digitsN 2 0 r with
    | Some (v, r') => Some (true, v, r')
    | None => None
    end
  | None => Some (false, default, s)
  end.

(** [±HH:mm] after the sign. *)
Definition parseOffset (negative : bool) (r : jsstring)
  : option (zone * jsstring) :=
  match digitsN 2 0 r with
  | Some (hh, r0) =>
    match expect 58%N r0 with
    | Some r1 =>
      match digitsN 2 0 r1 with
      | Some (mm, r2) =>
        if (hh <=? 23) && (mm <=? 59) then
          let m := hh * 60 + mm in
          Some (Offset (if negative then - m else m), r2)
        else None
      | None => None
      end
    | None => None
    end
  | None => None
  end.

Definition parseZone (s : jsstring) : option (zone * jsstring) :=
  match expect 90%N s, expect 43%N s, expect 45%N s with
  | Some r, _, _ => Some (Offset 0, r)
  | None, Some r, _ => parseOffset false r
  | None, None, Some r => parseOffset true r
  | None, None, None => Some (NoZone, s)
  end.

Fixpoint skipDigits (s : jsstring) : jsstring :=
  match s with
  | [] => []
  | c :: r =>
    match digit c with
    | Some _ => skipDigits r
    | None => s
    end
  end.

(** The fraction of a second: one or more digits, of which the first three
    count as milliseconds (the standard writes exactly three; Node reads any
    number and drops what follows the third). *)
Definition parseFraction (s : jsstring) : option (Z * jsstring) :=
  match digitsN 1 0 s with
  | None => None
  | Some (d1, r1) =>
    match digitsN 1 0 r1 with
    | None => Some (d1 * 100, r1)
    | Some (d2, r2) =>
      match digitsN 1 0 r2 with
      | None => Some (d1 * 100 + d2 * 10, r2)
      | Some (d3, r3) => Some (d1 * 100 + d2 * 10 + d3, skipDigits r3)
      end
    end
  end.

(** [:ss[.sss]], optional. *)
Definition parseSeconds (s : jsstring) : option (Z * Z * jsstring) :=
  match expect 58%N s with
  | None => Some (0, 0, s)
  | Some r3 =>
    match digitsN 2 0 r3 with
    | None => None
    | Some (ss, r4) =>
      match expect 46%N r4 with
      | None => Some (ss, 0, r4)
      | Some r5 =>
        match parseFraction r5 with
        | Some (ms, r6) => Some (ss, ms, r6)
        | None => None
        end
      end
    end
  end.

(** [HH:mm[:ss[.sss]]] and the zone designator. *)
Definition parseTime (s : jsstring)
  : option (Z * Z * Z * Z * zone * jsstring) :=
  match digitsN 2 0 s with
  | None => None
  | Some (hh, r0) =>
    match expect 58%N r0 with
    | None => None
    | Some r1 =>
      match digitsN 2 0 r1 with
      | None => None
      | Some (mm, r2) =>
        match parseSeconds r2 with
        | None => None
        | Some (ss, ms, r6) =>
          match parseZone r6 with
          | Some (z, r7) => Some (hh, mm, ss, ms, z, r7)
          | None => None
          end
        end
      end
    end
  end.

Definition parseFields (s : jsstring) : option isoFields :=
  match parseYear s with
  | None => None
  | Some (y, r0) =>
    match parseDashed 1 r0 with
    | None => None
    | Some (hasMonth, mo, r1) =>
      match (if hasMonth then parseDashed 1 r1 else Some (false, 1, r1)) with
      | None => None
      | Some (_, d, r2) =>
        match r2 with
        | [] => Some (mkIso y mo d false 0 0 0 0 NoZone)
        | _ :: _ =>
          match expect 84%N r2 with
          | None => None
          | Some r3 =>
            match parseTime r3 with
            | Some (hh, mm, ss, ms, z, []) =>
              Some (mkIso y mo d true hh mm ss ms z)
            | _ => None
            end
          end
        end
      end
    end
  end.

(** Legal element values: months 01 to 12, days 01 to 31 (a day past the end
    of its month rolls over into the next one, as in Node), hours 00 to 24
    where 24 stands only for the midnight that ends the day. *)
Definition legalFields (f : isoFields) : bool :=
  (1 <=? iso_month f) && (iso_month f <=? 12)
  && (1 <=? iso_day f) && (iso_day f <=? 31)
  && (iso_minute f <=? 59) && (iso_second f <=? 59)
  && ((iso_hour f <=? 23)
      || (iso_hour f =? 24) && (iso_minute f =? 0) && (iso_second f =? 0)
         && (iso_ms f =? 0)).

End JsDate.

Import JsDate.

(* ================================================================== *)
(** ** Number to string *)
(* ================================================================== *)

Module JsNumber.

Local Open Scope Z_scope.

Definition digitUnit (d : Z) : unit := Z.to_N (48 + d).

(** Decimal digits of a non-negative integer, most significant first. *)
Fixpoint decimal (fuel : nat) (n : Z) (acc : jsstring) : jsstring :=
  let acc' := digitUnit (n mod 10) :: acc in
  match fuel with
  | O => acc'
  | S f => if n <? 10 then acc' else decimal f (n / 10) acc'
  end.

(** [String(n)] and template-literal interpolation of an integer or NaN. *)
Definition NumberToString (n : number) : jsstring :=
  match n with
  | None => utf16 "NaN"
  | Some z =>
    if z <? 0 then 45%N :: decimal (Z.to_nat (Z.log2 (- z))) (- z) []
    else decimal (Z.to_nat (Z.log2 z)) z []
  end.

Definition plus (a : number) (b : Z) : number :=
  match a with
  | None => None
  | Some z => Some (z + b)
  end.

End JsNumber.

Import JsNumber.

(* ================================================================== *)
(** ** Unicode case mapping *)
(* ================================================================== *)

Module Casing.

(** The lower-case expansion of one code unit in its context: the units
    before it (nearest first), the unit, the units after it.  The context
    serves the final-sigma rule and surrogate pairs. *)
Definition casing := jsstring -> unit -> jsstring -> jsstring.

Fixpoint lower_from (lowerAt : casing) (before s : jsstring) : jsstring :=
  match s with
  | [] => []
  | c :: r => lowerAt before c r ++ lower_from lowerAt (c :: before) r
  end.

Definition isCasedLetter (c : unit) : bool :=
  ((65 <=? c) && (c <=? 90) || (97 <=? c) && (c <=? 122)
   || (192 <=? c) && (c <=? 591) || (880 <=? c) && (c <=? 1327))%N.

(** The mappings of the Basic Latin, Latin-1, Greek and Cyrillic capitals,
    with the final-sigma rule and the two-unit expansion of U+0130.  The
    engine's table continues over the remaining blocks of the Unicode
    Character Database. *)
Definition basicLower : casing :=
  fun before c after =>
    if ((65 <=? c) && (c <=? 90))%N then [(c + 32)%N]
    else if ((192 <=? c) && (c <=? 222) && negb (c =? 215))%N then [(c + 32)%N]
    else if (c =? 304)%N then [105%N; 775%N]
    else if (c =? 931)%N then
      match before, after with
      | p :: _, [] => if isCasedLetter p then [962%N] else [963%N]
      | p :: _, n :: _ =>
        if isCasedLetter p && negb (isCasedLetter n) then [962%N] else [963%N]
      | _, _ => [963%N]
      end
    else if ((913 <=? c) && (c <=? 939) && negb (c =? 930))%N then [(c + 32)%N]
    else if ((1040 <=? c) && (c <=? 1071))%N then [(c + 32)%N]
    else if ((1024 <=? c) && (c <=? 1039))%N then [(c + 80)%N]
    else [c].

(** Only the ASCII capitals: a second, coarser table. *)
Definition asciiLower : casing :=
  fun _ c _ => if ((65 <=? c) && (c <=? 90))%N then [(c + 32)%N] else [c].

End Casing.

Import Casing.

(* ================================================================== *)
(** ** The runtime the code reads *)
(* ================================================================== *)

(** What the helpers below take from the host.

    [LocalTZA t isUTC] is the offset of the local time zone from UTC, in
    milliseconds: the one in force at the instant [t] when [isUTC], the one
    the zone uses for the wall-clock time [t] otherwise.  A zone changes its
    offset over the year and over the years, so that a wall-clock time can be
    skipped or repeated; which offset such a time is read with is the host's
    choice (the language standard names the one before the transition).

    [lowerAt] is the engine's lower-case table.

    [legacyParse] is the engine's own reader for the strings that are outside
    the date-time string format: the standard leaves it to the
    implementation. *)
Record Host := mkHost {
  LocalTZA : Z -> bool -> Z;
  lowerAt : casing;
  legacyParse : jsstring -> number
}.

(* ================================================================== *)
(** ** Report card ([components/report-card]) *)
(* ================================================================== *)

Module Card.

Local Open Scope Z_scope.

(** Modelled from the spec: the [ReportListItem] type of [lib/api/reports]
    (the report summary projection) as the card reads it. *)
Record MetaIndustry := mkMetaIndustry {
  meta_industry_name : option jsstring
}.

Record ReportMetadata := mkMetadata {
  meta_industries : option (list MetaIndustry)
}.

Record ReportListItem := mkReport {
  report_id : Z;
  title : jsstring;
  summary : option jsstring;
  analysis_date : jsstring;
  industry_count : Z;
  report_metadata : option ReportMetadata
}.

(** JavaScript truthiness of a [string | null] value. *)
Definition truthy (v : option jsstring) : bool :=
  match v with
  | None => false
  | Some [] => false
  | Some (_ :: _) => true
  end.

(** The keywords of the colour rules. *)
Definition kwSemiconductor : jsstring := Eval cbv in utf16 "반도체".
Definition kwBattery : jsstring := Eval cbv in utf16 "2차전지".
Definition kwFinance : jsstring := Eval cbv in utf16 "금융".
Definition kwGame : jsstring := Eval cbv in utf16 "게임".

Definition clsSlate : jsstring := Eval cbv in utf16 "bg-slate-100 text-slate-700".
Definition clsGreen : jsstring := Eval cbv in utf16 "bg-green-100 text-green-700".
Definition clsOrange : jsstring := Eval cbv in utf16 "bg-orange-100 text-orange-700".
Definition clsRed : jsstring := Eval cbv in utf16 "bg-red-100 text-red-700".

(** /<[^>]*>/ tried at the head of [s]: the number of units it matches.
    The starred class is greedy and none of the units it takes is a [>], so
    the match is [<], the longest run free of [>], and the [>] after it. *)
Fixpoint runWithoutGt (s : jsstring) : nat * jsstring :=
  match s with
  | [] => (O, [])
  | c :: r =>
    if (c =? 62)%N then (O, s)
    else let (n, rest) := runWithoutGt r in (S n, rest)
  end.

Definition matchTag (s : jsstring) : option nat :=
  match s with
  | c :: r =>
    if (c =? 60)%N then
      match runWithoutGt r with
      | (n, g :: _) => if (g =? 62)%N then Some (S (S n)) else None
      | (_, []) => None
      end
    else None
  | [] => None
  end.

(** [html.replace(/<[^>]*>/g, "")]: at each index the pattern is tried; a
    match is dropped and the scan resumes after it ([skip] counts the units
    of the current match still to pass), otherwise the unit is copied. *)
Fixpoint replaceTags_from (skip : nat) (s : jsstring) : jsstring :=
  match s with
  | [] => []
  | c :: r =>
    match skip with
    | S k => replaceTags_from k r
    | O =>
      match matchTag s with
      | Some n => replaceTags_from (pred n) r
      | None => c :: replaceTags_from O r
      end
    end
  end.

Definition replaceTags (html : jsstring) : jsstring := replaceTags_from O html.

Definition stripHtmlTags (html : option jsstring) : jsstring :=
  if negb (truthy html) then []
  else match html with
       | Some h => trim (replaceTags h)
       | None => []
       end.

(** The unit [>]. *)
Definition isGt : unit -> bool := N.eqb 62.

(** The spec's wording of the sanitizer: a [<] that has a [>] somewhere after
    it opens a tag, the tag runs up to the next [>], and what is inside a
    tag, with its two delimiters, is removed. *)
Fixpoint dropTags (inTag : bool) (s : jsstring) : jsstring :=
  match s with
  | [] => []
  | c :: r =>
    if inTag then
      if (c =? 62)%N then dropTags false r else dropTags true r
    else if (c =? 60)%N && existsb (N.eqb 62) r then dropTags true r
    else c :: dropTags false r
  end.

Definition sanitize (summary : option jsstring) : jsstring :=
  match summary with
  | None => []
  | Some s => trim (dropTags false s)
  end.

(** The colour buckets and the spec's rule list, in its order. *)
Inductive bucket := Green | Orange | Red | Slate.

Definition className (b : bucket) : jsstring :=
  match b with
  | Green => clsGreen
  | Orange => clsOrange
  | Red => clsRed
  | Slate => clsSlate
  end.

Definition rules : list (list jsstring * bucket) :=
  [ ([kwSemiconductor; kwBattery], Green);
    ([kwFinance], Orange);
    ([kwGame], Red) ].

(** First rule one of whose keywords the candidate contains; neutral when
    there is none. *)
Fixpoint firstMatch (contains : jsstring -> bool)
         (rs : list (list jsstring * bucket)) : bucket :=
  match rs with
  | [] => Slate
  | (keywords, b) :: r =>
    if existsb contains keywords then b else firstMatch contains r
  end.

(** The rule list read with plain containment. *)
Definition classifyPlain (category : option jsstring) : bucket :=
  match category with
  | None => Slate
  | Some s => firstMatch (includes s) rules
  end.

(** The code units the keywords are made of: Hangul syllables and the
    digit 2, none of which has a case. *)
Definition isKeywordUnit (c : unit) : bool :=
  existsb (unit_eqb c) (kwSemiconductor ++ kwBattery ++ kwFinance ++ kwGame).

Definition notKeyword (u : unit) : bool := negb (isKeywordUnit u).

(** What the rules need of a lower-case table: it leaves the units of the
    keywords as they are, and turns no other unit into one of them or into
    nothing. *)
Definition keepsKeywords (low : casing) : Prop :=
  forall (before : jsstring) (c : unit) (after : jsstring),
    if isKeywordUnit c then low before c after = [c]
    else low before c after <> []
         /\ forallb (fun u => negb (isKeywordUnit u)) (low before c after)
            = true.

(** The spec's wording of the name extraction: the names that are neither
    null nor empty, in the order of the industries. *)
Definition presentNames (l : list MetaIndustry) : list jsstring :=
  flat_map (fun ind =>
              match meta_industry_name ind with
              | Some (c :: s) => [c :: s]
              | _ => []
              end) l.

Section OnHost.

Variable host : Host.

Definition toLowerCase (s : jsstring) : jsstring :=
  lower_from (lowerAt host) [] s.

Definition getCategoryColor (category : option jsstring) : jsstring :=
  if negb (truthy category) then clsSlate
  else match category with
  | None => clsSlate
  | Some category =>
    let categoryLower := toLowerCase category in
    if includes categoryLower kwSemiconductor
       || includes categoryLower kwBattery
    then clsGreen
    else if includes categoryLower kwFinance then clsOrange
    else if includes categoryLower kwGame then clsRed
    else clsSlate
  end.

(** The spec's wording of the classification: case-insensitive containment,
    both sides lower-cased, against the ordered rules. *)
Definition containsIgnoringCase (s k : jsstring) : bool :=
  includes (toLowerCase s) (toLowerCase k).

Definition classify (category : option jsstring) : bucket :=
  match category with
  | None => Slate
  | Some s => firstMatch (containsIgnoringCase s) rules
  end.

(** [LocalTime(t)] and [UTC(t)]: from an instant to the wall clock, with the
    offset in force at that instant, and back, with the offset the zone uses
    for that wall-clock time. *)
Definition LocalTime (t : Z) : Z := t + LocalTZA host t true.

Definition UTC (t : Z) : Z := t - LocalTZA host t false.

(** The instant that the fields of a string in the date-time string format
    name.  Date-only forms are UTC; date-time forms without a zone designator
    are local time. *)
Definition instantOf (f : isoFields) : Z :=
  let day := MakeDay (iso_year f) (iso_month f - 1) (iso_day f) in
  let time := MakeTime (iso_hour f) (iso_minute f) (iso_second f)
                       (iso_ms f) in
  let stamp := MakeDate day time in
  match iso_zone f with
  | Offset m => stamp - m * 60000
  | NoZone => if iso_timed f then UTC stamp else stamp
  end.

(** [Date.parse].  A string in the date-time string format with legal field
    values names its instant; every other string goes to the engine's own
    reader. *)
Definition Date_parse (s : jsstring) : number :=
  match parseFields s with
  | None => legacyParse host s
  | Some f =>
    if legalFields f then TimeClip (instantOf f) else legacyParse host s
  end.

(** A Date object is its time value. *)
Definition Date_new (dateString : jsstring) : number := Date_parse dateString.

Definition getFullYear (date : number) : number :=
  match date with
  | None => NaN
  | Some t => Some (YearFromTime (LocalTime t))
  end.

Definition getMonth (date : number) : number :=
  match date with
  | None => NaN
  | Some t => Some (MonthFromTime (LocalTime t))
  end.

Definition getDate (date : number) : number :=
  match date with
  | None => NaN
  | Some t => Some (DateFromTime (LocalTime t))
  end.

Definition dot : jsstring := [46%N].

Definition formatDate (dateString : jsstring) : jsstring :=
  let date := Date_new dateString in
  NumberToString (getFullYear date) ++ dot
  ++ padStart (NumberToString (plus (getMonth date) 1)) 2 48%N ++ dot
  ++ padStart (NumberToString (getDate date)) 2 48%N.

(** [report.report_metadata?.industries || []] *)
Definition metadataIndustries (report : ReportListItem) : list MetaIndustry :=
  match report_metadata report with
  | None => []
  | Some m =>
    match meta_industries m with
    | None => []
    | Some l => l
    end
  end.

(** [industries.map((ind) => ind.industry_name).filter(Boolean)] *)
Definition industryNames (report : ReportListItem) : list (option jsstring) :=
  filter truthy (map meta_industry_name (metadataIndustries report)).

(** [industryNames.length > 0 ? industryNames[0]
       : (report.industry_count > 0 ? "산업" : null)]: computed by the
    component, shown nowhere. *)
Definition category (report : ReportListItem) : option jsstring :=
  match industryNames report with
  | first :: _ => first
  | [] => if industry_count report >? 0 then Some (utf16 "산업") else None
  end.

(** One category tag: its colour classes and its text. *)
Record Tag := mkTag {
  tag_key : Z;
  tag_color : jsstring;
  tag_text : option jsstring
}.

Fixpoint tags_from (index : Z) (names : list (option jsstring)) : list Tag :=
  match names with
  | [] => []
  | industryName :: r =>
    mkTag index (getCategoryColor industryName) industryName
    :: tags_from (index + 1) r
  end.

(** The tag row: the tags and the [+n] remainder indicator. *)
Record TagRow := mkTagRow {
  row_tags : list Tag;
  row_more : option Z
}.

(** What the card shows; the static frame (link, icons, hint) is left out. *)
Record CardView := mkCardView {
  card_href_id : Z;
  card_date : jsstring;
  card_industry_count : option Z;
  card_title : jsstring;
  card_summary : option jsstring;
  card_tag_row : option TagRow
}.

Definition ReportCard (report : ReportListItem) : CardView :=
  let industryNames := industryNames report in
  let n := Z.of_nat (List.length industryNames) in
  mkCardView
    (report_id report)
    (formatDate (analysis_date report))
    (if industry_count report >? 0 then Some (industry_count report) else None)
    (title report)
    (if truthy (summary report) then Some (stripHtmlTags (summary report))
     else None)
    (if n >? 0 then
       Some (mkTagRow (tags_from 0 (slice0 3 industryNames))
                      (if n >? 3 then Some (n - 3) else None))
     else None).

End OnHost.

End Card.

(* ================================================================== *)
(** ** Writing date-time strings *)
(* ================================================================== *)

Module Written.

Local Open Scope Z_scope.

Definition two (n : Z) : jsstring :=
  [digitUnit (n / 10); digitUnit (n mod 10)].

Definition four (n : Z) : jsstring :=
  [digitUnit (n / 1000); digitUnit (n / 100 mod 10);
   digitUnit (n / 10 mod 10); digitUnit (n mod 10)].

(** The zone designator of a written date-time: none (local time), [Z], or
    an offset east or west of UTC. *)
Inductive designator :=
| Local
| Zulu
| East (hh mm : Z)
| West (hh mm : Z).

Record clock := mkClock {
  c_hour : Z;
  c_minute : Z;
  c_second : Z;
  c_zone : designator
}.

(** A calendar date as written in a string, with or without a time. *)
Record written := mkWritten {
  w_year : Z;
  w_month : Z;
  w_day : Z;
  w_clock : option clock
}.

Definition designatorString (z : designator) : jsstring :=
  match z with
  | Local => []
  | Zulu => [90%N]
  | East hh mm => [43%N] ++ two hh ++ [58%N] ++ two mm
  | West hh mm => [45%N] ++ two hh ++ [58%N] ++ two mm
  end.

(** [YYYY-MM-DD] or [YYYY-MM-DDTHH:mm:ss] with its designator. *)
Definition isoString (w : written) : jsstring :=
  four (w_year w) ++ [45%N] ++ two (w_month w) ++ [45%N] ++ two (w_day w)
  ++ match w_clock w with
     | None => []
     | Some c =>
       [84%N] ++ two (c_hour c) ++ [58%N] ++ two (c_minute c) ++ [58%N]
       ++ two (c_second c) ++ designatorString (c_zone c)
     end.

(** [YYYY.MM.DD] of the date as written. *)
Definition writtenDate (w : written) : jsstring :=
  four (w_year w) ++ [46%N] ++ two (w_month w) ++ [46%N] ++ two (w_day w).

Definition daysInMonth (y m : Z) : Z :=
  if m =? 2 then (if DaysInYear y =? 366 then 29 else 28)
  else if (m =? 4) || (m =? 6) || (m =? 9) || (m =? 11) then 30
  else 31.

Definition designatorOk (z : designator) : Prop :=
  match z with
  | Local | Zulu => True
  | East hh mm | West hh mm => 0 <= hh <= 23 /\ 0 <= mm <= 59
  end.

Definition clockOk (c : clock) : Prop :=
  0 <= c_hour c <= 23 /\ 0 <= c_minute c <= 59 /\ 0 <= c_second c <= 59
  /\ designatorOk (c_zone c).

(** A date of the calendar with a four-digit year that shows all its
    digits. *)
Definition wellFormed (w : written) : Prop :=
  1000 <= w_year w <= 9999 /\ 1 <= w_month w <= 12
  /\ 1 <= w_day w <= daysInMonth (w_year w) (w_month w)
  /\ match w_clock w with
     | None => True
     | Some c => clockOk c
     end.

(** Milliseconds since the midnight that starts the written date. *)
Definition timeOfDay (w : written) : Z :=
  match w_clock w with
  | None => 0
  | Some c => MakeTime (c_hour c) (c_minute c) (c_second c) 0
  end.

(** The written date and time of day as a time value, before any zone is
    taken into account. *)
Definition stamp (w : written) : Z :=
  MakeDate (MakeDay (w_year w) (w_month w - 1) (w_day w)) (timeOfDay w).

(** Offset from UTC, in milliseconds, of the zone the string is read in: a
    date-only string is read in UTC, a date-time string without designator
    in the local zone of the host, with the offset that zone uses for the
    written wall-clock time. *)
Definition zoneOffset (host : Host) (w : written) : Z :=
  match w_clock w with
  | None => 0
  | Some c =>
    match c_zone c with
    | Local => LocalTZA host (stamp w) false
    | Zulu => 0
    | East hh mm => (hh * 60 + mm) * 60000
    | West hh mm => - ((hh * 60 + mm) * 60000)
    end
  end.

(** The instant a string names. *)
Definition instant (host : Host) (w : written) : Z :=
  stamp w - zoneOffset host w.

(** The host's zone lies within a day of UTC, at every time. *)
Definition zoneInRange (host : Host) : Prop :=
  forall (t : Z) (isUTC : bool),
    - msPerDay < LocalTZA host t isUTC < msPerDay.

(** The zone a designator stands for. *)
Definition zoneOf (z : designator) : zone :=
  match z with
  | Local => NoZone
  | Zulu => Offset 0
  | East hh mm => Offset (hh * 60 + mm)
  | West hh mm => Offset (- (hh * 60 + mm))
  end.

Definition leapFlag (y : Z) : Z := if DaysInYear y =? 366 then 1 else 0.

(** The instant a string names, as a time value on the wall clock of the
    host: the offset is the one in force at that instant. *)
Definition localInstant (host : Host) (w : written) : Z :=
  instant host w + LocalTZA host (instant host w) true.

(** The midnight that starts a written date. *)
Definition dayStart (w : written) : Z :=
  MakeDate (MakeDay (w_year w) (w_month w - 1) (w_day w)) 0.

(** On the wall clock of the host, the instant that [w] names falls on the
    calendar date of [w']. *)
Definition onLocalDay (host : Host) (w w' : written) : Prop :=
  dayStart w' <= localInstant host w < dayStart w' + msPerDay.

(** The wall clock of the host stays on the written date: shifting the
    written time of day from the string's zone into the local zone, at the
    instant the string names, does not cross a midnight. *)
Definition sameLocalDay (host : Host) (w : written) : Prop :=
  0 <= timeOfDay w
       + (LocalTZA host (instant host w) true - zoneOffset host w)
    < msPerDay.

End Written.

(* ================================================================== *)
(** ** Impacted-industries grid *)
(* ================================================================== *)

Module Grid.

(** One cell of the grid: the key, the heading, the optional description. *)
Record Cell := mkCell {
  cell_key : Z;
  cell_name : jsstring;
  cell_description : option jsstring
}.

Inductive view :=
| RenderNull
| RenderCells (cells : list Cell).

Definition cellOf (industry : Industry) : Cell :=
  mkCell (industry_id industry) (industry_name industry)
         (if Card.truthy (impact_description industry)
          then impact_description industry else None).

Definition ImpactedIndustriesGrid (industries : list Industry) : view :=
  if (List.length industries =? 0)%nat then RenderNull
  else RenderCells (map cellOf industries).

Definition cellsOf (v : view) : list Cell :=
  match v with
  | RenderNull => []
  | RenderCells cells => cells
  end.

End Grid.

(* ================================================================== *)
(** ** Home page ([app/page.tsx]) *)
(* ================================================================== *)

Module HomePage.

(** The state in which a promise settles. *)
Inductive settled (A E : Type) :=
| Fulfilled (value : A)
| Rejected (reason : E).

Arguments Fulfilled {A E} value.
Arguments Rejected {A E} reason.

Section Fetches.

(** The values the API clients reject with. *)
Variable Err : Type.

(** A line written with [console.error]: the message and the error. *)
Definition logLine : Type := (string * Err)%type.

(** [p.catch(handler)] where the handler logs and returns a value. *)
Definition catch (A : Type) (p : settled A Err)
           (handler : Err -> A * list logLine)
  : settled A Err * list logLine :=
  match p with
  | Fulfilled a => (Fulfilled a, [])
  | Rejected e => let (a, out) := handler e in (Fulfilled a, out)
  end.

(** [Promise.all([p, q])] *)
Definition Promise_all2 (A B : Type) (p : settled A Err) (q : settled B Err)
  : settled (A * B) Err :=
  match p, q with
  | Fulfilled a, Fulfilled b => Fulfilled (a, b)
  | Rejected e, _ => Rejected e
  | _, Rejected e => Rejected e
  end.

(** What the page hands to the hero section; the other sections take no
    data from [Home]. *)
Record View := mkView {
  hero_newsCount : Z;
  hero_subscriberCount : Z
}.

(** [Home]: the arguments are the outcomes of [getNewsCount()] and
    [getSubscriberCount()], and which of the two settles first; the result
    is the outcome of the async function and the console output. *)
Definition Home (news subscribers : settled Z Err) (newsFirst : bool)
  : settled View Err * list logLine :=
  let (p1, out1) :=
    catch news
          (fun error => (0%Z, [("Failed to fetch news count:"%string, error)]))
  in
  let (p2, out2) :=
    catch subscribers
          (fun error =>
             (0%Z, [("Failed to fetch subscriber count:"%string, error)]))
  in
  let console := if newsFirst then out1 ++ out2 else out2 ++ out1 in
  match Promise_all2 p1 p2 with
  | Fulfilled (newsCount, subscriberCount) =>
    (Fulfilled (mkView newsCount subscriberCount), console)
  | Rejected e => (Rejected e, console)
  end.

(** The count the page shows for an auxiliary fetch: its value, or the
    default 0 when it failed. *)
Definition countOrZero (p : settled Z Err) : Z :=
  match p with
  | Fulfilled n => n
  | Rejected _ => 0%Z
  end.

Definition failures (p : settled Z Err) : nat :=
  match p with
  | Fulfilled _ => 0
  | Rejected _ => 1
  end.

End Fetches.

End HomePage.

(* ================================================================== *)
(** ** Notions used by the further properties *)
(* ================================================================== *)

(** A stock whose id is not among [ids]. *)
Definition unseen (ids : list Z) (s : Stock) : bool :=
  negb (existsb (Z.eqb (id s)) ids).

(** [subsequence a b]: [a] is [b] with some code units deleted. *)
Inductive subsequence : jsstring -> jsstring -> Prop :=
| subsequence_nil : subsequence [] []
| subsequence_skip c a b : subsequence a b -> subsequence a (c :: b)
| subsequence_keep c a b : subsequence a b -> subsequence (c :: a) (c :: b).

(** No [>] stands anywhere after a [<]: the string holds no tag. *)
Definition tagFree (s : jsstring) : Prop :=
  forall pre t, s = pre ++ 60%N :: t -> existsb Card.isGt t = false.

(** The Hangul syllables, U+AC00 to U+D7A3. *)
Definition isHangul (c : unit) : bool := ((44032 <=? c) && (c <=? 55203))%N.

(** The calendar day before a written date. *)
Definition prevDay (w : Written.written) : Written.written :=
  let y := Written.w_year w in
  let m := Written.w_month w in
  let d := Written.w_day w in
  if (1 <? d)%Z then Written.mkWritten y m (d - 1)%Z None
  else if (1 <? m)%Z
       then Written.mkWritten y (m - 1)%Z (Written.daysInMonth y (m - 1)%Z) None
       else Written.mkWritten (y - 1)%Z 12 31 None.

(** The time value of the instant a string names. *)
Definition utcInstant (host : Host) (w : Written.written) : Z :=
  (MakeDate (MakeDay (Written.w_year w) (Written.w_month w - 1)
                     (Written.w_day w))
            (Written.timeOfDay w)
   - Written.zoneOffset host w)%Z.

(** What the formatter prints for a Date that holds NaN. *)
Definition invalidDateText : jsstring := Eval cbv in utf16 "NaN.NaN.NaN".

(** The stock cards that a rendered sidebar shows. *)
Definition cardsOf (v : Sidebar.view) : list Stock :=
  match v with
  | Sidebar.RenderNull => []
  | Sidebar.RenderStockCards cards => cards
  end.

(* ================================================================== *)
(** ** The database push script ([push_db.sh]) *)
(* ================================================================== *)

Module PushDb.

Local Open Scope string_scope.

(** What the script asks of the remote server through [psql]. *)
Inductive remoteOp :=
| TerminateSessions
| DropDatabase
| CreateDatabase
| RestoreDump (file : string)
| Probe
| RestoreDumpKeeping (file : string).

(** The external commands of the script.  [ComposeUp] is the pipeline
    [docker-compose ps postgres | grep -q "Up"]; [RestoreDumpKeeping] is the
    pipeline of [psql] into [grep -v "already exists"]. *)
Inductive command :=
| Date
| Mkdir (dir : string)
| ComposeUp
| PgDump (file : string)
| Sleep
| Psql (host password : string) (op : remoteOp).

(** What a run does, in order: the lines it prints with [echo], the [read]s
    it makes, the commands it executes ([read]'s prompts are left out). *)
Inductive event :=
| Echo (line : string)
| Read
| Exec (c : command).

Inductive mode := append | overwrite.

Definition modeName (m : mode) : string :=
  match m with
  | append => "append"
  | overwrite => "overwrite"
  end.

(** The surroundings of a run: the name and first argument of the script
    (the empty string when none is given), the values the successive
    [read]s assign, what [date] prints, and the exit status of each
    command. *)
Record world := mkWorld {
  argv0 : string;
  argv1 : string;
  stdin : list string;
  timestamp : string;
  status : command -> nat
}.

(** The events of a run and its exit status. *)
Definition run : Type := (list event * nat)%type.

Definition emit (e : event) (k : run) : run :=
  let (trace, code) := k in (e :: trace, code).

Definition echo (line : string) (k : run) : run := emit (Echo line) k.

Definition exit (code : nat) : run := ([], code).

(** [-z]: the empty string. *)
Definition isEmpty (s : string) : bool :=
  match s with
  | EmptyString => true
  | String _ _ => false
  end.

Definition REMOTE_DB : string := "stock_analysis".

Definition LOCAL_DB : string := "stock_analysis".

Definition BACKUP_DIR : string := "./backups".

(** Sequencing: [c ;; k] runs [c] and goes on with [k]. *)
Local Notation "c ;; k" := (c k)
  (at level 200, right associativity, only parsing).

Section Script.

Variable w : world.

(** A simple command under [set -e]: a non-zero status ends the run with
    that status; otherwise the script goes on, with [$?] at hand. *)
Definition exec (c : command) (k : nat -> run) : run :=
  if (status w c =? 0)%nat then emit (Exec c) (k (status w c))
  else ([Exec c], status w c).

(** [c || true]: the status is dropped. *)
Definition attempt (c : command) (k : run) : run := emit (Exec c) k.

(** A command in the condition of an [if]: [set -e] does not apply. *)
Definition test (c : command) (k : bool -> run) : run :=
  emit (Exec c) (k (status w c =? 0)%nat).

(** [read VAR]: at the end of the input [read] fails, and [set -e] ends
    the run with status 1. *)
Definition read (input : list string)
           (k : string -> list string -> run) : run :=
  match input with
  | [] => ([Read], 1)
  | v :: rest => emit Read (k v rest)
  end.

(** The option parsing, lines 41 to 75. *)
Definition selectMode (input : list string)
           (k : mode -> list string -> run) : run :=
  if String.eqb (argv1 w) "--append" then k append input
  else if String.eqb (argv1 w) "--overwrite" then k overwrite input
  else if isEmpty (argv1 w) then
    echo "" ;;
    echo "==========================================" ;;
    echo "복원 모드를 선택하세요:" ;;
    echo "==========================================" ;;
    echo "1) 덮어쓰기 (기존 원격 DB를 완전히 교체) ⚠️  위험!" ;;
    echo "2) 추가 (기존 원격 DB에 데이터 추가)" ;;
    echo "==========================================" ;;
    read input ;; fun choice input' =>
    if String.eqb choice "1" then k overwrite input'
    else if String.eqb choice "2" then k append input'
    else
      echo "❌ 잘못된 선택입니다. 1 또는 2를 입력하세요." ;;
      exit 1
  else
    echo ("사용법: " ++ argv0 w ++ " [--overwrite|--append]") ;;
    echo "  --overwrite: 원격 DB를 완전히 덮어씁니다" ;;
    echo "  --append: 원격 DB에 데이터를 추가합니다" ;;
    echo "" ;;
    echo "옵션 없이 실행하면 대화형 메뉴가 표시됩니다." ;;
    exit 1.

(** The overwrite branch, lines 114 to 163. *)
Definition overwriteRemote (REMOTE_HOST REMOTE_PASSWORD DUMP_FILE : string)
           (input : list string) (k : run) : run :=
  echo "🔄 덮어쓰기 모드: 원격 데이터베이스를 삭제하고 복원합니다..." ;;
  echo "⚠️  경고: 원격 DB의 모든 데이터가 삭제됩니다!" ;;
  read input ;; fun confirm _ =>
  if negb (String.eqb confirm "yes") then
    echo "❌ 취소되었습니다." ;;
    exit 1
  else
    echo "🔌 기존 연결 종료 중..." ;;
    attempt (Psql REMOTE_HOST REMOTE_PASSWORD TerminateSessions) ;;
    exec Sleep ;; fun _ =>
    echo "🗑️  원격 데이터베이스 삭제 중..." ;;
    exec (Psql REMOTE_HOST REMOTE_PASSWORD DropDatabase) ;; fun _ =>
    echo "🆕 새 데이터베이스 생성 중..." ;;
    exec (Psql REMOTE_HOST REMOTE_PASSWORD CreateDatabase) ;; fun _ =>
    echo "📤 덤프 복원 중..." ;;
    exec (Psql REMOTE_HOST REMOTE_PASSWORD (RestoreDump DUMP_FILE)) ;;
    fun restored =>
    if negb (restored =? 0)%nat then
      echo "❌ 복원 실패" ;;
      exit 1
    else
      echo "✅ 덮어쓰기 완료!" ;;
      k.

(** The append branch, lines 166 to 183. *)
Definition appendRemote (REMOTE_HOST REMOTE_PASSWORD DUMP_FILE : string)
           (k : run) : run :=
  echo "➕ 추가 모드: 원격 DB에 데이터를 추가합니다..." ;;
  test (Psql REMOTE_HOST REMOTE_PASSWORD Probe) ;; fun reachable =>
  if negb reachable then
    echo "❌ 원격 PostgreSQL에 연결할 수 없습니다." ;;
    echo "   네트워크 연결 및 보안 그룹 설정을 확인하세요." ;;
    exit 1
  else
    echo "📤 덤프 복원 중 (기존 데이터 유지)..." ;;
    attempt (Psql REMOTE_HOST REMOTE_PASSWORD (RestoreDumpKeeping DUMP_FILE)) ;;
    echo "✅ 추가 완료!" ;;
    k.

(** The whole script. *)
Definition push_db : run :=
  exec Date ;; fun _ =>
  let DUMP_FILE := BACKUP_DIR ++ "/local_dump_" ++ timestamp w ++ ".sql" in
  echo "==========================================" ;;
  echo "원격 DB 정보 입력" ;;
  echo "==========================================" ;;
  read (stdin w) ;; fun REMOTE_HOST input1 =>
  if isEmpty REMOTE_HOST then
    echo "❌ 호스트 IP 주소는 필수입니다." ;;
    exit 1
  else
  read input1 ;; fun REMOTE_PASSWORD input2 =>
  echo "" ;;
  if isEmpty REMOTE_PASSWORD then
    echo "❌ 비밀번호는 필수입니다." ;;
    exit 1
  else
  selectMode input2 ;; fun MODE input3 =>
  exec (Mkdir BACKUP_DIR) ;; fun _ =>
  echo "==========================================" ;;
  echo "로컬 DB에서 원격 DB로 데이터 푸시하기" ;;
  echo "==========================================" ;;
  echo ("로컬: docker-compose postgres/" ++ LOCAL_DB) ;;
  echo ("원격: " ++ REMOTE_HOST ++ "/" ++ REMOTE_DB) ;;
  echo ("모드: " ++ modeName MODE) ;;
  echo "==========================================" ;;
  echo "" ;;
  echo "📥 로컬 DB에서 덤프 생성 중..." ;;
  test ComposeUp ;; fun up =>
  if negb up then
    echo "❌ docker-compose의 postgres 컨테이너가 실행 중이 아닙니다." ;;
    echo "   docker-compose up -d를 실행하세요." ;;
    exit 1
  else
  exec (PgDump DUMP_FILE) ;; fun dumped =>
  if negb (dumped =? 0)%nat then
    echo "❌ 덤프 생성 실패" ;;
    exit 1
  else
  echo ("✅ 덤프 생성 완료: " ++ DUMP_FILE) ;;
  echo "" ;;
  let finish :=
    echo "" ;;
    echo "==========================================" ;;
    echo "✅ 완료!" ;;
    echo ("덤프 파일: " ++ DUMP_FILE) ;;
    echo "==========================================" ;;
    exit 0 in
  match MODE with
  | overwrite =>
    overwriteRemote REMOTE_HOST REMOTE_PASSWORD DUMP_FILE input3 finish
  | append => appendRemote REMOTE_HOST REMOTE_PASSWORD DUMP_FILE finish
  end.

End Script.

(** The commands a run executes, in order. *)
Definition commands (r : run) : list command :=
  flat_map (fun e => match e with Exec c => [c] | _ => [] end) (fst r).

(** The lines a run prints. *)
Definition printed (r : run) : list string :=
  flat_map (fun e => match e with Echo l => [l] | _ => [] end) (fst r).

(** The commands that reach the remote server. *)
Definition isRemote (c : command) : bool :=
  match c with
  | Psql _ _ _ => true
  | _ => false
  end.

(** The commands of the overwrite branch: ending the sessions, dropping and
    re-creating the database, loading the dump into the new database. *)
Definition overwrites (c : command) : bool :=
  match c with
  | Psql _ _ TerminateSessions | Psql _ _ DropDatabase
  | Psql _ _ CreateDatabase | Psql _ _ (RestoreDump _) => true
  | _ => false
  end.

(** What the option parsing settles on, and the input it leaves: the flag
    when one is given, else the answer to the menu. *)
Definition selection (w : world) (input : list string)
  : option (mode * list string) :=
  if String.eqb (argv1 w) "--append" then Some (append, input)
  else if String.eqb (argv1 w) "--overwrite" then Some (overwrite, input)
  else if isEmpty (argv1 w) then
    match input with
    | choice :: input' =>
      if String.eqb choice "1" then Some (overwrite, input')
      else if String.eqb choice "2" then Some (append, input')
      else None
    | [] => None
    end
  else None.

(** The mode of a run whose first two inputs are the host and the
    password. *)
Definition chosenMode (w : world) : option mode :=
  match stdin w with
  | _ :: _ :: input =>
    match selection w input with
    | Some (m, _) => Some m
    | None => None
    end
  | _ => None
  end.

(** The answer to the confirmation question of the overwrite mode. *)
Definition confirmation (w : world) : option string :=
  match stdin w with
  | _ :: _ :: input =>
    match selection w input with
    | Some (_, answer :: _) => Some answer
    | _ => None
    end
  | _ => None
  end.

Definition dumpFile (w : world) : string :=
  BACKUP_DIR ++ "/local_dump_" ++ timestamp w ++ ".sql".

(** Commands run one after the other under [set -e]: the first that fails
    ends the run with its status. *)
Fixpoint chain (w : world) (cs : list command) : list command * nat :=
  match cs with
  | [] => ([], 0)
  | c :: rest =>
    if (status w c =? 0)%nat
    then let (done, code) := chain w rest in (c :: done, code)
    else ([c], status w c)
  end.

(** The script with its printing taken out: the commands a run executes and
    its exit status, by the conditions the run meets. *)
Definition plan (w : world) : list command * nat :=
  let f := dumpFile w in
  if negb (status w Date =? 0)%nat then ([Date], status w Date) else
  match stdin w with
  | [] => ([Date], 1)
  | h :: input1 =>
    if isEmpty h then ([Date], 1) else
    match input1 with
    | [] => ([Date], 1)
    | p :: input2 =>
      if isEmpty p then ([Date], 1) else
      match selection w input2 with
      | None => ([Date], 1)
      | Some (m, input3) =>
        if negb (status w (Mkdir BACKUP_DIR) =? 0)%nat
        then ([Date; Mkdir BACKUP_DIR], status w (Mkdir BACKUP_DIR)) else
        if negb (status w ComposeUp =? 0)%nat
        then ([Date; Mkdir BACKUP_DIR; ComposeUp], 1) else
        if negb (status w (PgDump f) =? 0)%nat
        then ([Date; Mkdir BACKUP_DIR; ComposeUp; PgDump f],
              status w (PgDump f)) else
        let local := [Date; Mkdir BACKUP_DIR; ComposeUp; PgDump f] in
        match m with
        | overwrite =>
          match input3 with
          | [] => (local, 1)
          | confirm :: _ =>
            if String.eqb confirm "yes" then
              let (done, code) :=
                chain w [Sleep; Psql h p DropDatabase; Psql h p CreateDatabase;
                         Psql h p (RestoreDump f)] in
              ((local ++ Psql h p TerminateSessions :: done)%list, code)
            else (local, 1)
          end
        | append =>
          if (status w (Psql h p Probe) =? 0)%nat
          then ((local ++ [Psql h p Probe; Psql h p (RestoreDumpKeeping f)])%list,
                0)
          else ((local ++ [Psql h p Probe])%list, 1)
        end
      end
    end
  end.

(** The run does not print [msg]. *)
Definition quiet (msg : string) (r : run) : Prop := ~ In msg (printed r).

End PushDb.

(* ================================================================== *)
(** ** Sample data *)
(* ================================================================== *)

(** Sample records for the worked examples. *)
Definition sampleStock (n : Z) (name : string) : Stock :=
  mkStock n (utf16 "005930") (utf16 name) up [].

Definition sampleIndustry (n : Z) (name : string) (l : list Stock) : Industry :=
  mkIndustry n (utf16 name) (Some high) None (Some positive) l.

Definition sampleIndustries : list Industry :=
  [ sampleIndustry 1 "반도체" [sampleStock 1 "A"; sampleStock 2 "B"];
    sampleIndustry 2 "2차전지" [sampleStock 1 "C"] ].

(** A zone that keeps one offset, and a reader that recognises no string
    outside the date-time string format. *)
Definition fixedZone (offset : Z) : Z -> bool -> Z := fun _ _ => offset.

Definition noLegacy : jsstring -> number := fun _ => NaN.

(** Hosts: Seoul (UTC+9), New York in winter (UTC-5), Honolulu (UTC-10) and
    a host on UTC. *)
Definition seoul : Host := mkHost (fixedZone 32400000) basicLower noLegacy.

Definition newYork : Host := mkHost (fixedZone (-18000000)) basicLower noLegacy.

Definition honolulu : Host :=
  mkHost (fixedZone (-36000000)) basicLower noLegacy.

Definition utcHost : Host := mkHost (fixedZone 0) asciiLower noLegacy.

(** Apia around the end of 2011: ten hours behind UTC until
    2011-12-30T10:00:00Z, fourteen hours ahead from then on, so that the
    wall clock goes from the end of 29 December to the start of
    31 December.  A wall-clock time of the skipped day is read with the
    offset before the change. *)
Definition apia : Host :=
  mkHost (fun t isUTC =>
            if isUTC
            then (if (t <? 1325239200000)%Z then (-36000000)%Z
                  else 50400000%Z)
            else (if (t <? 1325289600000)%Z then (-36000000)%Z
                  else 50400000%Z))
         basicLower noLegacy.

(** A report whose metadata lists seven industries, one without a name and
    one with an empty name. *)
Definition sampleReport : Card.ReportListItem :=
  Card.mkReport 17 (utf16 "AI 반도체 수요 급증")
    (Some (utf16 "<p>안녕 <b>세계</b></p>")) (utf16 "2024-01-15") 7
    (Some (Card.mkMetadata (Some
       [ Card.mkMetaIndustry (Some (utf16 "반도체"));
         Card.mkMetaIndustry None;
         Card.mkMetaIndustry (Some (utf16 "금융"));
         Card.mkMetaIndustry (Some []);
         Card.mkMetaIndustry (Some (utf16 "게임"));
         Card.mkMetaIndustry (Some (utf16 "2차전지"));
         Card.mkMetaIndustry (Some (utf16 "우주항공")) ]))).

(** An industry row whose name is the empty string. *)
Definition unnamedIndustry : Industry :=
  mkIndustry 7 [] (Some low) (Some (utf16 "금리 인하 기대")) None [].

(** Sample surroundings of the push script: every command succeeds. *)
Definition allSucceed : PushDb.command -> nat := fun _ => 0.

Definition overwriteWorld : PushDb.world :=
  PushDb.mkWorld "./push_db.sh" "--overwrite" ["10.0.0.7"; "secret"; "yes"]%string
                 "20240115_080000" allSucceed.

Definition menuAppendWorld : PushDb.world :=
  PushDb.mkWorld "./push_db.sh" "" ["10.0.0.7"; "secret"; "2"]%string
                 "20240115_080000" allSucceed.

(* ================================================================== *)
(** * Properties *)
(* ================================================================== *)

(** ** Array helpers *)

Section ArrayFacts.

Variable A : Type.
Variable p : A -> bool.

Lemma findIndex_from_none (l : list A) (i : Z) :
  existsb p l = false -> findIndex_from p l i = (-1)%Z.
Proof.
  revert i; induction l as [|x r IH]; intros i H; simpl in *; [reflexivity|].
  apply orb_false_iff in H as [Hx Hr]. rewrite Hx. now apply IH.
Qed.

Lemma findIndex_from_some (l : list A) (i : Z) :
  existsb p l = true ->
  (i <= findIndex_from p l i < i + Z.of_nat (List.length l))%Z.
Proof.
  revert i; induction l as [|x r IH]; intros i H; simpl in *; [discriminate|].
  destruct (p x) eqn:Hx.
  - lia.
  - simpl in H. specialize (IH (i + 1)%Z H). lia.
Qed.

Lemma findIndex_from_app_hit (pre l : list A) (i : Z) :
  existsb p pre = true ->
  (i <= findIndex_from p (pre ++ l) i < i + Z.of_nat (List.length pre))%Z.
Proof.
  revert i; induction pre as [|x r IH]; intros i H; simpl in *; [discriminate|].
  destruct (p x) eqn:Hx.
  - lia.
  - simpl in H. specialize (IH (i + 1)%Z H). lia.
Qed.

Lemma findIndex_from_app_miss (pre l : list A) (i : Z) :
  existsb p pre = false ->
  findIndex_from p (pre ++ l) i
  = findIndex_from p l (i + Z.of_nat (List.length pre))%Z.
Proof.
  revert i; induction pre as [|x r IH]; intros i H; simpl in *.
  - f_equal; lia.
  - apply orb_false_iff in H as [Hx Hr]. rewrite Hx, IH by assumption.
    f_equal; lia.
Qed.

End ArrayFacts.

(** ** Deduplication in the sidebar *)

Section SidebarFacts.

Import Sidebar.

(** The callback of the filter keeps [x] exactly when no earlier element
    carries its id. *)
Lemma isFirst_at (pre r : list Stock) (x : Stock) :
  isFirst x (Z.of_nat (List.length pre)) (pre ++ x :: r)
  = negb (existsb (sameId x) pre).
Proof.
  unfold isFirst, findIndex. fold (sameId x).
  destruct (existsb (sameId x) pre) eqn:E; simpl.
  - pose proof (findIndex_from_app_hit (sameId x) pre (x :: r) 0%Z E).
    apply Z.eqb_neq. lia.
  - rewrite findIndex_from_app_miss by assumption. simpl.
    unfold sameId at 1. rewrite Z.eqb_refl. apply Z.eqb_eq. lia.
Qed.

Lemma existsb_sameId (x : Stock) (pre : list Stock) (seen : list Z) :
  (forall z, In z seen <-> In z (map id pre)) ->
  existsb (sameId x) pre = existsb (Z.eqb (id x)) seen.
Proof.
  intros Hseen. apply eq_true_iff_eq. rewrite !existsb_exists. split.
  - intros [s [Hs Hid]]. unfold sameId in Hid. apply Z.eqb_eq in Hid.
    exists (id x). split; [|apply Z.eqb_refl].
    apply Hseen. rewrite <- Hid. now apply in_map.
  - intros [z [Hz Hid]]. apply Z.eqb_eq in Hid. subst z.
    apply Hseen in Hz. apply in_map_iff in Hz as [s [Hid Hs]].
    exists s. split; [assumption|]. unfold sameId. now apply Z.eqb_eq.
Qed.

Lemma filter_from_keepFirst (l pre : list Stock) (seen : list Z) :
  (forall z, In z seen <-> In z (map id pre)) ->
  filter_from isFirst (pre ++ l) l (Z.of_nat (List.length pre))
  = keepFirst seen l.
Proof.
  revert pre seen; induction l as [|x r IH]; intros pre seen Hseen; simpl.
  - reflexivity.
  - rewrite isFirst_at, (@existsb_sameId x pre seen Hseen).
    assert (Hstep : pre ++ x :: r = (pre ++ [x]) ++ r)
      by (rewrite <- app_assoc; reflexivity).
    assert (Hlen : (Z.of_nat (List.length pre) + 1)%Z
                   = Z.of_nat (List.length (pre ++ [x])))
      by (rewrite length_app; simpl; lia).
    rewrite Hstep, Hlen.
    destruct (existsb (Z.eqb (id x)) seen) eqn:E; simpl.
    + apply IH. intros z. rewrite map_app, in_app_iff. simpl.
      rewrite <- Hseen. split; [tauto|].
      intros [H|[H|[]]]; [assumption|]. subst z.
      apply existsb_exists in E as [z [Hz Hid]].
      apply Z.eqb_eq in Hid. now subst z.
    + f_equal. apply IH. intros z. rewrite map_app, in_app_iff. simpl.
      rewrite <- Hseen. tauto.
Qed.

(** The filter of the component is the one-pass walk of the spec. *)
Lemma dedupById_keepFirst (l : list Stock) : dedupById l = keepFirst [] l.
Proof.
  unfold dedupById, filter3. fold isFirst.
  apply (filter_from_keepFirst l [] []). simpl. tauto.
Qed.

Lemma seen_false (x : Stock) (seen : list Z) :
  existsb (Z.eqb (id x)) seen = false <-> ~ In (id x) seen.
Proof.
  rewrite <- not_true_iff_false, existsb_exists. split.
  - intros H Hin. apply H. exists (id x). split; [assumption|apply Z.eqb_refl].
  - intros H [z [Hz Hid]]. apply Z.eqb_eq in Hid. now subst z.
Qed.

Lemma keepFirst_length (l : list Stock) (seen : list Z) :
  List.length (keepFirst seen l) <= List.length l.
Proof.
  revert seen; induction l as [|x r IH]; intros seen; simpl; [lia|].
  destruct (existsb (Z.eqb (id x)) seen); simpl.
  - specialize (IH seen). lia.
  - specialize (IH (id x :: seen)). lia.
Qed.

Lemma keepFirst_In (l : list Stock) (seen : list Z) (s : Stock) :
  In s (keepFirst seen l) <->
  ~ In (id s) seen /\ firstWithId s l = Some s.
Proof.
  unfold firstWithId.
  revert seen; induction l as [|x r IH]; intros seen; simpl.
  - split; [tauto|]. intros [_ H]; discriminate.
  - destruct (existsb (Z.eqb (id x)) seen) eqn:E.
    + rewrite IH. destruct (Z.eqb_spec (id x) (id s)) as [Heq|Hne].
      * apply existsb_exists in E as [z [Hz Hid]].
        apply Z.eqb_eq in Hid. subst z. rewrite Heq in Hz. tauto.
      * tauto.
    + apply seen_false in E. simpl. rewrite IH. simpl.
      destruct (Z.eqb_spec (id x) (id s)) as [Heq|Hne].
      * split.
        -- intros [H|[H _]]; [subst s; tauto|]. exfalso; apply H; now left.
        -- intros [_ H]. left. congruence.
      * split.
        -- intros [H|[H1 H2]]; [subst s; now elim Hne|]. tauto.
        -- intros [H1 H2]. right. split; [|assumption].
           intros [H|H]; [now elim Hne|tauto].
Qed.

Lemma keepFirst_NoDup (l : list Stock) (seen : list Z) :
  NoDup (map id (keepFirst seen l)).
Proof.
  revert seen; induction l as [|x r IH]; intros seen; simpl.
  - constructor.
  - destruct (existsb (Z.eqb (id x)) seen); [apply IH|].
    simpl. constructor; [|apply IH].
    intros Hin. apply in_map_iff in Hin as [s [Hid Hs]].
    apply keepFirst_In in Hs as [Hs _]. apply Hs. rewrite Hid. now left.
Qed.

Lemma keepFirst_subseq (l : list Stock) (seen : list Z) :
  subseq (keepFirst seen l) l.
Proof.
  revert seen; induction l as [|x r IH]; intros seen; simpl.
  - constructor.
  - destruct (existsb (Z.eqb (id x)) seen); constructor; apply IH.
Qed.

Lemma firstWithId_exists (l : list Stock) (s : Stock) :
  In s l -> exists s', firstWithId s' l = Some s' /\ id s' = id s.
Proof.
  unfold firstWithId. induction l as [|x r IH]; simpl; [tauto|].
  intros Hin. destruct (Z.eqb_spec (id x) (id s)) as [Heq|Hne].
  - exists x. rewrite Z.eqb_refl. now split.
  - destruct Hin as [H|H]; [subst x; now elim Hne|].
    destruct (IH H) as [s' [Hf Hid]]. exists s'.
    destruct (Z.eqb_spec (id x) (id s')); [congruence|now split].
Qed.

Lemma keepFirst_fixed (l : list Stock) (seen : list Z) :
  NoDup (map id l) -> (forall s, In s l -> ~ In (id s) seen) ->
  keepFirst seen l = l.
Proof.
  revert seen; induction l as [|x r IH]; intros seen Hnd Hseen; simpl.
  - reflexivity.
  - inversion Hnd as [|? ? Hx Hr]; subst.
    assert (E : existsb (Z.eqb (id x)) seen = false)
      by (apply seen_false, Hseen; now left).
    rewrite E. f_equal. apply IH; [assumption|].
    intros s Hs [H|H].
    + apply Hx. rewrite H. now apply in_map.
    + apply (Hseen s); [now right|assumption].
Qed.

End SidebarFacts.

(** C1: the sidebar's list is the flattened stock list, in industry-then-stock
    order, with only the first record of every id kept: it is no longer than
    the input, no id occurs twice, every id of the input occurs, the records
    kept are exactly the first occurrences, and their order is that of the
    input; ids [1,2,1] give ids [1,2]. *)
Theorem uniqueStocks_first_occurrence (industries : list Industry) :
  let input := Sidebar.allStocks industries in
  let output := Sidebar.uniqueStocks industries in
  input = List.concat (map stocks industries)
  /\ output = Sidebar.keepFirst [] input
  /\ List.length output <= List.length input
  /\ NoDup (map id output)
  /\ (forall s, In s input -> In (id s) (map id output))
  /\ (forall s, In s output <-> Sidebar.firstWithId s input = Some s)
  /\ Sidebar.subseq output input
  /\ (forall a b c : Stock,
         id a = 1%Z -> id b = 2%Z -> id c = 1%Z ->
         Sidebar.dedupById [a; b; c] = [a; b]).
Proof.
  intros input output. unfold output, Sidebar.uniqueStocks. fold input.
  rewrite dedupById_keepFirst.
  split; [apply flat_map_concat_map|].
  split; [reflexivity|].
  split; [apply keepFirst_length|].
  split; [apply keepFirst_NoDup|].
  split.
  { intros s Hs. destruct (firstWithId_exists input s Hs) as [s' [Hf Hid]].
    rewrite <- Hid. apply in_map. apply keepFirst_In. split; [tauto|exact Hf]. }
  split.
  { intros s. rewrite keepFirst_In. simpl. tauto. }
  split; [apply keepFirst_subseq|].
  intros a b c Ha Hb Hc. rewrite dedupById_keepFirst. simpl.
  rewrite Ha, Hb, Hc. reflexivity.
Qed.

Lemma uniqueStocks_first_occurrence_witness :
  map id (Sidebar.allStocks sampleIndustries) = [1; 2; 1]%Z
  /\ map id (Sidebar.uniqueStocks sampleIndustries) = [1; 2]%Z
  /\ NoDup (map id (Sidebar.uniqueStocks sampleIndustries)).
Proof.
  split; [reflexivity|]. split; [reflexivity|].
  exact (proj1 (proj2 (proj2 (proj2
           (uniqueStocks_first_occurrence sampleIndustries))))).
Defined.

(** C5: deduplicating an already deduplicated stock list changes nothing. *)
Theorem dedupById_idempotent (l : list Stock) :
  Sidebar.dedupById (Sidebar.dedupById l) = Sidebar.dedupById l.
Proof.
  rewrite !dedupById_keepFirst.
  apply keepFirst_fixed; [apply keepFirst_NoDup|]. simpl. tauto.
Qed.

(** C8: empty collections render as nothing: the grid of zero industries is
    [null], and the sidebar is [null] whenever the deduplicated stock list
    has length zero (as it is for zero industries, and for industries that
    hold no stocks). *)
Theorem empty_collections_render_nothing :
  Grid.ImpactedIndustriesGrid [] = Grid.RenderNull
  /\ (forall industries,
         List.length (Sidebar.uniqueStocks industries) = 0 ->
         Sidebar.RecommendedStocksSidebar industries = Sidebar.RenderNull)
  /\ Sidebar.RecommendedStocksSidebar [] = Sidebar.RenderNull
  /\ (forall industries,
         (forall i, In i industries -> stocks i = []) ->
         Sidebar.RecommendedStocksSidebar industries = Sidebar.RenderNull).
Proof.
  split; [reflexivity|].
  assert (H0 : forall industries,
             List.length (Sidebar.uniqueStocks industries) = 0 ->
             Sidebar.RecommendedStocksSidebar industries = Sidebar.RenderNull).
  { intros industries H. unfold Sidebar.RecommendedStocksSidebar.
    now rewrite H. }
  split; [exact H0|]. split; [reflexivity|].
  intros industries Hall. apply H0.
  unfold Sidebar.uniqueStocks, Sidebar.allStocks.
  replace (flat_map stocks industries) with (@nil Stock); [reflexivity|].
  symmetry. induction industries as [|i r IH]; simpl; [reflexivity|].
  rewrite (Hall i) by now left. simpl. apply IH.
  intros j Hj. apply Hall. now right.
Qed.

Lemma empty_collections_render_nothing_witness :
  Sidebar.RecommendedStocksSidebar
    [sampleIndustry 1 "반도체" []; sampleIndustry 2 "금융" []]
  = Sidebar.RenderNull.
Proof.
  apply (proj1 (proj2 empty_collections_render_nothing)). reflexivity.
Defined.

(** ** Calendar arithmetic, parsing and formatting of dates *)

Section CalendarFacts.

Import Written.
Local Open Scope Z_scope.

Lemma DaysInYear_cases (y : Z) :
  DaysInYear y = 365 \/ DaysInYear y = 366.
Proof.
  unfold DaysInYear.
  destruct (y mod 4 =? 0), (y mod 100 =? 0), (y mod 400 =? 0); simpl; auto.
Qed.

Lemma DayFromYear_next (y : Z) :
  DayFromYear (y + 1) = DayFromYear y + DaysInYear y.
Proof.
  unfold DayFromYear, DaysInYear.
  destruct (Z.eqb_spec (y mod 4) 0), (Z.eqb_spec (y mod 100) 0),
    (Z.eqb_spec (y mod 400) 0); cbn [negb];
    Z.div_mod_to_equations; lia.
Qed.

Lemma YearFromDay_unique (y d : Z) :
  DayFromYear y <= d < DayFromYear (y + 1) -> YearFromDay d = y.
Proof.
  intros H. unfold YearFromDay.
  destruct (Z.leb_spec (DayFromYear (1970 + d * 400 / 146097 + 1)) d) as [H1|H1];
  [|destruct (Z.leb_spec (DayFromYear (1970 + d * 400 / 146097)) d) as [H2|H2]];
  unfold DayFromYear in *; Z.div_mod_to_equations; lia.
Qed.

(** [YearFromDay] finds the year of every day number. *)
Lemma YearFromDay_spec (d : Z) :
  DayFromYear (YearFromDay d) <= d < DayFromYear (YearFromDay d + 1).
Proof.
  unfold YearFromDay.
  destruct (Z.leb_spec (DayFromYear (1970 + d * 400 / 146097 + 1)) d);
  [|destruct (Z.leb_spec (DayFromYear (1970 + d * 400 / 146097)) d)];
  unfold DayFromYear in *; Z.div_mod_to_equations; lia.
Qed.

Lemma Day_MakeDate (day time : Z) :
  0 <= time < msPerDay -> Day (MakeDate day time) = day.
Proof.
  intros H. unfold Day, MakeDate, msPerDay in *.
  Z.div_mod_to_equations; lia.
Qed.

Ltac twelve_months m :=
  let Hc := fresh "Hc" in
  assert (Hc : m = 1 \/ m = 2 \/ m = 3 \/ m = 4 \/ m = 5 \/ m = 6 \/ m = 7
               \/ m = 8 \/ m = 9 \/ m = 10 \/ m = 11 \/ m = 12) by lia;
  destruct Hc as [->|[->|[->|[->|[->|[->|[->|[->|[->|[->|[->| ->]]]]]]]]]]].

Ltac literal_month :=
  repeat match goal with
  | |- context [Z.sub (Zpos ?p) 1] =>
    let v := eval compute in (Z.sub (Zpos p) 1) in
    change (Z.sub (Zpos p) 1) with v
  end;
  cbn [monthStart Z.eqb Pos.eqb orb] in *.

Lemma monthStart_bounds (y m d : Z) :
  1 <= m <= 12 -> 1 <= d <= daysInMonth y m ->
  0 <= monthStart (m - 1) (leapFlag y) + d - 1 < DaysInYear y.
Proof.
  intros Hm Hd. unfold daysInMonth, leapFlag in *.
  destruct (DaysInYear_cases y) as [E|E]; rewrite E in *;
  twelve_months m; literal_month; lia.
Qed.

Lemma calendar_roundtrip (y m d time : Z) :
  1 <= m <= 12 -> 1 <= d <= daysInMonth y m -> 0 <= time < msPerDay ->
  let t := MakeDate (MakeDay y (m - 1) d) time in
  YearFromTime t = y /\ MonthFromTime t = m - 1 /\ DateFromTime t = d.
Proof.
  intros Hm Hd Ht t.
  assert (Hday : Day t = DayFromYear y + (monthStart (m - 1) (leapFlag y) + d - 1)).
  { unfold t. rewrite Day_MakeDate by assumption. unfold MakeDay.
    replace ((m - 1) / 12) with 0 by (Z.div_mod_to_equations; lia).
    replace ((m - 1) mod 12) with (m - 1) by (Z.div_mod_to_equations; lia).
    rewrite Z.add_0_r. fold (leapFlag y). lia. }
  pose proof (@monthStart_bounds y m d Hm Hd) as Hb.
  assert (Hy : YearFromTime t = y).
  { unfold YearFromTime. apply YearFromDay_unique.
    rewrite DayFromYear_next, Hday. lia. }
  assert (Hw : DayWithinYear t = monthStart (m - 1) (leapFlag y) + d - 1).
  { unfold DayWithinYear. rewrite Hy, Hday. lia. }
  assert (HL : InLeapYear t = leapFlag y).
  { unfold InLeapYear, leapFlag. now rewrite Hy. }
  split; [exact Hy|].
  unfold DateFromTime, MonthFromTime. rewrite Hw, HL.
  clear Hday Hy Hw HL Hb t Ht.
  unfold daysInMonth, leapFlag in *.
  destruct (DaysInYear_cases y) as [E|E]; rewrite E in *;
  twelve_months m; literal_month;
  repeat match goal with
         | |- context [?a <? ?b] => destruct (Z.ltb_spec a b); try lia
         end; split; lia.
Qed.

End CalendarFacts.

Section ParseFacts.

Import Written.
Local Open Scope Z_scope.

Lemma digit_digitUnit (d : Z) : 0 <= d <= 9 -> digit (digitUnit d) = Some d.
Proof.
  intros H. unfold digit, digitUnit.
  destruct (N.leb_spec 48 (Z.to_N (48 + d))); [|lia].
  destruct (N.leb_spec (Z.to_N (48 + d)) 57); [|lia].
  cbn [andb]. f_equal. lia.
Qed.

Lemma expect_hit (c : unit) (r : jsstring) : expect c (c :: r) = Some r.
Proof. unfold expect. now rewrite N.eqb_refl. Qed.

Lemma expect_digit (c : unit) (d : Z) (r : jsstring) :
  0 <= d <= 9 -> (c < 48)%N \/ (57 < c)%N ->
  expect c (digitUnit d :: r) = None.
Proof.
  intros Hd Hc. unfold expect, digitUnit.
  destruct (N.eqb_spec (Z.to_N (48 + d)) c); [lia|reflexivity].
Qed.

Lemma digitsN_step (n : nat) (acc d : Z) (r : jsstring) :
  0 <= d <= 9 ->
  digitsN (S n) acc (digitUnit d :: r) = digitsN n (10 * acc + d) r.
Proof. intros H. cbn [digitsN]. now rewrite digit_digitUnit. Qed.

Lemma digitsN_two (n : Z) (r : jsstring) :
  0 <= n <= 99 -> digitsN 2 0 (two n ++ r) = Some (n, r).
Proof.
  intros H. unfold two. cbn [app].
  rewrite !digitsN_step by (Z.div_mod_to_equations; lia).
  cbn [digitsN]. do 2 f_equal. Z.div_mod_to_equations; lia.
Qed.

Lemma digitsN_four (n : Z) (r : jsstring) :
  0 <= n <= 9999 -> digitsN 4 0 (four n ++ r) = Some (n, r).
Proof.
  intros H. unfold four. cbn [app].
  rewrite !digitsN_step by (Z.div_mod_to_equations; lia).
  cbn [digitsN]. do 2 f_equal. Z.div_mod_to_equations; lia.
Qed.

Lemma parseYear_four (y : Z) (r : jsstring) :
  0 <= y <= 9999 -> parseYear (four y ++ r) = Some (y, r).
Proof.
  intros H. unfold parseYear.
  assert (E : forall c, (c < 48)%N -> expect c (four y ++ r) = None).
  { intros c Hc. unfold four. cbn [app]. apply expect_digit; [|now left].
    Z.div_mod_to_equations; lia. }
  rewrite !E by reflexivity. now apply digitsN_four.
Qed.

Lemma parseDashed_two (default n : Z) (r : jsstring) :
  0 <= n <= 99 ->
  parseDashed default (45%N :: two n ++ r) = Some (true, n, r).
Proof.
  intros H. unfold parseDashed. rewrite expect_hit.
  now rewrite digitsN_two.
Qed.

Lemma parseOffset_two (negative : bool) (hh mm : Z) :
  0 <= hh <= 23 -> 0 <= mm <= 59 ->
  parseOffset negative (two hh ++ 58%N :: two mm)
  = Some (Offset (if negative then - (hh * 60 + mm) else hh * 60 + mm), []).
Proof.
  intros Hh Hm. unfold parseOffset.
  rewrite digitsN_two by lia. rewrite expect_hit.
  rewrite <- (app_nil_r (two mm)), digitsN_two by lia.
  destruct (Z.leb_spec hh 23); [|lia]. destruct (Z.leb_spec mm 59); [|lia].
  reflexivity.
Qed.

Lemma parseZone_designator (z : designator) :
  designatorOk z -> parseZone (designatorString z) = Some (zoneOf z, []).
Proof.
  destruct z as [| |hh mm|hh mm]; cbn [designatorString designatorOk app];
    intros H; try reflexivity.
  - unfold parseZone. cbn [expect N.eqb Pos.eqb].
    rewrite (@parseOffset_two false hh mm) by tauto. reflexivity.
  - unfold parseZone. cbn [expect N.eqb Pos.eqb].
    rewrite (@parseOffset_two true hh mm) by tauto. reflexivity.
Qed.

Lemma expect_dot_designator (z : designator) :
  expect 46%N (designatorString z) = None.
Proof. destruct z; reflexivity. Qed.

Lemma parseTime_clock (c : clock) :
  clockOk c ->
  parseTime (two (c_hour c) ++ 58%N :: two (c_minute c) ++ 58%N
             :: two (c_second c) ++ designatorString (c_zone c))
  = Some (c_hour c, c_minute c, c_second c, 0, zoneOf (c_zone c), []).
Proof.
  intros (Hh & Hm & Hs & Hz). unfold parseTime.
  rewrite digitsN_two by lia. rewrite expect_hit.
  rewrite digitsN_two by lia. unfold parseSeconds.
  rewrite expect_hit. rewrite digitsN_two by lia.
  rewrite expect_dot_designator, parseZone_designator by assumption.
  reflexivity.
Qed.

Lemma parseFields_isoString (w : written) :
  wellFormed w ->
  parseFields (isoString w)
  = Some match w_clock w with
         | None => mkIso (w_year w) (w_month w) (w_day w) false 0 0 0 0 NoZone
         | Some c => mkIso (w_year w) (w_month w) (w_day w) true (c_hour c)
                           (c_minute c) (c_second c) 0 (zoneOf (c_zone c))
         end.
Proof.
  intros (Hy & Hm & Hd & Hc). unfold parseFields, isoString.
  assert (Hd' : 0 <= w_day w <= 99).
  { unfold daysInMonth in Hd.
    destruct (w_month w =? 2), (DaysInYear (w_year w) =? 366),
      ((w_month w =? 4) || (w_month w =? 6) || (w_month w =? 9)
       || (w_month w =? 11)); lia. }
  cbn [app].
  rewrite parseYear_four by lia.
  rewrite parseDashed_two by lia. rewrite parseDashed_two by lia.
  destruct (w_clock w) as [c|].
  - cbn [app]. rewrite expect_hit.
    rewrite parseTime_clock by assumption. reflexivity.
  - reflexivity.
Qed.

End ParseFacts.

Section FormatFacts.

Import Written Card.
Local Open Scope Z_scope.

Lemma decimal_one (fuel : nat) (n : Z) (acc : jsstring) :
  0 <= n <= 9 -> decimal fuel n acc = digitUnit n :: acc.
Proof.
  intros H. replace (digitUnit n) with (digitUnit (n mod 10))
    by (f_equal; Z.div_mod_to_equations; lia).
  destruct fuel as [|f]; cbn [decimal]; [reflexivity|].
  destruct (Z.ltb_spec n 10); [reflexivity|lia].
Qed.

Lemma decimal_more (fuel : nat) (n : Z) (acc : jsstring) :
  10 <= n ->
  decimal (S fuel) n acc = decimal fuel (n / 10) (digitUnit (n mod 10) :: acc).
Proof.
  intros H. cbn [decimal]. destruct (Z.ltb_spec n 10); [lia|reflexivity].
Qed.

(** The fuel that [NumberToString] hands to [decimal] never runs out: more
    fuel gives the same digits. *)
Lemma decimal_fuel_enough (f g : nat) (n : Z) (acc : jsstring) :
  0 <= n < 2 ^ (Z.of_nat f + 1) -> (f <= g)%nat ->
  decimal g n acc = decimal f n acc.
Proof.
  revert g n acc; induction f as [|f IH]; intros g n acc Hn Hg.
  - change (2 ^ (Z.of_nat 0 + 1)) with 2 in Hn.
    rewrite !decimal_one by lia. reflexivity.
  - destruct g as [|g]; [lia|].
    destruct (Z.ltb_spec n 10) as [Hlt|Hge].
    + rewrite !decimal_one by lia. reflexivity.
    + rewrite !decimal_more by lia. apply IH; [|lia].
      replace (Z.of_nat (S f) + 1) with (Z.succ (Z.of_nat f + 1)) in Hn by lia.
      rewrite Z.pow_succ_r in Hn by lia.
      Z.div_mod_to_equations; lia.
Qed.

Lemma NumberToString_fuel (z : Z) (g : nat) :
  0 <= z -> (Z.to_nat (Z.log2 z) <= g)%nat ->
  decimal g z [] = NumberToString (Some z).
Proof.
  intros Hz Hg. unfold NumberToString.
  destruct (Z.ltb_spec z 0); [lia|].
  apply decimal_fuel_enough; [|exact Hg].
  pose proof (Z.log2_nonneg z).
  rewrite Z2Nat.id by assumption.
  destruct (Z.eq_dec z 0) as [->|Hne]; [vm_compute; split; [discriminate|reflexivity]|].
  replace (Z.log2 z + 1) with (Z.succ (Z.log2 z)) by lia.
  pose proof (Z.log2_spec z). lia.
Qed.

Lemma log2_fuel (k n : Z) :
  0 < k -> k <= n -> exists f, Z.to_nat (Z.log2 n) = (Z.to_nat (Z.log2 k) + f)%nat.
Proof.
  intros Hk Hn. pose proof (Z.log2_le_mono k n Hn).
  pose proof (Z.log2_nonneg k).
  exists (Z.to_nat (Z.log2 n - Z.log2 k)). lia.
Qed.

Lemma NumberToString_four (y : Z) :
  1000 <= y <= 9999 -> NumberToString (Some y) = four y.
Proof.
  intros H. unfold NumberToString.
  destruct (Z.ltb_spec y 0); [lia|].
  destruct (@log2_fuel 1000 y) as [f Hf]; [lia|lia|].
  rewrite Hf. change (Z.to_nat (Z.log2 1000)) with 9%nat. cbn [Nat.add].
  rewrite !decimal_more by (Z.div_mod_to_equations; lia).
  rewrite decimal_one by (Z.div_mod_to_equations; lia).
  replace (y / 10 / 10 / 10) with (y / 1000) by (Z.div_mod_to_equations; lia).
  replace (y / 10 / 10) with (y / 100) by (Z.div_mod_to_equations; lia).
  reflexivity.
Qed.

Lemma padStart_two (n : Z) :
  0 <= n <= 99 -> padStart (NumberToString (Some n)) 2 48%N = two n.
Proof.
  intros H. unfold NumberToString.
  destruct (Z.ltb_spec n 0); [lia|].
  destruct (Z.ltb_spec n 10).
  - rewrite decimal_one by lia. unfold padStart, two. cbn.
    replace (n / 10) with 0 by (Z.div_mod_to_equations; lia).
    replace (n mod 10) with n by (Z.div_mod_to_equations; lia).
    reflexivity.
  - destruct (@log2_fuel 10 n) as [f Hf]; [lia|lia|].
    rewrite Hf. change (Z.to_nat (Z.log2 10)) with 3%nat. cbn [Nat.add].
    rewrite decimal_more by lia.
    rewrite decimal_one by (Z.div_mod_to_equations; lia).
    reflexivity.
Qed.

Lemma DayFromYear_range (y : Z) :
  0 <= y <= 9999 -> -720000 <= DayFromYear y <= 2940000.
Proof. intros H. unfold DayFromYear. Z.div_mod_to_equations; lia. Qed.

Lemma zoneOffset_zoneOf (host : Host) (w : written) (c : clock) :
  w_clock w = Some c ->
  match zoneOf (c_zone c) with
  | Offset m => m * 60000 = zoneOffset host w
  | NoZone => LocalTZA host (stamp w) false = zoneOffset host w
  end.
Proof.
  intros E. unfold zoneOffset. rewrite E.
  destruct (c_zone c); cbn [zoneOf]; lia.
Qed.

Lemma wellFormed_day31 (w : written) : wellFormed w -> w_day w <= 31.
Proof.
  intros (_ & _ & Hd & _). unfold daysInMonth in Hd.
  destruct (w_month w =? 2), (DaysInYear (w_year w) =? 366),
    ((w_month w =? 4) || (w_month w =? 6) || (w_month w =? 9)
     || (w_month w =? 11)); lia.
Qed.

Lemma MakeDay_wellFormed (w : written) :
  wellFormed w ->
  -720000 <= MakeDay (w_year w) (w_month w - 1) (w_day w) <= 2940366.
Proof.
  intros Hw. pose proof Hw as (Hy & Hm & Hd & _).
  pose proof (@monthStart_bounds (w_year w) (w_month w) (w_day w) Hm Hd) as Hb.
  pose proof (DaysInYear_cases (w_year w)) as Hdy.
  pose proof (@DayFromYear_range (w_year w)) as Hr.
  unfold MakeDay.
  replace ((w_month w - 1) / 12) with 0 by (Z.div_mod_to_equations; lia).
  replace ((w_month w - 1) mod 12) with (w_month w - 1)
    by (Z.div_mod_to_equations; lia).
  rewrite Z.add_0_r. fold (leapFlag (w_year w)). lia.
Qed.

(** The fields that the reader takes from a written date or date-time. *)
Lemma instantOf_isoString (host : Host) (w : written) :
  wellFormed w ->
  exists f, parseFields (isoString w) = Some f
            /\ legalFields f = true
            /\ instantOf host f = instant host w.
Proof.
  intros Hw. rewrite parseFields_isoString by assumption.
  pose proof Hw as (Hy & Hm & Hd & Hc).
  pose proof (wellFormed_day31 Hw) as Hd31.
  unfold instant, stamp, zoneOffset, stamp, timeOfDay.
  destruct (w_clock w) as [c|] eqn:Ec.
  - destruct Hc as (Hh & Hmi & Hs & Hzone).
    eexists. split; [reflexivity|]. split.
    + unfold legalFields. cbn [iso_month iso_day iso_minute iso_second
                                 iso_hour iso_ms].
      repeat match goal with
             | |- context [?a <=? ?b] => destruct (Z.leb_spec a b); try lia
             end; reflexivity.
    + unfold instantOf, UTC.
      cbn [iso_year iso_month iso_day iso_hour iso_minute
           iso_second iso_ms iso_zone iso_timed].
      destruct (c_zone c); cbn [zoneOf]; lia.
  - eexists. split; [reflexivity|]. split.
    + unfold legalFields. cbn [iso_month iso_day iso_minute iso_second
                                 iso_hour iso_ms].
      repeat match goal with
             | |- context [?a <=? ?b] => destruct (Z.leb_spec a b); try lia
             end; reflexivity.
    + unfold instantOf.
      cbn [iso_year iso_month iso_day iso_hour iso_minute
           iso_second iso_ms iso_zone iso_timed].
      unfold MakeDate, MakeTime. lia.
Qed.

(** The date printed for a valid Date is the calendar date of its instant on
    the wall clock of the host. *)
Lemma formatDate_of_instant (host : Host) (s : jsstring) (t : Z)
      (w' : written) :
  Date_parse host s = Some t -> wellFormed w' ->
  dayStart w' <= LocalTime host t < dayStart w' + msPerDay ->
  formatDate host s = writtenDate w'.
Proof.
  intros Hp Hw' Hs. unfold formatDate, Date_new. rewrite Hp.
  pose proof (wellFormed_day31 Hw') as Hd31.
  destruct Hw' as (Hy & Hm & Hd & _).
  unfold getFullYear, getMonth, getDate.
  unfold dayStart in Hs.
  set (l := LocalTime host t) in *.
  set (day := MakeDay (w_year w') (w_month w' - 1) (w_day w')) in *.
  assert (Ht : l = MakeDate day (l - MakeDate day 0))
    by (unfold MakeDate; lia).
  assert (Hr : 0 <= l - MakeDate day 0 < msPerDay) by lia.
  rewrite Ht.
  destruct (@calendar_roundtrip (w_year w') (w_month w') (w_day w')
              (l - MakeDate day 0) Hm Hd Hr) as (Ey & Em & Ed).
  fold day in Ey, Em, Ed. rewrite Ey, Em, Ed. cbn [plus].
  replace (w_month w' - 1 + 1) with (w_month w') by lia.
  rewrite NumberToString_four by lia.
  rewrite !padStart_two by lia.
  reflexivity.
Qed.

Lemma formatDate_fields (host : Host) (s : jsstring) (f : isoFields)
      (w' : written) :
  zoneInRange host ->
  parseFields s = Some f -> legalFields f = true ->
  wellFormed w' ->
  dayStart w' <= LocalTime host (instantOf host f) < dayStart w' + msPerDay ->
  formatDate host s = writtenDate w'.
Proof.
  intros Hz Hp Hl Hw' Hs.
  apply (@formatDate_of_instant host s (instantOf host f) w');
    [|assumption|assumption].
  unfold Date_parse. rewrite Hp, Hl. unfold TimeClip.
  pose proof (MakeDay_wellFormed Hw') as Hday.
  pose proof (Hz (instantOf host f) true) as Hoff.
  unfold LocalTime, dayStart, MakeDate, msPerDay in *.
  destruct (Z.leb_spec (Z.abs (instantOf host f)) 8640000000000000);
    [reflexivity|lia].
Qed.

Lemma Date_parse_isoString (host : Host) (w : written) :
  zoneInRange host -> wellFormed w ->
  Date_parse host (isoString w)
  = Some (MakeDate (MakeDay (w_year w) (w_month w - 1) (w_day w)) (timeOfDay w)
          - zoneOffset host w).
Proof.
  intros Hz Hw.
  destruct (@instantOf_isoString host w Hw) as (f & Hp & Hl & Hi).
  unfold Date_parse. rewrite Hp, Hl, Hi. unfold TimeClip.
  fold (stamp w). fold (instant host w).
  assert (Hclip : Z.abs (instant host w) <= 8640000000000000).
  { pose proof (MakeDay_wellFormed Hw) as Hday.
    pose proof Hw as (_ & _ & _ & Hc).
    unfold instant, stamp, zoneOffset, timeOfDay.
    destruct (w_clock w) as [c|] eqn:Ec.
    - destruct Hc as (Hh & Hmi & Hs & Hzone).
      unfold MakeDate, MakeTime.
      destruct (c_zone c) as [| |hh mm|hh mm]; cbn [designatorOk] in Hzone;
        try match goal with
            | |- context [LocalTZA host ?x ?b] => pose proof (Hz x b)
            end;
        unfold msPerDay in *; lia.
    - unfold MakeDate, msPerDay. lia. }
  destruct (Z.leb_spec (Z.abs (instant host w)) 8640000000000000);
    [reflexivity|lia].
Qed.

Lemma formatDate_onLocalDay (host : Host) (w w' : written) :
  zoneInRange host -> wellFormed w -> wellFormed w' ->
  onLocalDay host w w' ->
  formatDate host (isoString w) = writtenDate w'.
Proof.
  intros Hz Hw Hw' Hs.
  destruct (@instantOf_isoString host w Hw) as (f & Hp & Hl & Hi).
  apply (@formatDate_fields host (isoString w) f w'); try assumption.
  rewrite Hi. exact Hs.
Qed.

Lemma sameLocalDay_onLocalDay (host : Host) (w : written) :
  sameLocalDay host w -> onLocalDay host w w.
Proof.
  unfold sameLocalDay, onLocalDay, localInstant, dayStart.
  generalize (LocalTZA host (instant host w) true). intros o.
  unfold instant, stamp, MakeDate. lia.
Qed.

Lemma formatDate_isoString (host : Host) (w : written) :
  zoneInRange host -> wellFormed w -> sameLocalDay host w ->
  formatDate host (isoString w) = writtenDate w.
Proof.
  intros Hz Hw Hs. apply formatDate_onLocalDay; try assumption.
  now apply sameLocalDay_onLocalDay.
Qed.

End FormatFacts.

(** C2 (amended): for every string in the date-time string format with legal
    field values, the formatter prints the calendar date that the instant
    named by the string has on the wall clock of the host, at the offset in
    force at that instant, when the year of that date shows four digits.
    For a well-formed date or date-time with a four-digit year it is the
    date written in the string whenever moving the written time of day from
    the string's zone into the host's zone crosses no midnight; the spec's
    example, in each layout of its time part, holds on every host whose
    offset at that instant lies from -08:00 up to, not including, +16:00. *)
Theorem formatDate_local_calendar_date (host : Host) :
  Written.zoneInRange host ->
  (forall (s : jsstring) (f : isoFields) (w' : Written.written),
      parseFields s = Some f -> legalFields f = true ->
      Written.wellFormed w' ->
      (Written.dayStart w' <= Card.LocalTime host (Card.instantOf host f)
       < Written.dayStart w' + msPerDay)%Z ->
      Card.formatDate host s = Written.writtenDate w')
  /\ (forall w w' : Written.written,
         Written.wellFormed w -> Written.wellFormed w' ->
         Written.onLocalDay host w w' ->
         Card.formatDate host (Written.isoString w) = Written.writtenDate w')
  /\ (forall w : Written.written,
         Written.wellFormed w -> Written.sameLocalDay host w ->
         Card.formatDate host (Written.isoString w) = Written.writtenDate w)
  /\ ((-28800000 <= LocalTZA host 1705305600000 true < 57600000)%Z ->
      Card.formatDate host (utf16 "2024-01-15T08:00:00Z")
      = utf16 "2024.01.15"
      /\ Card.formatDate host (utf16 "2024-01-15T08:00:00.000Z")
         = utf16 "2024.01.15"
      /\ Card.formatDate host (utf16 "2024-01-15T08:00Z")
         = utf16 "2024.01.15"
      /\ Card.formatDate host (utf16 "2024-01-15T17:00:00+09:00")
         = utf16 "2024.01.15").
Proof.
  intros Hz. split; [|split; [|split]].
  - intros s f w' Hp Hl Hw' Hs. now apply (@formatDate_fields host s f w').
  - intros w w' Hw Hw' Hs. now apply formatDate_onLocalDay.
  - intros w Hw Hs. now apply formatDate_isoString.
  - intros Hr.
    assert (Hw : Written.wellFormed (Written.mkWritten 2024 1 15 None))
      by (unfold Written.wellFormed; cbn; lia).
    change (utf16 "2024.01.15")
      with (Written.writtenDate (Written.mkWritten 2024 1 15 None)).
    repeat split;
      (eapply formatDate_fields;
       [exact Hz|vm_compute; reflexivity|reflexivity|exact Hw|];
       unfold Card.LocalTime;
       change (Card.instantOf host _) with 1705305600000%Z;
       change (Written.dayStart _) with 1705276800000%Z;
       unfold msPerDay; lia).
Qed.

Lemma formatDate_local_calendar_date_witness :
  Card.formatDate seoul (utf16 "2024-01-15T08:00:00Z") = utf16 "2024.01.15"
  /\ Card.formatDate seoul (utf16 "2024-01-15") = utf16 "2024.01.15"
  /\ Card.formatDate seoul (utf16 "2024-02-29T20:00:00Z")
     = utf16 "2024.03.01"
  /\ Card.formatDate apia (utf16 "2011-12-30T09:59:59.999Z")
     = utf16 "2011.12.29".
Proof.
  assert (Hz : Written.zoneInRange seoul)
    by (intros t b; vm_compute; split; reflexivity).
  destruct (formatDate_local_calendar_date Hz) as (_ & Hany & Hsame & Hex).
  split; [|split; [|split]].
  - apply Hex. vm_compute. split; [intros H; discriminate H|reflexivity].
  - apply (Hsame (Written.mkWritten 2024 1 15 None)).
    + unfold Written.wellFormed; cbn. lia.
    + vm_compute. split; [intros H; discriminate H|reflexivity].
  - apply (Hany (Written.mkWritten 2024 2 29
                   (Some (Written.mkClock 20 0 0 Written.Zulu)))
                (Written.mkWritten 2024 3 1 None)).
    + unfold Written.wellFormed, Written.clockOk; cbn. lia.
    + unfold Written.wellFormed; cbn. lia.
    + unfold Written.onLocalDay; vm_compute.
      split; [intros H; discriminate H|reflexivity].
  - assert (Ha : Written.zoneInRange apia).
    { intros t b. unfold msPerDay. cbn [LocalTZA apia].
      destruct b, (t <? 1325239200000)%Z, (t <? 1325289600000)%Z; lia. }
    apply (proj1 (formatDate_local_calendar_date Ha)
             (utf16 "2011-12-30T09:59:59.999Z")
             (mkIso 2011 12 30 true 9 59 59 999 (Offset 0))
             (Written.mkWritten 2011 12 29 None)).
    + vm_compute; reflexivity.
    + reflexivity.
    + unfold Written.wellFormed; cbn. lia.
    + vm_compute. split; [intros H; discriminate H|reflexivity].
Defined.

(** C2 as stated fails: the date printed is not always the one written.  In
    Seoul an evening instant given in UTC prints as the next day; in New York
    a date-only string prints as the day before; in Honolulu so does the
    spec's own example; and a year below 1000 prints without its leading
    zeros. *)
Lemma formatDate_reinterprets_in_local_zone :
  Card.formatDate seoul (utf16 "2024-01-15T20:00:00Z") = utf16 "2024.01.16"
  /\ Card.formatDate newYork (utf16 "2024-01-15") = utf16 "2024.01.14"
  /\ Card.formatDate honolulu (utf16 "2024-01-15T08:00:00Z")
     = utf16 "2024.01.14"
  /\ Card.formatDate honolulu (utf16 "2024-01-15T08:00:00Z")
     <> utf16 "2024.01.15"
  /\ Card.formatDate utcHost (utf16 "0099-03-01") = utf16 "99.03.01".
Proof.
  repeat split; try (vm_compute; reflexivity).
  vm_compute. discriminate.
Qed.

(** ** Tag stripping *)

Section StripFacts.

Import Card.

Lemma runWithoutGt_split (s : jsstring) :
  exists body,
    s = body ++ snd (runWithoutGt s)
    /\ fst (runWithoutGt s) = List.length body
    /\ existsb isGt body = false
    /\ match snd (runWithoutGt s) with
       | [] => True
       | g :: _ => g = 62%N
       end.
Proof.
  induction s as [|c r IH]; cbn [runWithoutGt].
  - exists []. repeat split.
  - destruct (N.eqb_spec c 62) as [E|E].
    + exists []. repeat split. exact E.
    + destruct IH as (body & Hs & Hn & Hb & Hg).
      destruct (runWithoutGt r) as [n rest]. cbn [fst snd] in *.
      exists (c :: body). cbn [app List.length existsb]. repeat split.
      * now rewrite <- Hs.
      * now rewrite Hn.
      * rewrite Hb. unfold isGt.
        destruct (N.eqb_spec 62 c); [now elim E|reflexivity].
      * exact Hg.
Qed.

Lemma replaceTags_from_skip (pre t : jsstring) (k : nat) :
  replaceTags_from (List.length pre + k) (pre ++ t) = replaceTags_from k t.
Proof. induction pre as [|c r IH]; [reflexivity|exact IH]. Qed.

Lemma dropTags_close (body r : jsstring) :
  existsb isGt body = false ->
  dropTags true (body ++ 62%N :: r) = dropTags false r.
Proof.
  induction body as [|c b IH]; cbn [app dropTags existsb]; intros H.
  - reflexivity.
  - apply orb_false_iff in H as [Hc Hb]. unfold isGt in Hc.
    rewrite N.eqb_sym in Hc. rewrite Hc. now apply IH.
Qed.

Lemma existsb_isGt_app (body r : jsstring) :
  existsb isGt (body ++ 62%N :: r) = true.
Proof.
  rewrite existsb_app. cbn [existsb]. unfold isGt at 2.
  rewrite N.eqb_refl. apply orb_true_iff. right. reflexivity.
Qed.

(** What [matchTag] answers, by cases on the input. *)
Lemma matchTag_cases (c : unit) (r : jsstring) :
  (c = 60%N /\ exists body r',
      r = body ++ 62%N :: r' /\ existsb isGt body = false
      /\ matchTag (c :: r) = Some (S (S (List.length body))))
  \/ (matchTag (c :: r) = None
      /\ ((c =? 60)%N && existsb isGt r = false)).
Proof.
  unfold matchTag. destruct (N.eqb_spec c 60) as [E|E]; [|right; now split].
  destruct (runWithoutGt_split r) as (body & Hs & Hn & Hb & Hg).
  destruct (runWithoutGt r) as [n rest]. cbn [fst snd] in *.
  destruct rest as [|g r'].
  - right. split; [reflexivity|]. rewrite app_nil_r in Hs. subst r.
    now rewrite Hb.
  - left. subst g. rewrite N.eqb_refl. split; [exact E|].
    exists body, r'. repeat split; [exact Hs|exact Hb|now rewrite Hn].
Qed.

Lemma replaceTags_from_dropTags (n : nat) (s : jsstring) :
  List.length s <= n -> replaceTags_from 0 s = dropTags false s.
Proof.
  revert s; induction n as [|n IH]; intros s Hlen.
  - destruct s; [reflexivity|simpl in Hlen; lia].
  - destruct s as [|c r]; [reflexivity|]. cbn [List.length] in Hlen.
    cbn [replaceTags_from dropTags]. fold (matchTag (c :: r)).
    destruct (matchTag_cases c r)
      as [(Ec & body & r' & Hr & Hb & Hm)|(Hm & Hd)].
    + rewrite Hm. subst c r. cbn [pred].
      rewrite existsb_isGt_app. cbn [N.eqb Pos.eqb andb].
      rewrite dropTags_close by assumption.
      replace (body ++ 62%N :: r') with ((body ++ [62%N]) ++ r')
        by (rewrite <- app_assoc; reflexivity).
      replace (S (List.length body)) with (List.length (body ++ [62%N]) + 0)
        by (rewrite length_app; simpl; lia).
      rewrite replaceTags_from_skip. apply IH.
      rewrite length_app in Hlen. simpl in Hlen.
      lia.
    + rewrite Hm. unfold isGt in Hd. rewrite Hd. f_equal. apply IH. lia.
Qed.

Lemma replaceTags_dropTags (s : jsstring) :
  replaceTags s = dropTags false s.
Proof. apply (@replaceTags_from_dropTags (List.length s)). lia. Qed.

Lemma dropTags_units (s : jsstring) (b : bool) (c : unit) :
  In c (dropTags b s) -> In c s.
Proof.
  revert b; induction s as [|x r IH]; intros b; cbn [dropTags]; [tauto|].
  destruct b.
  - destruct (x =? 62)%N; intros H; right; eapply IH; exact H.
  - destruct ((x =? 60)%N && existsb (N.eqb 62) r).
    + intros H; right; eapply IH; exact H.
    + intros [H|H]; [now left|right; eapply IH; exact H].
Qed.

(** In the output nothing that could close a tag follows a [<]. *)
Lemma dropTags_no_tag (s : jsstring) (b : bool) (pre t : jsstring) :
  dropTags b s = pre ++ 60%N :: t -> existsb isGt t = false.
Proof.
  revert b pre; induction s as [|x r IH]; intros b pre; cbn [dropTags].
  - destruct pre; discriminate.
  - destruct b.
    + destruct (x =? 62)%N; apply IH.
    + destruct ((x =? 60)%N && existsb (N.eqb 62) r) eqn:E; [apply IH|].
      destruct pre as [|p pre]; cbn [app]; intros H.
      * injection H as Hx Ht. subst x. cbn [N.eqb Pos.eqb andb] in E.
        destruct (existsb isGt t) eqn:Et; [|reflexivity].
        apply existsb_exists in Et as [g [Hg Hg62]].
        rewrite <- Ht in Hg. apply dropTags_units in Hg.
        assert (existsb (N.eqb 62) r = true)
          by (apply existsb_exists; now exists g).
        congruence.
      * injection H as _ Ht. eapply IH. exact Ht.
Qed.

Lemma replaceTags_no_tag (s pre t : jsstring) :
  replaceTags s = pre ++ t -> matchTag t = None.
Proof.
  rewrite replaceTags_dropTags. intros H.
  destruct t as [|c r]; [reflexivity|].
  destruct (matchTag_cases c r)
    as [(Ec & body & r' & Hr & Hb & Hm)|(Hm & Hd)]; [|exact Hm].
  subst c. apply dropTags_no_tag in H. subst r.
  fold isGt in H. rewrite existsb_isGt_app in H. discriminate.
Qed.

Lemma trimStart_split (s : jsstring) :
  exists pre,
    s = pre ++ trimStart s /\ forallb isWhiteSpace pre = true
    /\ startsWhite (trimStart s) = false.
Proof.
  induction s as [|c r IH]; cbn [trimStart].
  - exists []. repeat split.
  - destruct (isWhiteSpace c) eqn:E.
    + destruct IH as (pre & Hs & Hp & Hh). exists (c :: pre).
      cbn [app forallb]. rewrite E, Hp. repeat split; [|exact Hh].
      now rewrite <- Hs.
    + exists []. repeat split. exact E.
Qed.

Lemma forallb_rev (f : unit -> bool) (l : jsstring) :
  forallb f l = true -> forallb f (rev l) = true.
Proof.
  rewrite !forallb_forall. intros H x Hx. apply H. now apply in_rev.
Qed.

Lemma trim_split (s : jsstring) :
  exists pre post,
    s = pre ++ trim s ++ post
    /\ forallb isWhiteSpace pre = true /\ forallb isWhiteSpace post = true
    /\ startsWhite (trim s) = false /\ endsWhite (trim s) = false.
Proof.
  unfold trim, trimEnd, endsWhite.
  destruct (trimStart_split s) as (pre & Hs & Hp & Hh).
  destruct (trimStart_split (rev (trimStart s))) as (pre2 & Hs2 & Hp2 & Hh2).
  assert (Ht : trimStart s
               = rev (trimStart (rev (trimStart s))) ++ rev pre2).
  { rewrite <- rev_app_distr, <- Hs2. now rewrite rev_involutive. }
  exists pre, (rev pre2). repeat split.
  - now rewrite <- Ht.
  - exact Hp.
  - now apply forallb_rev.
  - destruct (rev (trimStart (rev (trimStart s)))) as [|c r] eqn:E;
      [reflexivity|].
    rewrite Ht in Hh. exact Hh.
  - now rewrite rev_involutive.
Qed.

End StripFacts.

(** C4: the sanitizer gives the empty string for null; otherwise it removes
    every [<] up to the next [>] and then trims: its result is the spec's
    tag-dropping walk followed by the trim, no tag is left in what the
    replacement returns, and the trim takes off white space, and only white
    space, at both ends; the spec's example holds. *)
Theorem stripHtmlTags_drops_tags_and_trims :
  Card.stripHtmlTags None = []
  /\ (forall html, Card.stripHtmlTags html = Card.sanitize html)
  /\ (forall s pre t,
         Card.replaceTags s = pre ++ t -> Card.matchTag t = None)
  /\ (forall s, exists pre post,
         Card.replaceTags s = pre ++ Card.stripHtmlTags (Some s) ++ post
         /\ forallb isWhiteSpace pre = true
         /\ forallb isWhiteSpace post = true
         /\ startsWhite (Card.stripHtmlTags (Some s)) = false
         /\ endsWhite (Card.stripHtmlTags (Some s)) = false)
  /\ Card.stripHtmlTags (Some (utf16 "<p>안녕 <b>세계</b></p>"))
     = utf16 "안녕 세계".
Proof.
  assert (Hsome : forall s,
             Card.stripHtmlTags (Some s) = trim (Card.replaceTags s)).
  { intros [|c r]; reflexivity. }
  split; [reflexivity|]. split.
  { intros [s|]; [|reflexivity]. rewrite Hsome. unfold Card.sanitize.
    now rewrite replaceTags_dropTags. }
  split; [exact replaceTags_no_tag|]. split.
  { intros s. rewrite Hsome. apply trim_split. }
  vm_compute. reflexivity.
Qed.

Lemma stripHtmlTags_drops_tags_and_trims_witness :
  Card.matchTag (utf16 "<e  ") = None.
Proof.
  apply (proj1 (proj2 (proj2 stripHtmlTags_drops_tags_and_trims))
               (utf16 "  a < b <c> d> <e  ") (utf16 "  a  d> ")).
  vm_compute. reflexivity.
Defined.

(** ** Category colours *)

Section CasingFacts.

Import Card.

Variable low : casing.
Hypothesis Hlow : keepsKeywords low.

Lemma low_keyword (b : jsstring) (c : unit) (a : jsstring) :
  isKeywordUnit c = true -> low b c a = [c].
Proof. intros E. pose proof (Hlow b c a) as H. now rewrite E in H. Qed.

Lemma low_other (b : jsstring) (c : unit) (a : jsstring) :
  isKeywordUnit c = false ->
  exists y ys, low b c a = y :: ys /\ forallb notKeyword (y :: ys) = true.
Proof.
  intros E. pose proof (Hlow b c a) as H. rewrite E in H.
  destruct H as [Hne Hall]. destruct (low b c a) as [|y ys]; [now elim Hne|].
  now exists y, ys.
Qed.

Lemma unit_eqb_mixed (u x : unit) :
  isKeywordUnit u = false -> isKeywordUnit x = true -> unit_eqb u x = false.
Proof.
  intros Hu Hx. unfold unit_eqb. destruct (N.eqb_spec u x); [|reflexivity].
  subst u. congruence.
Qed.

Lemma startsWith_lower (k : jsstring) :
  forallb isKeywordUnit k = true ->
  forall b s, startsWith (lower_from low b s) k = startsWith s k.
Proof.
  induction k as [|x k IH]; intros Hk b s.
  - destruct s; destruct (lower_from low b _); reflexivity.
  - cbn [forallb] in Hk. apply andb_true_iff in Hk as [Hx Hk].
    destruct s as [|c r]; [reflexivity|]. cbn [lower_from].
    destruct (isKeywordUnit c) eqn:Ec.
    + rewrite low_keyword by assumption. cbn [app startsWith].
      now rewrite IH.
    + destruct (@low_other b c r Ec) as (y & ys & Ey & Hall).
      rewrite Ey. cbn [app startsWith forallb] in *.
      apply andb_true_iff in Hall as [Hy _]. unfold notKeyword in Hy.
      apply negb_true_iff in Hy.
      now rewrite (@unit_eqb_mixed y x Hy Hx), (@unit_eqb_mixed c x Ec Hx).
Qed.

Lemma includes_after_others (x : unit) (k l t : jsstring) :
  isKeywordUnit x = true -> forallb notKeyword l = true ->
  includes (l ++ t) (x :: k) = includes t (x :: k).
Proof.
  intros Hx. induction l as [|y l IH]; intros Hl; [reflexivity|].
  cbn [forallb] in Hl. apply andb_true_iff in Hl as [Hy Hl].
  unfold notKeyword in Hy. apply negb_true_iff in Hy.
  cbn [app includes startsWith]. rewrite (@unit_eqb_mixed y x Hy Hx).
  now apply IH.
Qed.

Lemma includes_lower (x : unit) (k : jsstring) :
  forallb isKeywordUnit (x :: k) = true ->
  forall s b, includes (lower_from low b s) (x :: k) = includes s (x :: k).
Proof.
  intros Hk. pose proof Hk as Hk'. cbn [forallb] in Hk'.
  apply andb_true_iff in Hk' as [Hx _].
  induction s as [|c r IH]; intros b; [reflexivity|].
  pose proof (@startsWith_lower (x :: k) Hk b (c :: r)) as Hs.
  cbn [lower_from] in *. destruct (isKeywordUnit c) eqn:Ec.
  - rewrite low_keyword in * by assumption. cbn [app] in *.
    cbn [includes]. now rewrite Hs, IH.
  - destruct (@low_other b c r Ec) as (y & ys & Ey & Hall).
    rewrite Ey. rewrite includes_after_others by assumption.
    rewrite IH. cbn [includes startsWith].
    now rewrite (@unit_eqb_mixed c x Ec Hx).
Qed.

Lemma lower_keyword (k b : jsstring) :
  forallb isKeywordUnit k = true -> lower_from low b k = k.
Proof.
  revert b; induction k as [|x k IH]; intros b Hk; [reflexivity|].
  cbn [forallb] in Hk. apply andb_true_iff in Hk as [Hx Hk].
  cbn [lower_from]. rewrite low_keyword by assumption.
  cbn [app]. now rewrite IH.
Qed.

End CasingFacts.

Section ColourFacts.

Import Card.

Variable host : Host.
Hypothesis Hhost : keepsKeywords (lowerAt host).

(** Containment of a keyword survives the lower-casing of the candidate. *)
Lemma includes_toLowerCase (s k : jsstring) :
  In k [kwSemiconductor; kwBattery; kwFinance; kwGame] ->
  includes (toLowerCase host s) k = includes s k
  /\ toLowerCase host k = k.
Proof.
  intros Hin. unfold toLowerCase.
  assert (Hk : forallb isKeywordUnit k = true /\ exists x k', k = x :: k').
  { cbn [In] in Hin.
    destruct Hin as [<-|[<-|[<-|[<-|[]]]]];
      (split; [reflexivity|eexists; eexists; reflexivity]). }
  destruct Hk as [Hk (x & k' & ->)]. split.
  - now apply includes_lower.
  - now apply lower_keyword.
Qed.

Lemma containsIgnoringCase_plain (s k : jsstring) :
  In k [kwSemiconductor; kwBattery; kwFinance; kwGame] ->
  containsIgnoringCase host s k = includes s k.
Proof.
  intros Hin. unfold containsIgnoringCase.
  destruct (includes_toLowerCase s Hin) as [_ Ek]. rewrite Ek.
  now destruct (includes_toLowerCase s Hin) as [Es _].
Qed.

Lemma classify_plain (category : option jsstring) :
  classify host category = classifyPlain category.
Proof.
  destruct category as [s|]; [|reflexivity].
  unfold classify, classifyPlain, rules. cbn [firstMatch existsb].
  rewrite !containsIgnoringCase_plain by (cbn [In]; tauto).
  reflexivity.
Qed.

Lemma getCategoryColor_plain (s : jsstring) :
  getCategoryColor host (Some s)
  = if includes s kwSemiconductor || includes s kwBattery then clsGreen
    else if includes s kwFinance then clsOrange
    else if includes s kwGame then clsRed
    else clsSlate.
Proof.
  destruct s as [|c r]; [vm_compute; reflexivity|].
  unfold getCategoryColor. cbn [truthy negb].
  destruct (includes_toLowerCase (c :: r) (k := kwSemiconductor)) as [-> _];
    [cbn [In]; tauto|].
  destruct (includes_toLowerCase (c :: r) (k := kwBattery)) as [-> _];
    [cbn [In]; tauto|].
  destruct (includes_toLowerCase (c :: r) (k := kwFinance)) as [-> _];
    [cbn [In]; tauto|].
  destruct (includes_toLowerCase (c :: r) (k := kwGame)) as [-> _];
    [cbn [In]; tauto|].
  reflexivity.
Qed.

Lemma getCategoryColor_classifyPlain (category : option jsstring) :
  getCategoryColor host category = className (classifyPlain category).
Proof.
  destruct category as [s|]; [|reflexivity].
  rewrite getCategoryColor_plain.
  unfold classifyPlain, rules. cbn [firstMatch existsb].
  rewrite !orb_false_r.
  destruct (includes s kwSemiconductor || includes s kwBattery);
    [reflexivity|].
  destruct (includes s kwFinance); [reflexivity|].
  destruct (includes s kwGame); reflexivity.
Qed.

End ColourFacts.

Lemma isKeywordUnit_low (u : unit) :
  (u < 44032)%N -> u <> 50%N -> Card.isKeywordUnit u = false.
Proof.
  intros Hlt Hne. unfold Card.isKeywordUnit, unit_eqb, Card.kwSemiconductor,
    Card.kwBattery, Card.kwFinance, Card.kwGame. cbn [app existsb].
  repeat match goal with
         | |- context [(u =? ?k)%N] => destruct (N.eqb_spec u k); [lia|]
         end.
  reflexivity.
Qed.

Lemma isKeywordUnit_inv (c : unit) :
  Card.isKeywordUnit c = true ->
  In c [48152; 46020; 52404; 50; 52264; 51204; 51648; 44552; 50997; 44172;
        51076]%N.
Proof.
  unfold Card.isKeywordUnit. intros H.
  apply existsb_exists in H as [x [Hx E]]. apply N.eqb_eq in E. subst x.
  exact Hx.
Qed.

Lemma basicLower_keepsKeywords : Card.keepsKeywords basicLower.
Proof.
  intros b c a. destruct (Card.isKeywordUnit c) eqn:E.
  - apply isKeywordUnit_inv in E. cbn [In] in E.
    repeat (destruct E as [<-|E]; [reflexivity|]). destruct E.
  - unfold basicLower.
    repeat match goal with
           | |- context [if ?cond then _ else _] =>
             lazymatch cond with
             | context [isCasedLetter] => fail
             | _ => destruct cond eqn:?
             end
           end;
    try (split; [discriminate|]; cbn [forallb]; rewrite ?andb_true_r;
         apply negb_true_iff;
         first [exact E | apply isKeywordUnit_low; lia]).
    all: destruct b as [|p b'], a as [|n a'];
      try destruct (isCasedLetter p); try destruct (isCasedLetter n);
      cbn [andb negb]; split; try discriminate; reflexivity.
Qed.

Lemma asciiLower_keepsKeywords : Card.keepsKeywords asciiLower.
Proof.
  intros b c a. destruct (Card.isKeywordUnit c) eqn:E.
  - apply isKeywordUnit_inv in E. cbn [In] in E.
    repeat (destruct E as [<-|E]; [reflexivity|]). destruct E.
  - unfold asciiLower.
    destruct ((65 <=? c)%N && (c <=? 90)%N) eqn:H;
      (split; [discriminate|]); cbn [forallb]; rewrite andb_true_r;
      apply negb_true_iff; [apply isKeywordUnit_low; lia|exact E].
Qed.

(** C3: the colour of a candidate follows the ordered rule list, first match
    wins, with case-insensitive containment of the keywords (which, the
    keywords having no case, is plain containment): green for the
    semiconductor or battery keyword, else orange for finance, else red for
    games, else slate; null and the empty string give slate.  The four
    class strings are pairwise different. *)
Theorem getCategoryColor_ordered_rules
        (host : Host) (category : option jsstring) :
  Card.keepsKeywords (lowerAt host) ->
  Card.getCategoryColor host category
  = Card.className (Card.classify host category)
  /\ Card.classify host category = Card.classifyPlain category
  /\ match category with
     | None => Card.getCategoryColor host category = Card.clsSlate
     | Some s =>
       Card.getCategoryColor host category
       = if includes s Card.kwSemiconductor || includes s Card.kwBattery
         then Card.clsGreen
         else if includes s Card.kwFinance then Card.clsOrange
         else if includes s Card.kwGame then Card.clsRed
         else Card.clsSlate
     end
  /\ Card.getCategoryColor host (Some []) = Card.clsSlate
  /\ Card.getCategoryColor host (Some (utf16 "우주항공")) = Card.clsSlate
  /\ Card.getCategoryColor host (Some (utf16 "금융 게임 반도체"))
     = Card.clsGreen
  /\ Card.getCategoryColor host (Some (utf16 "게임 금융")) = Card.clsOrange
  /\ (forall b1 b2 : Card.bucket,
         Card.className b1 = Card.className b2 -> b1 = b2).
Proof.
  intros Hhost.
  split.
  { rewrite classify_plain by assumption.
    now apply getCategoryColor_classifyPlain. }
  split; [now apply classify_plain|].
  split.
  { destruct category as [s|]; [|reflexivity].
    now apply getCategoryColor_plain. }
  split; [reflexivity|].
  split; [rewrite getCategoryColor_plain by assumption; reflexivity|].
  split; [rewrite getCategoryColor_plain by assumption; reflexivity|].
  split; [rewrite getCategoryColor_plain by assumption; reflexivity|].
  intros [] []; intros H; try reflexivity; discriminate H.
Qed.

Lemma getCategoryColor_ordered_rules_witness :
  Card.getCategoryColor seoul (Some (utf16 "국내 반도체 산업"))
  = Card.className Card.Green.
Proof.
  destruct (@getCategoryColor_ordered_rules seoul
              (Some (utf16 "국내 반도체 산업")) basicLower_keepsKeywords)
    as (_ & _ & H & _).
  exact H.
Defined.

(** C6: the colour depends on the candidate alone: two evaluations on equal
    inputs agree, whatever the host they run on (its time zone, its case
    table). *)
Theorem getCategoryColor_deterministic
        (h1 h2 : Host) (c1 c2 : option jsstring) :
  Card.keepsKeywords (lowerAt h1) -> Card.keepsKeywords (lowerAt h2) ->
  c1 = c2 ->
  Card.getCategoryColor h1 c1 = Card.getCategoryColor h2 c2
  /\ Card.classify h1 c1 = Card.classify h2 c2.
Proof.
  intros H1 H2 <-. split.
  - rewrite !getCategoryColor_classifyPlain by assumption. reflexivity.
  - rewrite !classify_plain by assumption. reflexivity.
Qed.

Lemma getCategoryColor_deterministic_witness :
  Card.toLowerCase seoul (utf16 "ΣAMSUNG 반도체")
  <> Card.toLowerCase utcHost (utf16 "ΣAMSUNG 반도체")
  /\ Card.getCategoryColor seoul (Some (utf16 "ΣAMSUNG 반도체"))
     = Card.getCategoryColor utcHost (Some (utf16 "ΣAMSUNG 반도체")).
Proof.
  split; [vm_compute; discriminate|].
  apply (@getCategoryColor_deterministic seoul utcHost
           (Some (utf16 "ΣAMSUNG 반도체")) (Some (utf16 "ΣAMSUNG 반도체"))
           basicLower_keepsKeywords asciiLower_keepsKeywords eq_refl).
Defined.

(** ** Industry names on the card and in the grid *)

Section NameFacts.

Import Card.

Lemma truthy_inv (v : option jsstring) :
  truthy v = true -> exists c s, v = Some (c :: s).
Proof.
  destruct v as [[|c s]|]; try discriminate. intros _. now exists c, s.
Qed.

Lemma filter_truthy_presentNames (l : list MetaIndustry) :
  filter truthy (map meta_industry_name l) = map Some (presentNames l).
Proof.
  induction l as [|ind r IH]; [reflexivity|].
  cbn [map filter presentNames flat_map]. fold (presentNames r).
  destruct (meta_industry_name ind) as [[|c s]|]; cbn [truthy app map];
    now rewrite IH.
Qed.

Lemma tags_from_text (host : Host) (names : list (option jsstring)) (i : Z) :
  map tag_text (tags_from host i names) = names.
Proof.
  revert i; induction names as [|v r IH]; intros i; [reflexivity|].
  cbn [tags_from map tag_text]. now rewrite IH.
Qed.

Lemma tags_from_color (host : Host) (names : list (option jsstring)) (i : Z) :
  map tag_color (tags_from host i names)
  = map (getCategoryColor host) names.
Proof.
  revert i; induction names as [|v r IH]; intros i; [reflexivity|].
  cbn [tags_from map tag_color]. now rewrite IH.
Qed.

Lemma firstn_incl (A : Type) (n : nat) (l : list A) (x : A) :
  In x (firstn n l) -> In x l.
Proof.
  revert l; induction n as [|n IH]; intros [|y l]; cbn [firstn In]; try tauto.
  intros [H|H]; [now left|right; now apply IH].
Qed.

Lemma card_tag_row_cases (host : Host) (report : ReportListItem) :
  let names := industryNames report in
  card_tag_row (ReportCard host report)
  = match names with
    | [] => None
    | _ :: _ =>
      Some (mkTagRow (tags_from host 0 (slice0 3 names))
                     (if (Z.of_nat (List.length names) >? 3)%Z
                      then Some (Z.of_nat (List.length names) - 3)%Z
                      else None))
    end.
Proof.
  intros names. unfold ReportCard. cbn [card_tag_row]. fold names.
  destruct names as [|v r]; [reflexivity|].
  destruct (Z.gtb_spec (Z.of_nat (List.length (v :: r))) 0) as [_|H];
    [reflexivity|]. cbn [List.length] in H. lia.
Qed.

Lemma row_tags_text (host : Host) (report : ReportListItem) (row : TagRow) :
  card_tag_row (ReportCard host report) = Some row ->
  map tag_text (row_tags row) = firstn 3 (industryNames report).
Proof.
  rewrite card_tag_row_cases. cbv zeta.
  set (names := industryNames report).
  destruct names as [|v r] eqn:E; [discriminate|]. rewrite <- E.
  intros H.
  assert (Hrow : row_tags row = tags_from host 0 (slice0 3 names)).
  { injection H as H. rewrite <- H. reflexivity. }
  rewrite Hrow. apply tags_from_text.
Qed.

End NameFacts.

(** C9 as stated fails: the grid shows an industry whose name is empty. *)
Lemma grid_displays_unnamed_industry :
  ~ (forall (industries : list Industry) (cell : Grid.Cell),
        In cell (Grid.cellsOf (Grid.ImpactedIndustriesGrid industries)) ->
        Grid.cell_name cell <> []).
Proof.
  intros H.
  apply (H [unnamedIndustry] (Grid.cellOf unnamedIndustry));
    [now left|reflexivity].
Qed.

(** C9 (amended): the card's extraction step collects exactly the names that
    are neither null nor empty, in the order of the industries, and every
    tag the card shows carries such a name; the grid does not filter: it
    shows one cell for each industry it is given, in order, under the name
    the industry has. *)
Theorem industry_names_on_card_and_grid
        (host : Host) (report : Card.ReportListItem)
        (industries : list Industry) :
  Card.industryNames report
  = map Some (Card.presentNames (Card.metadataIndustries report))
  /\ (forall v, In v (Card.industryNames report) ->
                exists c s, v = Some (c :: s))
  /\ (forall row tag,
         Card.card_tag_row (Card.ReportCard host report) = Some row ->
         In tag (Card.row_tags row) ->
         exists c s, Card.tag_text tag = Some (c :: s))
  /\ map Grid.cell_name
         (Grid.cellsOf (Grid.ImpactedIndustriesGrid industries))
     = map industry_name industries.
Proof.
  assert (Hnames : forall v, In v (Card.industryNames report) ->
                             exists c s, v = Some (c :: s)).
  { intros v Hv. unfold Card.industryNames in Hv.
    apply filter_In in Hv as [_ Hv]. now apply truthy_inv. }
  split; [apply filter_truthy_presentNames|].
  split; [exact Hnames|].
  split.
  - intros row tag Hrow Htag. apply Hnames.
    apply (in_map Card.tag_text) in Htag.
    rewrite (row_tags_text host report Hrow) in Htag.
    now apply firstn_incl in Htag.
  - destruct industries as [|i r]; [reflexivity|].
    unfold Grid.ImpactedIndustriesGrid. cbn [List.length Nat.eqb Grid.cellsOf].
    rewrite map_map. reflexivity.
Qed.

Lemma industry_names_on_card_and_grid_witness :
  Card.industryNames sampleReport
  = map (fun name => Some (utf16 name))
        ["반도체"; "금융"; "게임"; "2차전지"; "우주항공"]%string
  /\ exists c s,
      Some (utf16 "금융") = Some (c :: s).
Proof.
  split; [reflexivity|].
  apply (proj1 (proj2 (industry_names_on_card_and_grid seoul sampleReport [])))
  . vm_compute. tauto.
Defined.

(** C10: the card shows at most the first three extracted names as tags, in
    their order; past three names it shows exactly three tags and the
    remainder [+(n - 3)], and up to three names it shows no remainder. *)
Theorem card_tags_first_three (host : Host) (report : Card.ReportListItem) :
  let names := Card.industryNames report in
  let n := List.length names in
  match Card.card_tag_row (Card.ReportCard host report) with
  | None => n = 0
  | Some row =>
    0 < n
    /\ map Card.tag_text (Card.row_tags row) = firstn 3 names
    /\ map Card.tag_color (Card.row_tags row)
       = map (Card.getCategoryColor host) (firstn 3 names)
    /\ List.length (Card.row_tags row) = Nat.min 3 n
    /\ (3 < n -> List.length (Card.row_tags row) = 3
                 /\ Card.row_more row = Some (Z.of_nat n - 3)%Z)
    /\ (n <= 3 -> Card.row_more row = None)
  end.
Proof.
  cbv zeta. rewrite card_tag_row_cases. cbv zeta.
  destruct (Card.industryNames report) as [|v r]; [reflexivity|].
  cbv beta iota. cbn [Card.row_tags Card.row_more].
  set (names := v :: r). set (n := List.length names).
  assert (Hn : 0 < n) by (unfold n, names; cbn [List.length]; lia).
  assert (Hlen : List.length
                   (Card.tags_from host 0 (slice0 3 names)) = Nat.min 3 n).
  { rewrite <- (length_map Card.tag_text), tags_from_text.
    unfold slice0. apply length_firstn. }
  split; [exact Hn|]. split; [apply tags_from_text|].
  split; [apply tags_from_color|]. split; [exact Hlen|]. split.
  - intros H3. split; [rewrite Hlen; lia|].
    destruct (Z.gtb_spec (Z.of_nat n) 3); [reflexivity|lia].
  - intros H3. destruct (Z.gtb_spec (Z.of_nat n) 3); [lia|reflexivity].
Qed.

Lemma card_tags_first_three_witness :
  exists row,
    Card.card_tag_row (Card.ReportCard seoul sampleReport) = Some row
    /\ map Card.tag_text (Card.row_tags row)
       = map (fun name => Some (utf16 name)) ["반도체"; "금융"; "게임"]%string
    /\ Card.row_more row = Some 2%Z.
Proof.
  pose proof (card_tags_first_three seoul sampleReport) as H.
  destruct (Card.card_tag_row (Card.ReportCard seoul sampleReport))
    as [row|] eqn:E; [|discriminate H].
  exists row. destruct H as (_ & Ht & _ & _ & Hm & _).
  split; [reflexivity|]. split; [exact Ht|].
  apply Hm. vm_compute. lia.
Defined.

(** C7: a failed auxiliary fetch never fails the home page: whatever the two
    count fetches do, [Home] fulfils, showing the fetched count where the
    fetch succeeded and 0 where it failed, and each failure is logged. *)
Theorem Home_degrades_failed_counts
        (Err : Type) (news subscribers : HomePage.settled Z Err)
        (newsFirst : bool) :
  fst (HomePage.Home news subscribers newsFirst)
  = HomePage.Fulfilled
      (HomePage.mkView (HomePage.countOrZero news)
                       (HomePage.countOrZero subscribers))
  /\ (forall e,
         fst (HomePage.Home news subscribers newsFirst)
         <> HomePage.Rejected e)
  /\ (forall e, news = HomePage.Rejected e ->
                HomePage.hero_newsCount
                  (HomePage.mkView (HomePage.countOrZero news)
                                   (HomePage.countOrZero subscribers)) = 0%Z)
  /\ (forall e, subscribers = HomePage.Rejected e ->
                HomePage.hero_subscriberCount
                  (HomePage.mkView (HomePage.countOrZero news)
                                   (HomePage.countOrZero subscribers)) = 0%Z)
  /\ List.length (snd (HomePage.Home news subscribers newsFirst))
     = HomePage.failures news + HomePage.failures subscribers.
Proof.
  destruct news as [n|e1], subscribers as [s|e2], newsFirst;
    cbn; repeat split; try discriminate; try reflexivity;
    intros e H; discriminate H.
Qed.

Lemma Home_degrades_failed_counts_witness :
  fst (HomePage.Home (HomePage.Rejected "ECONNREFUSED"%string)
                     (HomePage.Fulfilled 42%Z) true)
  = HomePage.Fulfilled (HomePage.mkView 0 42).
Proof.
  exact (proj1 (Home_degrades_failed_counts
                  (HomePage.Rejected "ECONNREFUSED"%string)
                  (HomePage.Fulfilled 42%Z) true)).
Defined.

(* ================================================================== *)
(** * Further properties *)
(* ================================================================== *)

(** ** Sidebar *)

Section SidebarMore.

Import Sidebar.

Lemma keepFirst_ext (l : list Stock) (s1 s2 : list Z) :
  (forall z, In z s1 <-> In z s2) -> keepFirst s1 l = keepFirst s2 l.
Proof.
  revert s1 s2; induction l as [|x r IH]; intros s1 s2 H; [reflexivity|].
  cbn [keepFirst].
  assert (E : existsb (Z.eqb (id x)) s1 = existsb (Z.eqb (id x)) s2).
  { apply eq_true_iff_eq. rewrite !existsb_exists.
    split; intros [z [Hz Hid]]; exists z; (split; [now apply H|exact Hid]). }
  rewrite E. destruct (existsb (Z.eqb (id x)) s2).
  - now apply IH.
  - f_equal. apply IH. intros z. cbn [In]. rewrite H. reflexivity.
Qed.

Lemma seen_true (x : Stock) (seen : list Z) :
  existsb (Z.eqb (id x)) seen = true <-> In (id x) seen.
Proof.
  rewrite existsb_exists. split.
  - intros [z [Hz Hid]]. apply Z.eqb_eq in Hid. now subst z.
  - intros H. exists (id x). split; [exact H|apply Z.eqb_refl].
Qed.

Lemma keepFirst_app (l1 l2 : list Stock) (seen : list Z) :
  keepFirst seen (l1 ++ l2)
  = keepFirst seen l1 ++ keepFirst (map id l1 ++ seen) l2.
Proof.
  revert seen; induction l1 as [|x r IH]; intros seen; [reflexivity|].
  cbn [app keepFirst map].
  destruct (existsb (Z.eqb (id x)) seen) eqn:E.
  - rewrite IH. f_equal. apply keepFirst_ext. intros z.
    cbn [In]. apply seen_true in E. split; [tauto|].
    intros [H|H]; [subst z; apply in_or_app; now right|exact H].
  - rewrite IH. cbn [app]. do 2 f_equal. apply keepFirst_ext. intros z.
    rewrite !in_app_iff. cbn [In]. rewrite in_app_iff. tauto.
Qed.

Lemma keepFirst_more_seen (l : list Stock) (seen extra : list Z) :
  keepFirst (extra ++ seen) l = filter (unseen extra) (keepFirst seen l).
Proof.
  revert seen; induction l as [|x r IH]; intros seen; [reflexivity|].
  cbn [keepFirst]. rewrite existsb_app.
  destruct (existsb (Z.eqb (id x)) seen) eqn:Es.
  - rewrite orb_true_r. apply IH.
  - rewrite orb_false_r. cbn [filter]. unfold unseen at 1.
    destruct (existsb (Z.eqb (id x)) extra) eqn:Ee; cbn [negb].
    + rewrite <- IH. apply keepFirst_ext. intros z.
      rewrite !in_app_iff. cbn [In]. apply seen_true in Ee.
      split; [tauto|]. intros [H|[H|H]]; try tauto. subst z. now left.
    + f_equal. rewrite <- IH. apply keepFirst_ext. intros z.
      cbn [In]. rewrite !in_app_iff. cbn [In]. tauto.
Qed.

Lemma allStocks_app (a b : list Industry) :
  allStocks (a ++ b) = allStocks a ++ allStocks b.
Proof. unfold allStocks. apply flat_map_app. Qed.

Lemma uniqueStocks_first_occurrence_parts (industries : list Industry) :
  NoDup (map id (uniqueStocks industries))
  /\ (forall s, In s (allStocks industries) ->
                In (id s) (map id (uniqueStocks industries)))
  /\ (forall s, In s (uniqueStocks industries) ->
                In s (allStocks industries)).
Proof.
  unfold uniqueStocks. rewrite dedupById_keepFirst.
  split; [apply keepFirst_NoDup|]. split.
  - intros s Hs.
    destruct (firstWithId_exists (allStocks industries) s Hs)
      as [s' [Hf Hid]].
    rewrite <- Hid. apply in_map. apply keepFirst_In. split; [tauto|exact Hf].
  - intros s Hs. apply keepFirst_In in Hs as [_ Hf].
    unfold firstWithId in Hf. now apply find_some in Hf as [Hin _].
Qed.

End SidebarMore.

(** X1: the sidebar shows every stock it is given, unchanged and in order,
    exactly when no two of them share an id. *)
Theorem dedupById_identity_iff_distinct (l : list Stock) :
  Sidebar.dedupById l = l <-> NoDup (map id l).
Proof.
  rewrite dedupById_keepFirst. split.
  - intros H. rewrite <- H. apply keepFirst_NoDup.
  - intros H. apply keepFirst_fixed; [exact H|]. cbn [In]. tauto.
Qed.

Lemma dedupById_identity_iff_distinct_witness :
  Sidebar.dedupById [sampleStock 1 "A"; sampleStock 2 "B"]
  = [sampleStock 1 "A"; sampleStock 2 "B"].
Proof.
  apply (proj2 (dedupById_identity_iff_distinct
                  [sampleStock 1 "A"; sampleStock 2 "B"])).
  repeat constructor; cbn [map id sampleStock In]; intuition discriminate.
Defined.

(** X2: deduplication composes over concatenation: the unique stocks of two
    runs of industries are the unique stocks of the first run followed by
    those unique stocks of the second whose id the first run does not
    hold. *)
Theorem uniqueStocks_app (a b : list Industry) :
  Sidebar.uniqueStocks (a ++ b)
  = Sidebar.uniqueStocks a
    ++ filter (unseen (map id (Sidebar.allStocks a))) (Sidebar.uniqueStocks b).
Proof.
  unfold Sidebar.uniqueStocks. rewrite allStocks_app, !dedupById_keepFirst.
  rewrite keepFirst_app. f_equal. apply keepFirst_more_seen.
Qed.

Lemma uniqueStocks_app_witness :
  map id (Sidebar.uniqueStocks (sampleIndustries ++ sampleIndustries))
  = [1; 2]%Z.
Proof.
  rewrite (uniqueStocks_app sampleIndustries sampleIndustries). reflexivity.
Defined.

(** X3: the sidebar is [null] exactly when no industry holds a stock;
    otherwise it shows at least one card, and the first card is the first
    stock of the flattened list. *)
Theorem sidebar_null_iff_no_stocks (industries : list Industry) :
  (Sidebar.RecommendedStocksSidebar industries = Sidebar.RenderNull
   <-> forall i, In i industries -> stocks i = [])
  /\ match Sidebar.allStocks industries with
     | [] => Sidebar.RecommendedStocksSidebar industries = Sidebar.RenderNull
     | s :: _ =>
       exists rest,
         Sidebar.RecommendedStocksSidebar industries
         = Sidebar.RenderStockCards (s :: rest)
     end.
Proof.
  assert (Hall : Sidebar.allStocks industries = []
                 <-> forall i, In i industries -> stocks i = []).
  { unfold Sidebar.allStocks. induction industries as [|i r IH]; cbn [flat_map].
    - split; [intros _ i []|reflexivity].
    - split.
      + intros H. apply app_eq_nil in H as [Hi Hr].
        intros j [<-|Hj]; [exact Hi|]. now apply IH.
      + intros H. rewrite (H i) by now left. apply IH.
        intros j Hj. apply H. now right. }
  unfold Sidebar.RecommendedStocksSidebar, Sidebar.uniqueStocks.
  rewrite dedupById_keepFirst. rewrite <- Hall.
  destruct (Sidebar.allStocks industries) as [|s r]; cbn.
  - split; [tauto|reflexivity].
  - split; [split; discriminate|]. eexists. reflexivity.
Qed.

Lemma sidebar_null_iff_no_stocks_witness :
  Sidebar.RecommendedStocksSidebar [sampleIndustry 1 "금융" []]
  = Sidebar.RenderNull.
Proof.
  apply (proj2 (proj1 (sidebar_null_iff_no_stocks
                         [sampleIndustry 1 "금융" []]))).
  intros i [<-|[]]. reflexivity.
Defined.

(** X4: the sidebar shows one card for each distinct id of the flattened
    list: the cards it renders have pairwise distinct ids, these are the ids
    of the flattened list, and there are as many cards as distinct ids. *)
Theorem sidebar_one_card_per_id (industries : list Industry) :
  let cards := cardsOf (Sidebar.RecommendedStocksSidebar industries) in
  NoDup (map id cards)
  /\ (forall z : Z,
         In z (map id cards) <-> In z (map id (Sidebar.allStocks industries)))
  /\ List.length cards
     = List.length (nodup Z.eq_dec (map id (Sidebar.allStocks industries))).
Proof.
  intros cards.
  assert (Ecards : cards = Sidebar.uniqueStocks industries).
  { unfold cards, Sidebar.RecommendedStocksSidebar.
    destruct (Sidebar.uniqueStocks industries) as [|s r]; reflexivity. }
  rewrite Ecards. clear cards Ecards.
  destruct (uniqueStocks_first_occurrence_parts industries)
    as (Hnd & Hcover & Hin).
  assert (Hsame : forall z : Z,
             In z (map id (Sidebar.uniqueStocks industries))
             <-> In z (map id (Sidebar.allStocks industries))).
  { intros z. split; intros Hz.
    - apply in_map_iff in Hz as [s [<- Hs]]. apply in_map. now apply Hin.
    - apply in_map_iff in Hz as [s [<- Hs]]. now apply Hcover. }
  split; [exact Hnd|]. split; [exact Hsame|].
  rewrite <- (length_map id (Sidebar.uniqueStocks industries)).
  apply Nat.le_antisymm; apply NoDup_incl_length.
  - exact Hnd.
  - intros z Hz. apply nodup_In. now apply Hsame.
  - apply NoDup_nodup.
  - intros z Hz. apply nodup_In in Hz. now apply Hsame.
Qed.

Lemma sidebar_one_card_per_id_witness :
  List.length (cardsOf (Sidebar.RecommendedStocksSidebar sampleIndustries))
  = 2%nat.
Proof.
  rewrite (proj2 (proj2 (sidebar_one_card_per_id sampleIndustries))).
  reflexivity.
Defined.

(** ** Grid *)

(** X5: the grid is [null] exactly for zero industries; otherwise it shows
    one cell per industry, keyed by the industry ids in their order, and a
    description paragraph only for a description that is neither null nor
    empty, with that text. *)
Theorem grid_cells_follow_industries (industries : list Industry) :
  (Grid.ImpactedIndustriesGrid industries = Grid.RenderNull
   <-> industries = [])
  /\ List.length (Grid.cellsOf (Grid.ImpactedIndustriesGrid industries))
     = List.length industries
  /\ map Grid.cell_key (Grid.cellsOf (Grid.ImpactedIndustriesGrid industries))
     = map industry_id industries
  /\ (forall cell,
         In cell (Grid.cellsOf (Grid.ImpactedIndustriesGrid industries)) ->
         Grid.cell_description cell <> Some [])
  /\ (forall i c d,
         In i industries -> impact_description i = Some (c :: d) ->
         In (Grid.mkCell (industry_id i) (industry_name i) (Some (c :: d)))
            (Grid.cellsOf (Grid.ImpactedIndustriesGrid industries))).
Proof.
  assert (Hcells : Grid.cellsOf (Grid.ImpactedIndustriesGrid industries)
                   = map Grid.cellOf industries).
  { destruct industries; reflexivity. }
  rewrite Hcells. split.
  { destruct industries; [split; reflexivity|split; discriminate]. }
  split; [apply length_map|]. split; [now rewrite map_map|]. split.
  - intros cell Hc. apply in_map_iff in Hc as [i [<- _]].
    unfold Grid.cellOf. cbn [Grid.cell_description].
    destruct (impact_description i) as [[|c d]|]; cbn [Card.truthy];
      discriminate.
  - intros i c d Hi Hd. apply in_map_iff. exists i. split; [|exact Hi].
    unfold Grid.cellOf. now rewrite Hd.
Qed.

Lemma grid_cells_follow_industries_witness :
  Grid.mkCell 7 [] (Some (utf16 "금리 인하 기대"))
  = Grid.cellOf unnamedIndustry.
Proof.
  destruct (grid_cells_follow_industries [unnamedIndustry])
    as (_ & _ & _ & _ & H).
  destruct (H unnamedIndustry _ _ (or_introl eq_refl) eq_refl) as [E|[]].
  symmetry. exact E.
Defined.

(** ** Tag stripping, continued *)

Section StripMore.

Import Card.

Lemma tagFree_tail (c : unit) (r : jsstring) : tagFree (c :: r) -> tagFree r.
Proof.
  intros H pre t E. apply (H (c :: pre) t). now rewrite E.
Qed.

Lemma dropTags_tagFree (s : jsstring) :
  tagFree s -> dropTags false s = s.
Proof.
  induction s as [|c r IH]; intros H; [reflexivity|]. cbn [dropTags].
  assert (E : (c =? 60)%N && existsb (N.eqb 62) r = false).
  { destruct (N.eqb_spec c 60) as [->|]; [|reflexivity].
    apply (H [] r). reflexivity. }
  rewrite E. f_equal. apply IH. now apply tagFree_tail in H.
Qed.

Lemma tagFree_dropTags (s : jsstring) : tagFree (dropTags false s).
Proof. intros pre t E. now apply (@dropTags_no_tag s false pre t). Qed.

Lemma tagFree_factor (pre m post : jsstring) :
  tagFree (pre ++ m ++ post) -> tagFree m.
Proof.
  intros H p t E. subst m.
  specialize (H (pre ++ p) (t ++ post)). rewrite existsb_app in H.
  apply orb_false_iff in H; [tauto|].
  rewrite <- !app_assoc. reflexivity.
Qed.

Lemma tagFree_no_lt (s : jsstring) :
  existsb (N.eqb 60) s = false -> tagFree s.
Proof.
  intros H pre t E. subst s. rewrite existsb_app in H.
  cbn [existsb] in H. rewrite N.eqb_refl in H.
  rewrite orb_true_r in H. discriminate.
Qed.

Lemma tagFree_no_gt (s : jsstring) :
  existsb isGt s = false -> tagFree s.
Proof.
  intros H pre t E. subst s. rewrite existsb_app in H.
  cbn [existsb] in H. apply orb_false_iff in H as [_ H].
  now apply orb_false_iff in H.
Qed.

Lemma trimStart_fixed (s : jsstring) :
  startsWhite s = false -> trimStart s = s.
Proof. destruct s as [|c r]; cbn; [reflexivity|]. now intros ->. Qed.

Lemma trim_fixed (s : jsstring) :
  startsWhite s = false -> endsWhite s = false -> trim s = s.
Proof.
  intros Hs He. unfold trim, trimEnd. rewrite (trimStart_fixed s Hs).
  unfold endsWhite in He. rewrite (trimStart_fixed (rev s) He).
  apply rev_involutive.
Qed.

Lemma trim_idempotent (s : jsstring) : trim (trim s) = trim s.
Proof.
  destruct (trim_split s) as (pre & post & _ & _ & _ & Hs & He).
  now apply trim_fixed.
Qed.

Lemma stripHtmlTags_some (s : jsstring) :
  stripHtmlTags (Some s) = trim (dropTags false s).
Proof.
  rewrite <- replaceTags_dropTags. destruct s; reflexivity.
Qed.

Lemma subsequence_refl (s : jsstring) : subsequence s s.
Proof. induction s; [constructor|now apply subsequence_keep]. Qed.

Lemma subsequence_trans (a b c : jsstring) :
  subsequence a b -> subsequence b c -> subsequence a c.
Proof.
  intros Hab Hbc. revert a Hab.
  induction Hbc as [|x b c Hbc IH|x b c Hbc IH]; intros a Hab.
  - exact Hab.
  - constructor. now apply IH.
  - inversion Hab; subst.
    + apply subsequence_skip. now apply IH.
    + apply subsequence_keep. now apply IH.
Qed.

Lemma subsequence_length (a b : jsstring) :
  subsequence a b -> List.length a <= List.length b.
Proof. induction 1; cbn [List.length]; lia. Qed.

Lemma subsequence_In (a b : jsstring) (c : unit) :
  subsequence a b -> In c a -> In c b.
Proof.
  induction 1; cbn [In]; [tauto| |]; intros H'; [right; auto|].
  destruct H'; [now left|right; auto].
Qed.

Lemma subsequence_nil_l (s : jsstring) : subsequence [] s.
Proof. induction s; constructor; assumption. Qed.

Lemma subsequence_factor (pre m post : jsstring) :
  subsequence m (pre ++ m ++ post).
Proof.
  induction pre as [|c pre IH]; cbn [app].
  - induction m as [|c m IH]; cbn [app].
    + apply subsequence_nil_l.
    + now apply subsequence_keep.
  - now apply subsequence_skip.
Qed.

Lemma subsequence_dropTags (s : jsstring) (b : bool) :
  subsequence (dropTags b s) s.
Proof.
  revert b; induction s as [|c r IH]; intros b; cbn [dropTags].
  - constructor.
  - destruct b.
    + destruct (c =? 62)%N; apply subsequence_skip; apply IH.
    + destruct ((c =? 60)%N && existsb (N.eqb 62) r);
        [apply subsequence_skip|apply subsequence_keep]; apply IH.
Qed.

End StripMore.

(** X6: sanitizing is idempotent: a sanitized summary passes through the
    sanitizer unchanged. *)
Theorem stripHtmlTags_idempotent (html : option jsstring) :
  Card.stripHtmlTags (Some (Card.stripHtmlTags html)) = Card.stripHtmlTags html.
Proof.
  destruct html as [s|]; [|reflexivity].
  rewrite !stripHtmlTags_some.
  destruct (trim_split (Card.dropTags false s))
    as (pre & post & E & _ & _ & Hs & He).
  rewrite dropTags_tagFree.
  - apply trim_idempotent.
  - apply (@tagFree_factor pre _ post). rewrite <- E. apply tagFree_dropTags.
Qed.

Lemma stripHtmlTags_idempotent_witness :
  Card.stripHtmlTags (Some (Card.stripHtmlTags (Some (utf16 " <p>a > b</p> "))))
  = utf16 "a > b".
Proof.
  rewrite (stripHtmlTags_idempotent (Some (utf16 " <p>a > b</p> "))).
  reflexivity.
Defined.

(** X7: the sanitizer only deletes: its result is the summary with some code
    units taken out, so it is never longer than the summary and holds no
    unit the summary does not hold. *)
Theorem stripHtmlTags_only_deletes (s : jsstring) :
  subsequence (Card.stripHtmlTags (Some s)) s
  /\ List.length (Card.stripHtmlTags (Some s)) <= List.length s
  /\ (forall c, In c (Card.stripHtmlTags (Some s)) -> In c s).
Proof.
  assert (H : subsequence (Card.stripHtmlTags (Some s)) s).
  { rewrite stripHtmlTags_some.
    destruct (trim_split (Card.dropTags false s)) as (pre & post & E & _).
    apply (@subsequence_trans _ (Card.dropTags false s)).
    - rewrite E at 2. apply subsequence_factor.
    - apply subsequence_dropTags. }
  split; [exact H|]. split; [now apply subsequence_length|].
  intros c. now apply subsequence_In.
Qed.

Lemma stripHtmlTags_only_deletes_witness :
  In 60%N (utf16 "a <b") .
Proof.
  apply (proj2 (proj2 (stripHtmlTags_only_deletes (utf16 "a <b")))).
  vm_compute. tauto.
Defined.

(** X8: a summary in which no [>] follows a [<] (in particular one without
    [<], or without [>]) holds no tag and is only trimmed. *)
Theorem stripHtmlTags_without_tags (s : jsstring) :
  (tagFree s -> Card.stripHtmlTags (Some s) = trim s)
  /\ (existsb (N.eqb 60) s = false -> Card.stripHtmlTags (Some s) = trim s)
  /\ (existsb (N.eqb 62) s = false -> Card.stripHtmlTags (Some s) = trim s).
Proof.
  assert (H : tagFree s -> Card.stripHtmlTags (Some s) = trim s).
  { intros Hs. rewrite stripHtmlTags_some. now rewrite dropTags_tagFree. }
  split; [exact H|]. split; intros E; apply H.
  - now apply tagFree_no_lt.
  - now apply tagFree_no_gt.
Qed.

Lemma stripHtmlTags_without_tags_witness :
  Card.stripHtmlTags (Some (utf16 " 3 < 5 ")) = utf16 "3 < 5".
Proof.
  apply (proj2 (proj2 (stripHtmlTags_without_tags (utf16 " 3 < 5 ")))).
  reflexivity.
Defined.

(** ** Category colours and tags, continued *)

Section IncludesFacts.

Lemma startsWith_nil (s : jsstring) : startsWith s [] = true.
Proof. destruct s; reflexivity. Qed.

Lemma includes_nil (s : jsstring) : includes s [] = true.
Proof. destruct s; reflexivity. Qed.

Lemma startsWith_app_r (k s post : jsstring) :
  startsWith s k = true -> startsWith (s ++ post) k = true.
Proof.
  revert s; induction k as [|x k IH]; intros s H.
  - apply startsWith_nil.
  - destruct s as [|c r]; [discriminate|]. cbn [app startsWith] in *.
    apply andb_true_iff in H as [Hc Hr]. rewrite Hc. now apply IH.
Qed.

Lemma includes_app_r (s k post : jsstring) :
  includes s k = true -> includes (s ++ post) k = true.
Proof.
  induction s as [|c r IH]; cbn [includes]; intros H.
  - rewrite orb_false_r in H. destruct k; [|discriminate].
    apply includes_nil.
  - cbn [app includes]. apply orb_true_iff in H as [H|H].
    + pose proof (@startsWith_app_r k (c :: r) post H) as H'.
      cbn [app] in H'. now rewrite H'.
    + rewrite IH by assumption. apply orb_true_r.
Qed.

Lemma includes_app_l (pre s k : jsstring) :
  includes s k = true -> includes (pre ++ s) k = true.
Proof.
  intros H. induction pre as [|c pre IH]; [exact H|].
  cbn [app includes]. rewrite IH. apply orb_true_r.
Qed.

Lemma startsWith_units (k s : jsstring) (u : unit) :
  startsWith s k = true -> In u k -> In u s.
Proof.
  revert s; induction k as [|x k IH]; intros s H Hu; [destruct Hu|].
  destruct s as [|c r]; [discriminate|]. cbn [startsWith] in H.
  apply andb_true_iff in H as [Hc Hr]. apply N.eqb_eq in Hc. subst x.
  destruct Hu as [->|Hu]; [now left|right; now apply IH].
Qed.

Lemma includes_units (s k : jsstring) (u : unit) :
  includes s k = true -> In u k -> In u s.
Proof.
  induction s as [|c r IH]; cbn [includes]; intros H Hu.
  - rewrite orb_false_r in H. now apply (@startsWith_units k [] u).
  - apply orb_true_iff in H as [H|H].
    + now apply (@startsWith_units k (c :: r) u).
    + right. now apply IH.
Qed.

End IncludesFacts.

Section TagFacts.

Import Card.

Lemma tags_from_key (host : Host) (names : list (option jsstring)) (i : Z) :
  map tag_key (tags_from host i names)
  = map (fun k => (i + Z.of_nat k)%Z) (seq 0 (List.length names)).
Proof.
  revert i; induction names as [|v r IH]; intros i; [reflexivity|].
  cbn [tags_from map tag_key List.length seq]. f_equal; [lia|].
  rewrite IH, <- seq_shift, map_map. apply map_ext. intros k. lia.
Qed.

Lemma tags_from_own_colour (host : Host) (names : list (option jsstring))
      (i : Z) (tag : Tag) :
  In tag (tags_from host i names) ->
  tag_color tag = getCategoryColor host (tag_text tag).
Proof.
  revert i; induction names as [|v r IH]; intros i; cbn [tags_from In].
  - tauto.
  - intros [<-|H]; [reflexivity|]. now apply (IH (i + 1)%Z).
Qed.

Lemma card_tag_row_tags (host : Host) (report : ReportListItem)
      (row : TagRow) :
  card_tag_row (ReportCard host report) = Some row ->
  row_tags row = tags_from host 0 (slice0 3 (industryNames report)).
Proof.
  rewrite card_tag_row_cases. cbv zeta.
  destruct (industryNames report) as [|v r]; [discriminate|].
  intros H. injection H as H. rewrite <- H. reflexivity.
Qed.

End TagFacts.

(** X9: the tags of a card are keyed 0, 1, 2 in their order, and each tag
    is coloured by its own text. *)
Theorem card_tags_keys_and_colours
        (host : Host) (report : Card.ReportListItem) (row : Card.TagRow) :
  Card.card_tag_row (Card.ReportCard host report) = Some row ->
  map Card.tag_key (Card.row_tags row)
  = map Z.of_nat (seq 0 (List.length (Card.row_tags row)))
  /\ (forall tag, In tag (Card.row_tags row) ->
                  Card.tag_color tag
                  = Card.getCategoryColor host (Card.tag_text tag)).
Proof.
  intros H. rewrite (card_tag_row_tags host report H). split.
  - rewrite tags_from_key.
    rewrite <- (length_map Card.tag_text
                  (Card.tags_from host 0
                     (slice0 3 (Card.industryNames report)))).
    rewrite tags_from_text. apply map_ext. intros k. lia.
  - intros tag. apply tags_from_own_colour.
Qed.

Lemma card_tags_keys_and_colours_witness :
  exists row,
    Card.card_tag_row (Card.ReportCard seoul sampleReport) = Some row
    /\ map Card.tag_key (Card.row_tags row) = [0; 1; 2]%Z.
Proof.
  destruct (Card.card_tag_row (Card.ReportCard seoul sampleReport))
    as [row|] eqn:E; [|vm_compute in E; discriminate E].
  exists row. split; [reflexivity|].
  rewrite (proj1 (card_tags_keys_and_colours seoul sampleReport E)).
  vm_compute in E. injection E as <-. reflexivity.
Defined.

(** X10: text around a candidate never takes its colour away: a candidate
    that is green stays green inside any longer string, and one that is not
    slate does not become slate. *)
Theorem getCategoryColor_inside_longer_text
        (host : Host) (pre s post : jsstring) :
  Card.keepsKeywords (lowerAt host) ->
  (Card.getCategoryColor host (Some s) = Card.clsGreen ->
   Card.getCategoryColor host (Some (pre ++ s ++ post)) = Card.clsGreen)
  /\ (Card.getCategoryColor host (Some s) <> Card.clsSlate ->
      Card.getCategoryColor host (Some (pre ++ s ++ post)) <> Card.clsSlate).
Proof.
  intros Hhost. rewrite !getCategoryColor_plain by assumption.
  assert (Hup : forall k, includes s k = true ->
                          includes (pre ++ s ++ post) k = true).
  { intros k Hk. apply includes_app_l. now apply includes_app_r. }
  pose proof (Hup Card.kwSemiconductor) as H1.
  pose proof (Hup Card.kwBattery) as H2.
  pose proof (Hup Card.kwFinance) as H3.
  pose proof (Hup Card.kwGame) as H4.
  destruct (includes s Card.kwSemiconductor), (includes s Card.kwBattery),
    (includes s Card.kwFinance), (includes s Card.kwGame);
    try rewrite (H1 eq_refl); try rewrite (H2 eq_refl);
    try rewrite (H3 eq_refl); try rewrite (H4 eq_refl);
    clear H1 H2 H3 H4;
    destruct (includes (pre ++ s ++ post) Card.kwSemiconductor),
      (includes (pre ++ s ++ post) Card.kwBattery),
      (includes (pre ++ s ++ post) Card.kwFinance),
      (includes (pre ++ s ++ post) Card.kwGame);
    cbn [orb]; cbv iota;
    (split; intros H; first [reflexivity | discriminate H | now elim H
                            | intros H'; discriminate H']).
Qed.

Lemma getCategoryColor_inside_longer_text_witness :
  Card.getCategoryColor seoul (Some (utf16 "국내 반도체 산업")) = Card.clsGreen.
Proof.
  apply (proj1 (@getCategoryColor_inside_longer_text seoul
                  (utf16 "국내 ") (utf16 "반도체") (utf16 " 산업")
                  basicLower_keepsKeywords)).
  reflexivity.
Defined.

(** X11: a candidate without a Hangul syllable (any name written in Latin
    letters, digits or punctuation) always gets the slate colour. *)
Theorem getCategoryColor_without_hangul (host : Host) (s : jsstring) :
  Card.keepsKeywords (lowerAt host) ->
  forallb (fun c => negb (isHangul c)) s = true ->
  Card.getCategoryColor host (Some s) = Card.clsSlate.
Proof.
  intros Hhost Hs. rewrite getCategoryColor_plain by assumption.
  assert (Hno : forall k u, In u k -> isHangul u = true ->
                            includes s k = false).
  { intros k u Hu Hh. destruct (includes s k) eqn:E; [|reflexivity].
    pose proof (@includes_units s k u E Hu) as Hin.
    rewrite forallb_forall in Hs. specialize (Hs u Hin).
    rewrite Hh in Hs. discriminate. }
  rewrite (Hno Card.kwSemiconductor 48152%N) by (cbn; tauto).
  rewrite (Hno Card.kwBattery 52264%N) by (cbn; tauto).
  rewrite (Hno Card.kwFinance 44552%N) by (cbn; tauto).
  rewrite (Hno Card.kwGame 44172%N) by (cbn; tauto).
  reflexivity.
Qed.

Lemma getCategoryColor_without_hangul_witness :
  Card.getCategoryColor seoul (Some (utf16 "Semiconductor 2")) = Card.clsSlate.
Proof.
  apply (@getCategoryColor_without_hangul seoul (utf16 "Semiconductor 2")
           basicLower_keepsKeywords).
  reflexivity.
Defined.

(** ** Dates, continued *)

Section DateMore.

Import Written Card.
Local Open Scope Z_scope.

Ltac month_cases m :=
  let Hc := fresh "Hc" in
  assert (Hc : m = 1 \/ m = 2 \/ m = 3 \/ m = 4 \/ m = 5 \/ m = 6 \/ m = 7
               \/ m = 8 \/ m = 9 \/ m = 10 \/ m = 11 \/ m = 12) by lia;
  destruct Hc as [->|[->|[->|[->|[->|[->|[->|[->|[->|[->|[->| ->]]]]]]]]]]].

Ltac literal_months :=
  repeat match goal with
  | |- context [Z.sub (Zpos ?p) (Zpos ?q)] =>
    let v := eval compute in (Z.sub (Zpos p) (Zpos q)) in
    change (Z.sub (Zpos p) (Zpos q)) with v
  | H : context [Z.sub (Zpos ?p) (Zpos ?q)] |- _ =>
    let v := eval compute in (Z.sub (Zpos p) (Zpos q)) in
    change (Z.sub (Zpos p) (Zpos q)) with v in H
  end;
  cbn [monthStart Z.eqb Pos.eqb orb Z.ltb Z.compare Pos.compare
       Pos.compare_cont] in *.

Lemma MakeDay_in_year (y m d : Z) :
  1 <= m <= 12 ->
  MakeDay y (m - 1) d
  = DayFromYear y + monthStart (m - 1) (leapFlag y) + d - 1.
Proof.
  intros Hm. unfold MakeDay.
  replace ((m - 1) / 12) with 0 by (Z.div_mod_to_equations; lia).
  replace ((m - 1) mod 12) with (m - 1) by (Z.div_mod_to_equations; lia).
  rewrite Z.add_0_r. reflexivity.
Qed.

Lemma daysInMonth_range (y m : Z) : 28 <= daysInMonth y m <= 31.
Proof.
  unfold daysInMonth.
  destruct (m =? 2), (DaysInYear y =? 366),
    ((m =? 4) || (m =? 6) || (m =? 9) || (m =? 11)); lia.
Qed.

Lemma MakeDay_prevDay (w : written) :
  1 <= w_month w <= 12 -> 1 <= w_day w ->
  MakeDay (w_year (prevDay w)) (w_month (prevDay w) - 1) (w_day (prevDay w))
  = MakeDay (w_year w) (w_month w - 1) (w_day w) - 1.
Proof.
  destruct w as [y m d c]. cbn [w_year w_month w_day]. intros Hm Hd.
  unfold prevDay. cbn [w_year w_month w_day].
  destruct (Z.ltb_spec 1 d) as [H1|H1].
  - cbn [w_year w_month w_day]. rewrite !MakeDay_in_year by lia. lia.
  - assert (d = 1) by lia. subst d.
    destruct (Z.ltb_spec 1 m) as [H2|H2]; cbn [w_year w_month w_day].
    + rewrite !MakeDay_in_year by lia.
      unfold daysInMonth, leapFlag.
      destruct (DaysInYear_cases y) as [E|E]; rewrite E;
        month_cases m; try lia; literal_months; lia.
    + assert (m = 1) by lia. subst m.
      rewrite (@MakeDay_in_year (y - 1) 12 31) by lia.
      rewrite (@MakeDay_in_year y 1 1) by lia.
      replace (DayFromYear y) with (DayFromYear (y - 1 + 1))
        by (f_equal; lia).
      rewrite DayFromYear_next. unfold leapFlag.
      destruct (DaysInYear_cases (y - 1)) as [E|E]; rewrite E;
        literal_months; lia.
Qed.

Lemma wellFormed_prevDay (w : written) :
  wellFormed w -> 1000 < w_year w -> wellFormed (prevDay w).
Proof.
  destruct w as [y m d c]. unfold wellFormed.
  cbn [w_year w_month w_day w_clock]. intros (Hy & Hm & Hd & _) Hy'.
  unfold prevDay. cbn [w_year w_month w_day].
  pose proof (daysInMonth_range y (m - 1)).
  destruct (Z.ltb_spec 1 d); [|destruct (Z.ltb_spec 1 m)];
    cbn [w_year w_month w_day w_clock]; repeat split; try lia.
  unfold daysInMonth. cbn [Z.eqb Pos.eqb orb]. lia.
Qed.

Lemma dayStart_prevDay (w : written) :
  1 <= w_month w <= 12 -> 1 <= w_day w ->
  dayStart (prevDay w) = dayStart w - msPerDay.
Proof.
  intros Hm Hd. unfold dayStart, MakeDate.
  rewrite MakeDay_prevDay by assumption. lia.
Qed.

Lemma formatDate_same_instant (host : Host) (w1 w2 : written) :
  zoneInRange host -> wellFormed w1 -> wellFormed w2 ->
  utcInstant host w1 = utcInstant host w2 ->
  formatDate host (isoString w1) = formatDate host (isoString w2).
Proof.
  intros Hz H1 H2 E. unfold formatDate, Date_new.
  rewrite !Date_parse_isoString by assumption.
  unfold utcInstant in E. now rewrite E.
Qed.

Lemma formatDate_unparsed (host : Host) (s : jsstring) :
  Date_parse host s = NaN -> formatDate host s = invalidDateText.
Proof. unfold formatDate, Date_new. intros ->. reflexivity. Qed.

Lemma decimal_head (fuel : nat) (n : Z) (acc : jsstring) :
  exists k r, decimal fuel n acc = digitUnit (k mod 10) :: r.
Proof.
  revert n acc. induction fuel as [|f IH]; intros n acc; cbn [decimal].
  - now exists n, acc.
  - destruct (n <? 10); [now exists n, acc|apply IH].
Qed.

(** A number that is not NaN prints with a sign or a digit in front. *)
Lemma NumberToString_head (z : Z) :
  exists u r, NumberToString (Some z) = u :: r /\ u <> 78%N.
Proof.
  unfold NumberToString. destruct (z <? 0).
  - eexists _, _. split; [reflexivity|discriminate].
  - destruct (decimal_head (Z.to_nat (Z.log2 z)) z []) as (k & r & E).
    exists (digitUnit (k mod 10)), r. split; [exact E|].
    unfold digitUnit. pose proof (Z.mod_pos_bound k 10). lia.
Qed.

Lemma formatDate_valid (host : Host) (s : jsstring) (t : Z) :
  Date_new host s = Some t -> formatDate host s <> invalidDateText.
Proof.
  intros E H. unfold formatDate in H. rewrite E in H.
  cbn [getFullYear] in H.
  destruct (NumberToString_head (YearFromTime (LocalTime host t)))
    as (u & r & Eh & Hu).
  rewrite Eh in H. rewrite <- app_comm_cons in H.
  unfold invalidDateText in H. injection H as Hhead _. contradiction.
Qed.

End DateMore.

(** X12: a date-only string (the form of [analysis_date]) names the
    midnight of UTC that starts its date.  It prints as written on every
    host that is at or east of UTC at that instant, and as the calendar day
    before on every host that is west of UTC at that instant. *)
Theorem formatDate_date_only (host : Host) (y m d : Z) :
  let w := Written.mkWritten y m d None in
  Written.zoneInRange host -> Written.wellFormed w ->
  ((0 <= LocalTZA host (Written.dayStart w) true)%Z ->
   Card.formatDate host (Written.isoString w) = Written.writtenDate w)
  /\ ((LocalTZA host (Written.dayStart w) true < 0)%Z -> (1000 < y)%Z ->
      Card.formatDate host (Written.isoString w)
      = Written.writtenDate (prevDay w)).
Proof.
  intros w Hz Hw. pose proof Hw as (Hy & Hm & Hd & _).
  cbn [Written.w_year Written.w_month Written.w_day w] in Hy, Hm, Hd.
  assert (Ei : Written.instant host w = Written.dayStart w).
  { unfold Written.instant, Written.stamp, Written.zoneOffset,
      Written.timeOfDay, Written.dayStart.
    cbn [Written.w_clock w]. lia. }
  pose proof (Hz (Written.dayStart w) true) as Hoff.
  split.
  - intros Ht. apply formatDate_isoString; [exact Hz|exact Hw|].
    unfold Written.sameLocalDay. rewrite Ei.
    unfold Written.timeOfDay, Written.zoneOffset.
    cbn [Written.w_clock w]. lia.
  - intros Ht Hy'. apply formatDate_onLocalDay; [exact Hz|exact Hw| |].
    + now apply wellFormed_prevDay.
    + unfold Written.onLocalDay. rewrite dayStart_prevDay by (cbn; lia).
      unfold Written.localInstant. rewrite Ei. lia.
Qed.

Lemma formatDate_date_only_witness :
  Card.formatDate newYork (utf16 "2024-03-01") = utf16 "2024.02.29"
  /\ Card.formatDate seoul (utf16 "2024-03-01") = utf16 "2024.03.01".
Proof.
  assert (Hw : Written.wellFormed (Written.mkWritten 2024 3 1 None))
    by (unfold Written.wellFormed; cbn; lia).
  split.
  - assert (Hz : Written.zoneInRange newYork)
      by (intros t b; vm_compute; split; reflexivity).
    apply (proj2 (@formatDate_date_only newYork 2024 3 1 Hz Hw));
      [reflexivity|lia].
  - assert (Hz : Written.zoneInRange seoul)
      by (intros t b; vm_compute; split; reflexivity).
    apply (proj1 (@formatDate_date_only seoul 2024 3 1 Hz Hw)).
    intros H; discriminate H.
Defined.

(** X13: a date-time string without zone designator is read as a
    wall-clock time of the host.  It prints its own date on every host where
    the offset in force at the instant so named is the offset the written
    time was read with, that is, where the written wall-clock time exists on
    the host's clock. *)
Theorem formatDate_local_date_time
        (host : Host) (w : Written.written) (c : Written.clock) :
  Written.zoneInRange host -> Written.wellFormed w ->
  Written.w_clock w = Some c -> Written.c_zone c = Written.Local ->
  LocalTZA host (utcInstant host w) true
  = LocalTZA host (Written.stamp w) false ->
  Card.formatDate host (Written.isoString w) = Written.writtenDate w.
Proof.
  intros Hz Hw Hc Hl Hsame. apply formatDate_isoString; [exact Hz|exact Hw|].
  destruct Hw as (_ & _ & _ & Hclock). rewrite Hc in Hclock.
  destruct Hclock as (Hh & Hm & Hs & _).
  unfold Written.sameLocalDay.
  change (Written.instant host w) with (utcInstant host w). rewrite Hsame.
  unfold Written.zoneOffset, Written.timeOfDay.
  rewrite Hc, Hl. unfold MakeTime, msPerDay.
  generalize (LocalTZA host (Written.stamp w) false). intros o. lia.
Qed.

Lemma formatDate_local_date_time_witness :
  Card.formatDate honolulu (utf16 "2024-01-15T23:59:59") = utf16 "2024.01.15"
  /\ Card.formatDate apia (utf16 "2011-12-29T23:59:59") = utf16 "2011.12.29".
Proof.
  split.
  - apply (@formatDate_local_date_time honolulu
             (Written.mkWritten 2024 1 15
                (Some (Written.mkClock 23 59 59 Written.Local)))
             (Written.mkClock 23 59 59 Written.Local)).
    + intros t b; vm_compute; split; reflexivity.
    + unfold Written.wellFormed, Written.clockOk; cbn; lia.
    + reflexivity.
    + reflexivity.
    + reflexivity.
  - apply (@formatDate_local_date_time apia
             (Written.mkWritten 2011 12 29
                (Some (Written.mkClock 23 59 59 Written.Local)))
             (Written.mkClock 23 59 59 Written.Local)).
    + intros t b. unfold msPerDay. cbn [LocalTZA apia].
      destruct b, (t <? 1325239200000)%Z, (t <? 1325289600000)%Z; lia.
    + unfold Written.wellFormed, Written.clockOk; cbn; lia.
    + reflexivity.
    + reflexivity.
    + vm_compute; reflexivity.
Defined.

(** The condition on the two offsets is needed: in Apia the wall clock
    never showed 30 December 2011, and a time written for that day prints as
    the day after. *)
Example formatDate_skipped_local_day :
  Card.formatDate apia (utf16 "2011-12-30T12:00:00") = utf16 "2011.12.31".
Proof. vm_compute; reflexivity. Qed.

(** X14: the printed date depends on the string only through the instant it
    names: two well-formed strings for one instant, whatever zones they
    are written in, print the same date on a host. *)
Theorem formatDate_depends_on_instant
        (host : Host) (w1 w2 : Written.written) :
  Written.zoneInRange host -> Written.wellFormed w1 -> Written.wellFormed w2 ->
  utcInstant host w1 = utcInstant host w2 ->
  Card.formatDate host (Written.isoString w1)
  = Card.formatDate host (Written.isoString w2).
Proof. apply formatDate_same_instant. Qed.

Lemma formatDate_depends_on_instant_witness :
  Card.formatDate honolulu (utf16 "2024-01-15T08:00:00Z")
  = Card.formatDate honolulu (utf16 "2024-01-15T17:00:00+09:00").
Proof.
  apply (@formatDate_depends_on_instant honolulu
           (Written.mkWritten 2024 1 15
              (Some (Written.mkClock 8 0 0 Written.Zulu)))
           (Written.mkWritten 2024 1 15
              (Some (Written.mkClock 17 0 0 (Written.East 9 0))))).
  - intros t b; vm_compute; split; reflexivity.
  - unfold Written.wellFormed, Written.clockOk; cbn; lia.
  - unfold Written.wellFormed, Written.clockOk; cbn; lia.
  - reflexivity.
Defined.

(** X15: the formatter has no guard for an invalid Date: it prints
    NaN.NaN.NaN exactly when the Date built from the string is invalid. *)
Theorem formatDate_invalid_date (host : Host) (s : jsstring) :
  Card.formatDate host s = invalidDateText <-> Card.Date_new host s = NaN.
Proof.
  split.
  - intros H. destruct (Card.Date_new host s) as [t|] eqn:E; [|reflexivity].
    exfalso. exact (@formatDate_valid host s t E H).
  - apply formatDate_unparsed.
Qed.

Lemma formatDate_invalid_date_witness :
  Card.formatDate seoul [] = invalidDateText
  /\ Card.formatDate seoul (utf16 "2024-01-15") <> invalidDateText.
Proof.
  split.
  - apply (proj2 (formatDate_invalid_date seoul [])). reflexivity.
  - intros H. apply (proj1 (formatDate_invalid_date seoul _)) in H.
    vm_compute in H. discriminate H.
Defined.

(** ** The database push script *)

Section PushDbFacts.

Import PushDb.

Variable w : world.

Lemma commands_echo (l : string) (k : run) :
  commands (echo l k) = commands k.
Proof. destruct k. reflexivity. Qed.

Lemma commands_exit (n : nat) : commands (exit n) = [].
Proof. reflexivity. Qed.

Lemma commands_exec (c : command) (k : nat -> run) :
  commands (exec w c k)
  = c :: (if (status w c =? 0)%nat then commands (k 0) else []).
Proof.
  unfold exec. destruct (Nat.eqb_spec (status w c) 0) as [E|E].
  - rewrite E. destruct (k 0). reflexivity.
  - reflexivity.
Qed.

Lemma commands_attempt (c : command) (k : run) :
  commands (attempt c k) = c :: commands k.
Proof. destruct k. reflexivity. Qed.

Lemma commands_test (c : command) (k : bool -> run) :
  commands (test w c k) = c :: commands (k (status w c =? 0)%nat).
Proof. unfold test. destruct (k _). reflexivity. Qed.

Lemma commands_read (input : list string) (k : string -> list string -> run) :
  commands (read input k)
  = match input with
    | [] => []
    | v :: rest => commands (k v rest)
    end.
Proof. destruct input as [|v rest]; [reflexivity|]. cbn. destruct (k v rest). reflexivity. Qed.

Lemma commands_selectMode (input : list string)
      (k : mode -> list string -> run) :
  commands (selectMode w input k)
  = match selection w input with
    | Some (m, input') => commands (k m input')
    | None => []
    end.
Proof.
  unfold selectMode, selection.
  destruct (String.eqb (argv1 w) "--append"); [reflexivity|].
  destruct (String.eqb (argv1 w) "--overwrite"); [reflexivity|].
  destruct (isEmpty (argv1 w)).
  - rewrite !commands_echo, commands_read.
    destruct input as [|choice input']; [reflexivity|].
    destruct (String.eqb choice "1"); [reflexivity|].
    destruct (String.eqb choice "2"); [reflexivity|].
    now rewrite commands_echo.
  - now rewrite !commands_echo.
Qed.

Lemma code_echo (l : string) (k : run) : snd (echo l k) = snd k.
Proof. destruct k. reflexivity. Qed.

Lemma code_exec (c : command) (k : nat -> run) :
  snd (exec w c k)
  = if (status w c =? 0)%nat then snd (k 0) else status w c.
Proof.
  unfold exec. destruct (Nat.eqb_spec (status w c) 0) as [E|E].
  - rewrite E. destruct (k 0). reflexivity.
  - reflexivity.
Qed.

Lemma code_attempt (c : command) (k : run) : snd (attempt c k) = snd k.
Proof. destruct k. reflexivity. Qed.

Lemma code_test (c : command) (k : bool -> run) :
  snd (test w c k) = snd (k (status w c =? 0)%nat).
Proof. unfold test. destruct (k _). reflexivity. Qed.

Lemma code_read (input : list string) (k : string -> list string -> run) :
  snd (read input k)
  = match input with
    | [] => 1
    | v :: rest => snd (k v rest)
    end.
Proof. destruct input as [|v rest]; [reflexivity|]. cbn. destruct (k v rest). reflexivity. Qed.

Lemma code_selectMode (input : list string)
      (k : mode -> list string -> run) :
  snd (selectMode w input k)
  = match selection w input with
    | Some (m, input') => snd (k m input')
    | None => 1
    end.
Proof.
  unfold selectMode, selection.
  destruct (String.eqb (argv1 w) "--append"); [reflexivity|].
  destruct (String.eqb (argv1 w) "--overwrite"); [reflexivity|].
  destruct (isEmpty (argv1 w)).
  - rewrite !code_echo, code_read.
    destruct input as [|choice input']; [reflexivity|].
    destruct (String.eqb choice "1"); [reflexivity|].
    destruct (String.eqb choice "2"); [reflexivity|].
    now rewrite code_echo.
  - now rewrite !code_echo.
Qed.

(** The commands and the exit status of the two branches and of the whole
    script, with the printing taken out. *)
Lemma commands_overwriteRemote (h p f : string) (input : list string)
      (k : run) :
  commands (overwriteRemote w h p f input k)
  = match input with
    | [] => []
    | confirm :: _ =>
      if String.eqb confirm "yes" then
        Psql h p TerminateSessions :: Sleep ::
        (if (status w Sleep =? 0)%nat then
           Psql h p DropDatabase ::
           (if (status w (Psql h p DropDatabase) =? 0)%nat then
              Psql h p CreateDatabase ::
              (if (status w (Psql h p CreateDatabase) =? 0)%nat then
                 Psql h p (RestoreDump f) ::
                 (if (status w (Psql h p (RestoreDump f)) =? 0)%nat
                  then commands k else [])
               else [])
            else [])
         else [])
      else []
    end.
Proof.
  unfold overwriteRemote. rewrite !commands_echo, commands_read.
  destruct input as [|confirm rest]; [reflexivity|].
  destruct (String.eqb confirm "yes"); cbn [negb].
  - rewrite commands_echo, commands_attempt, commands_exec.
    rewrite commands_echo, commands_exec.
    rewrite commands_echo, commands_exec.
    rewrite commands_echo, commands_exec.
    cbn [Nat.eqb negb]. rewrite commands_echo. reflexivity.
  - now rewrite commands_echo.
Qed.

Lemma code_overwriteRemote (h p f : string) (input : list string) (k : run) :
  snd (overwriteRemote w h p f input k)
  = match input with
    | [] => 1
    | confirm :: _ =>
      if String.eqb confirm "yes" then
        if (status w Sleep =? 0)%nat then
          if (status w (Psql h p DropDatabase) =? 0)%nat then
            if (status w (Psql h p CreateDatabase) =? 0)%nat then
              if (status w (Psql h p (RestoreDump f)) =? 0)%nat
              then snd k else status w (Psql h p (RestoreDump f))
            else status w (Psql h p CreateDatabase)
          else status w (Psql h p DropDatabase)
        else status w Sleep
      else 1
    end.
Proof.
  unfold overwriteRemote. rewrite !code_echo, code_read.
  destruct input as [|confirm rest]; [reflexivity|].
  destruct (String.eqb confirm "yes"); cbn [negb].
  - rewrite code_echo, code_attempt, code_exec.
    rewrite code_echo, code_exec.
    rewrite code_echo, code_exec.
    rewrite code_echo, code_exec.
    cbn [Nat.eqb negb]. rewrite code_echo. reflexivity.
  - now rewrite code_echo.
Qed.

Lemma commands_appendRemote (h p f : string) (k : run) :
  commands (appendRemote w h p f k)
  = Psql h p Probe ::
    (if (status w (Psql h p Probe) =? 0)%nat
     then Psql h p (RestoreDumpKeeping f) :: commands k else []).
Proof.
  unfold appendRemote. rewrite commands_echo, commands_test.
  destruct (status w (Psql h p Probe) =? 0)%nat; cbn [negb].
  - now rewrite commands_echo, commands_attempt, commands_echo.
  - now rewrite !commands_echo.
Qed.

Lemma code_appendRemote (h p f : string) (k : run) :
  snd (appendRemote w h p f k)
  = if (status w (Psql h p Probe) =? 0)%nat then snd k else 1.
Proof.
  unfold appendRemote. rewrite code_echo, code_test.
  destruct (status w (Psql h p Probe) =? 0)%nat; cbn [negb].
  - now rewrite code_echo, code_attempt, code_echo.
  - now rewrite !code_echo.
Qed.

Lemma push_db_plan :
  (commands (push_db w), snd (push_db w)) = plan w.
Proof.
  unfold push_db, plan. rewrite commands_exec, code_exec.
  destruct (status w Date =? 0)%nat; cbn [negb]; [|reflexivity].
  cbv zeta. fold (dumpFile w).
  rewrite !commands_echo, !code_echo, commands_read, code_read.
  destruct (stdin w) as [|h input1]; [reflexivity|].
  destruct (isEmpty h); [now rewrite commands_echo, code_echo|].
  rewrite commands_read, code_read.
  destruct input1 as [|p input2]; [reflexivity|].
  rewrite commands_echo, code_echo.
  destruct (isEmpty p); [now rewrite commands_echo, code_echo|].
  rewrite commands_selectMode, code_selectMode.
  destruct (selection w input2) as [[m input3]|]; [|reflexivity].
  rewrite commands_exec, code_exec.
  destruct (status w (Mkdir BACKUP_DIR) =? 0)%nat; cbn [negb]; [|reflexivity].
  rewrite !commands_echo, !code_echo, commands_test, code_test.
  destruct (status w ComposeUp =? 0)%nat; cbn [negb];
    [|now rewrite !commands_echo, !code_echo].
  rewrite commands_exec, code_exec.
  destruct (status w (PgDump (dumpFile w)) =? 0)%nat; cbn [negb Nat.eqb];
    [|reflexivity].
  rewrite !commands_echo, !code_echo.
  destruct m.
  - rewrite commands_appendRemote, code_appendRemote.
    rewrite !commands_echo, !code_echo.
    destruct (status w (Psql h p Probe) =? 0)%nat; reflexivity.
  - rewrite commands_overwriteRemote, code_overwriteRemote.
    rewrite !commands_echo, !code_echo.
    destruct input3 as [|confirm rest]; [reflexivity|].
    destruct (String.eqb confirm "yes"); [|reflexivity].
    cbn [chain].
    destruct (status w Sleep =? 0)%nat; [|reflexivity].
    destruct (status w (Psql h p DropDatabase) =? 0)%nat; [|reflexivity].
    destruct (status w (Psql h p CreateDatabase) =? 0)%nat; [|reflexivity].
    destruct (status w (Psql h p (RestoreDump (dumpFile w))) =? 0)%nat;
      reflexivity.
Qed.

End PushDbFacts.

Lemma commands_plan (w : PushDb.world) :
  PushDb.commands (PushDb.push_db w) = fst (PushDb.plan w).
Proof. now rewrite <- push_db_plan. Qed.

Lemma code_plan (w : PushDb.world) :
  snd (PushDb.push_db w) = snd (PushDb.plan w).
Proof. now rewrite <- push_db_plan. Qed.

(** Splits a goal about [plan w] along the conditions of the script, in the
    order the script meets them. *)
Ltac walk_plan w :=
  unfold PushDb.plan; cbv zeta;
  destruct (PushDb.status w PushDb.Date =? 0)%nat eqn:EDate; cbn [negb];
  [ destruct (PushDb.stdin w) as [|h input1] eqn:Ein;
    [ | destruct (PushDb.isEmpty h) eqn:Eh;
        [ | destruct input1 as [|p input2];
            [ | destruct (PushDb.isEmpty p) eqn:Ep;
                [ | destruct (PushDb.selection w input2)
                      as [[m input3]|] eqn:Esel;
                    [ destruct (PushDb.status w (PushDb.Mkdir PushDb.BACKUP_DIR)
                                =? 0)%nat eqn:EMk; cbn [negb];
                      [ destruct (PushDb.status w PushDb.ComposeUp =? 0)%nat
                          eqn:EUp; cbn [negb];
                        [ destruct (PushDb.status w
                                      (PushDb.PgDump (PushDb.dumpFile w))
                                    =? 0)%nat eqn:EDump; cbn [negb];
                          [ destruct m;
                            [ destruct (PushDb.status w
                                          (PushDb.Psql h p PushDb.Probe)
                                        =? 0)%nat eqn:EProbe
                            | destruct input3 as [|confirm rest];
                              [ | destruct (String.eqb confirm "yes")
                                    eqn:Eyes;
                                  [ cbn [PushDb.chain];
                                    destruct (PushDb.status w PushDb.Sleep
                                              =? 0)%nat eqn:ESleep;
                                    [ destruct (PushDb.status w
                                         (PushDb.Psql h p PushDb.DropDatabase)
                                         =? 0)%nat eqn:EDrop;
                                      [ destruct (PushDb.status w
                                          (PushDb.Psql h p
                                             PushDb.CreateDatabase)
                                          =? 0)%nat eqn:ECreate;
                                        [ destruct (PushDb.status w
                                            (PushDb.Psql h p
                                               (PushDb.RestoreDump
                                                  (PushDb.dumpFile w)))
                                            =? 0)%nat eqn:ERestore
                                        | ]
                                      | ]
                                    | ]
                                  | ] ] ]
                          | ]
                        | ]
                      | ]
                    | ] ] ] ] ]
  | ];
  cbn [fst snd app] in *.

(** X16: the commands of the overwrite branch (ending the sessions,
    dropping and re-creating the remote database, loading the dump) run
    only in overwrite mode, only against the host and with the password
    that were typed, both non-empty, only after the container was seen up
    and the dump succeeded, and only when the confirmation was answered
    with exactly [yes]. *)
Theorem push_db_overwrites_only_on_yes (w : PushDb.world) (c : PushDb.command) :
  In c (PushDb.commands (PushDb.push_db w)) -> PushDb.overwrites c = true ->
  PushDb.chosenMode w = Some PushDb.overwrite
  /\ PushDb.confirmation w = Some "yes"%string
  /\ PushDb.status w PushDb.ComposeUp = 0
  /\ PushDb.status w (PushDb.PgDump (PushDb.dumpFile w)) = 0
  /\ exists h p rest op,
      PushDb.stdin w = h :: p :: rest
      /\ PushDb.isEmpty h = false /\ PushDb.isEmpty p = false
      /\ c = PushDb.Psql h p op.
Proof.
  rewrite commands_plan. walk_plan w; intros Hin Hov; cbn [In] in Hin;
    repeat (destruct Hin as [<-|Hin]; [try discriminate Hov|]);
    try (destruct Hin; fail);
    (unfold PushDb.chosenMode, PushDb.confirmation; rewrite !Ein, !Esel;
     apply String.eqb_eq in Eyes; subst confirm;
     apply Nat.eqb_eq in EUp; apply Nat.eqb_eq in EDump;
     repeat split; try assumption; try reflexivity;
     eexists h, p, _, _; repeat split; assumption).
Qed.

Lemma push_db_overwrites_only_on_yes_witness :
  exists h p rest op,
    PushDb.stdin overwriteWorld = h :: p :: rest
    /\ PushDb.isEmpty h = false /\ PushDb.isEmpty p = false
    /\ PushDb.Psql "10.0.0.7" "secret" PushDb.DropDatabase
       = PushDb.Psql h p op.
Proof.
  apply (@push_db_overwrites_only_on_yes overwriteWorld
           (PushDb.Psql "10.0.0.7" "secret" PushDb.DropDatabase)).
  - vm_compute. tauto.
  - reflexivity.
Defined.

(** X17: nothing reaches the remote server before the local steps are done:
    a run that executes any [psql] command began with [date], [mkdir], the
    container check and the dump, in this order, and all four succeeded. *)
Theorem push_db_remote_after_dump (w : PushDb.world) :
  existsb PushDb.isRemote (PushDb.commands (PushDb.push_db w)) = true ->
  (exists rest,
      PushDb.commands (PushDb.push_db w)
      = [PushDb.Date; PushDb.Mkdir PushDb.BACKUP_DIR; PushDb.ComposeUp;
         PushDb.PgDump (PushDb.dumpFile w)] ++ rest)
  /\ PushDb.status w PushDb.Date = 0
  /\ PushDb.status w (PushDb.Mkdir PushDb.BACKUP_DIR) = 0
  /\ PushDb.status w PushDb.ComposeUp = 0
  /\ PushDb.status w (PushDb.PgDump (PushDb.dumpFile w)) = 0.
Proof.
  rewrite commands_plan. walk_plan w; cbn [existsb PushDb.isRemote orb];
    try discriminate; intros _;
    apply Nat.eqb_eq in EDate; apply Nat.eqb_eq in EMk;
    apply Nat.eqb_eq in EUp; apply Nat.eqb_eq in EDump;
    (split; [eexists; reflexivity|]); repeat split; assumption.
Qed.

Lemma push_db_remote_after_dump_witness :
  PushDb.status menuAppendWorld
    (PushDb.PgDump (PushDb.dumpFile menuAppendWorld)) = 0.
Proof.
  apply (@push_db_remote_after_dump menuAppendWorld). reflexivity.
Defined.

(** X18: the run ends with status 0 exactly when the host and the password
    are given, [date], [mkdir], the container check and the dump succeed,
    and then either the mode is append and the connection check passes, or
    the mode is overwrite, the confirmation is [yes], and [sleep], the drop,
    the creation and the restore succeed.  The status of the session
    termination and of the append restore plays no part. *)
Theorem push_db_success_iff (w : PushDb.world) :
  snd (PushDb.push_db w) = 0 <->
  exists h p rest,
    PushDb.stdin w = h :: p :: rest
    /\ PushDb.isEmpty h = false /\ PushDb.isEmpty p = false
    /\ PushDb.status w PushDb.Date = 0
    /\ PushDb.status w (PushDb.Mkdir PushDb.BACKUP_DIR) = 0
    /\ PushDb.status w PushDb.ComposeUp = 0
    /\ PushDb.status w (PushDb.PgDump (PushDb.dumpFile w)) = 0
    /\ ((PushDb.chosenMode w = Some PushDb.append
         /\ PushDb.status w (PushDb.Psql h p PushDb.Probe) = 0)
        \/ (PushDb.chosenMode w = Some PushDb.overwrite
            /\ PushDb.confirmation w = Some "yes"%string
            /\ PushDb.status w PushDb.Sleep = 0
            /\ PushDb.status w (PushDb.Psql h p PushDb.DropDatabase) = 0
            /\ PushDb.status w (PushDb.Psql h p PushDb.CreateDatabase) = 0
            /\ PushDb.status w
                 (PushDb.Psql h p
                    (PushDb.RestoreDump (PushDb.dumpFile w))) = 0)).
Proof.
  rewrite code_plan. unfold PushDb.chosenMode, PushDb.confirmation.
  walk_plan w;
    repeat match goal with
           | H : (_ =? _)%nat = true |- _ => apply Nat.eqb_eq in H
           | H : (_ =? _)%nat = false |- _ => apply Nat.eqb_neq in H
           | H : String.eqb _ _ = true |- _ => apply String.eqb_eq in H
           | H : String.eqb _ _ = false |- _ => apply String.eqb_neq in H
           end;
    (split;
     [ intros Hcode;
       try (exfalso; congruence);
       try (exists h, p, input2; rewrite ?Esel; subst;
            repeat split; try assumption;
            first [ left; split; [reflexivity|assumption]
                  | right; repeat split; assumption ])
     | intros (h' & p' & rest' & Hs & Hh & Hp & HDate & HMk & HUp & HDump & Hm);
       try congruence;
       try (injection Hs as <- <- <-; rewrite ?Esel in Hm;
            destruct Hm as [[Hm1 Hm2]|(Hm1 & Hm2 & Hm3 & Hm4 & Hm5 & Hm6)];
            congruence) ]).
Qed.

Lemma push_db_success_iff_witness :
  snd (PushDb.push_db
         (PushDb.mkWorld "./push_db.sh" "--append" ["10.0.0.7"; "secret"]%string
            "20240115_080000"
            (fun c => match c with
                      | PushDb.Psql _ _ (PushDb.RestoreDumpKeeping _) => 2
                      | _ => 0
                      end))) = 0.
Proof.
  apply (proj2 (push_db_success_iff _)).
  exists "10.0.0.7"%string, "secret"%string, [].
  repeat split. left. split; reflexivity.
Defined.

(** X19: an overwrite run whose confirmation is not answered with [yes]
    reaches the remote server with no command at all and ends with a
    non-zero status; the question comes after the local steps, so when these
    succeed the dump has been made all the same. *)
Theorem push_db_declined (w : PushDb.world) :
  PushDb.chosenMode w = Some PushDb.overwrite ->
  PushDb.confirmation w <> Some "yes"%string ->
  existsb PushDb.isRemote (PushDb.commands (PushDb.push_db w)) = false
  /\ snd (PushDb.push_db w) <> 0
  /\ (PushDb.status w PushDb.Date = 0 ->
      PushDb.status w (PushDb.Mkdir PushDb.BACKUP_DIR) = 0 ->
      PushDb.status w PushDb.ComposeUp = 0 ->
      PushDb.status w (PushDb.PgDump (PushDb.dumpFile w)) = 0 ->
      PushDb.isEmpty (hd ""%string (PushDb.stdin w)) = false ->
      PushDb.isEmpty (hd ""%string (tl (PushDb.stdin w))) = false ->
      PushDb.commands (PushDb.push_db w)
      = [PushDb.Date; PushDb.Mkdir PushDb.BACKUP_DIR; PushDb.ComposeUp;
         PushDb.PgDump (PushDb.dumpFile w)]
      /\ snd (PushDb.push_db w) = 1).
Proof.
  rewrite commands_plan, code_plan.
  unfold PushDb.chosenMode, PushDb.confirmation.
  walk_plan w; rewrite ?Esel; intros Hmode Hconf;
    try discriminate Hmode;
    try (apply String.eqb_eq in Eyes; subst confirm; now elim Hconf);
    repeat match goal with
           | H : (_ =? _)%nat = true |- _ => apply Nat.eqb_eq in H
           | H : (_ =? _)%nat = false |- _ => apply Nat.eqb_neq in H
           end;
    cbn [existsb PushDb.isRemote orb hd tl];
    (split; [reflexivity|]); (split; [try assumption; try discriminate|]);
    intros; try congruence; split; reflexivity.
Qed.

Lemma push_db_declined_witness :
  existsb PushDb.isRemote
    (PushDb.commands
       (PushDb.push_db
          (PushDb.mkWorld "x" "--overwrite" ["h"; "p"; "y"]%string "t"
                          allSucceed))) = false.
Proof.
  apply (@push_db_declined
           (PushDb.mkWorld "x" "--overwrite" ["h"; "p"; "y"]%string "t"
                           allSucceed)).
  - reflexivity.
  - vm_compute. discriminate.
Defined.

Section PushDbOutput.

Import PushDb.

Variable w : world.
Variable msg : string.

Lemma quiet_exit (n : nat) : quiet msg (exit n).
Proof. intros []. Qed.

Lemma quiet_echo (l : string) (k : run) :
  l <> msg -> quiet msg k -> quiet msg (echo l k).
Proof.
  unfold quiet. destruct k as [t c]. cbn. intros Hl Hk [H|H]; tauto.
Qed.

Lemma quiet_exec (c : command) (k : nat -> run) :
  quiet msg (k 0) -> quiet msg (exec w c k).
Proof.
  unfold quiet, exec. destruct (Nat.eqb_spec (status w c) 0) as [E|E].
  - rewrite E. destruct (k 0). cbn. tauto.
  - cbn. tauto.
Qed.

Lemma quiet_attempt (c : command) (k : run) :
  quiet msg k -> quiet msg (attempt c k).
Proof. unfold quiet. destruct k. cbn. tauto. Qed.

Lemma quiet_test (c : command) (k : bool -> run) :
  (forall b, quiet msg (k b)) -> quiet msg (test w c k).
Proof.
  unfold quiet, test. intros H. specialize (H (status w c =? 0)%nat).
  destruct (k _). cbn in *. tauto.
Qed.

Lemma quiet_read (input : list string) (k : string -> list string -> run) :
  (forall v rest, quiet msg (k v rest)) -> quiet msg (read input k).
Proof.
  unfold quiet. destruct input as [|v rest]; cbn; [tauto|].
  intros H. specialize (H v rest). destruct (k v rest). cbn in *. tauto.
Qed.

End PushDbOutput.

Ltac hush :=
  repeat (cbv beta zeta; cbn [Nat.eqb negb];
          first [ apply quiet_exit
                | apply quiet_echo;
                  [cbn [String.append]; intros Hsame; discriminate Hsame|]
                | apply quiet_exec
                | apply quiet_attempt
                | apply quiet_test; intros ?
                | apply quiet_read; intros ? ?
                | match goal with
                  | |- PushDb.quiet _ (if ?b then _ else _) => destruct b
                  | |- PushDb.quiet _ (match ?m with
                                | PushDb.append => _
                                | PushDb.overwrite => _
                                end) => destruct m
                  end ]).

(** X20: the two messages that report a failed dump and a failed restore
    are never printed: under [set -e] the failing command ends the run
    before the check of [$?] that guards them. *)
Theorem push_db_failure_messages_dead (w : PushDb.world) :
  ~ In "❌ 덤프 생성 실패"%string (PushDb.printed (PushDb.push_db w))
  /\ ~ In "❌ 복원 실패"%string (PushDb.printed (PushDb.push_db w)).
Proof.
  split.
  - change (PushDb.quiet "❌ 덤프 생성 실패" (PushDb.push_db w)).
    unfold PushDb.push_db, PushDb.selectMode, PushDb.overwriteRemote,
      PushDb.appendRemote. hush.
  - change (PushDb.quiet "❌ 복원 실패" (PushDb.push_db w)).
    unfold PushDb.push_db, PushDb.selectMode, PushDb.overwriteRemote,
      PushDb.appendRemote. hush.
Qed.

Lemma push_db_failure_messages_dead_witness :
  ~ In "❌ 복원 실패"%string
       (PushDb.printed
          (PushDb.push_db
             (PushDb.mkWorld "x" "--overwrite" ["h"; "p"; "yes"]%string "t"
                (fun c => match c with
                          | PushDb.Psql _ _ (PushDb.RestoreDump _) => 3
                          | _ => 0
                          end)))).
Proof.
  exact (proj2 (push_db_failure_messages_dead _)).
Defined.

(** X21: the option is looked at only after the host and the password have
    been read: with an option that is neither [--append] nor [--overwrite],
    a run given both values reads them, prints the usage, executes nothing
    but [date] and ends with status 1. *)
Theorem push_db_unknown_option (w : PushDb.world) (h p : string)
        (rest : list string) :
  PushDb.status w PushDb.Date = 0 ->
  PushDb.stdin w = h :: p :: rest ->
  PushDb.isEmpty h = false -> PushDb.isEmpty p = false ->
  PushDb.selection w rest = None -> PushDb.isEmpty (PushDb.argv1 w) = false ->
  fst (PushDb.push_db w)
  = [ PushDb.Exec PushDb.Date;
      PushDb.Echo "==========================================";
      PushDb.Echo "원격 DB 정보 입력";
      PushDb.Echo "==========================================";
      PushDb.Read; PushDb.Read; PushDb.Echo "";
      PushDb.Echo ("사용법: " ++ PushDb.argv0 w ++ " [--overwrite|--append]");
      PushDb.Echo "  --overwrite: 원격 DB를 완전히 덮어씁니다";
      PushDb.Echo "  --append: 원격 DB에 데이터를 추가합니다";
      PushDb.Echo "";
      PushDb.Echo "옵션 없이 실행하면 대화형 메뉴가 표시됩니다." ]%string
  /\ snd (PushDb.push_db w) = 1.
Proof.
  intros HDate Hin Hh Hp Hsel Harg.
  unfold PushDb.selection in Hsel. rewrite Harg in Hsel.
  destruct (String.eqb (PushDb.argv1 w) "--append") eqn:E1;
    [discriminate Hsel|].
  destruct (String.eqb (PushDb.argv1 w) "--overwrite") eqn:E2;
    [discriminate Hsel|].
  unfold PushDb.push_db, PushDb.exec. rewrite HDate, Hin.
  cbn [Nat.eqb PushDb.read PushDb.emit PushDb.echo]. rewrite Hh, Hp.
  unfold PushDb.selectMode. rewrite E1, E2, Harg.
  split; reflexivity.
Qed.

Lemma push_db_unknown_option_witness :
  snd (PushDb.push_db
         (PushDb.mkWorld "x" "--help" ["h"; "p"]%string "t" allSucceed)) = 1.
Proof.
  apply (@push_db_unknown_option
           (PushDb.mkWorld "x" "--help" ["h"; "p"]%string "t" allSucceed)
           "h" "p" []); reflexivity.
Defined.

(** ** Card regions and home page, continued *)

(** X22: the card shows a tag row exactly when some industry of the
    metadata has a name that is neither null nor empty; a report without
    metadata, or whose metadata lists no industries, shows none. *)
Theorem card_tag_row_present_iff (host : Host) (report : Card.ReportListItem) :
  (Card.card_tag_row (Card.ReportCard host report) = None
   <-> Card.presentNames (Card.metadataIndustries report) = [])
  /\ (Card.report_metadata report = None ->
      Card.card_tag_row (Card.ReportCard host report) = None)
  /\ (forall m, Card.report_metadata report = Some m ->
                Card.meta_industries m = None ->
                Card.card_tag_row (Card.ReportCard host report) = None).
Proof.
  assert (H : Card.card_tag_row (Card.ReportCard host report) = None
              <-> Card.presentNames (Card.metadataIndustries report) = []).
  { rewrite card_tag_row_cases. cbv zeta. unfold Card.industryNames.
    rewrite filter_truthy_presentNames.
    destruct (Card.presentNames (Card.metadataIndustries report));
      cbn [map]; split; (reflexivity || discriminate). }
  split; [exact H|]. split.
  - intros E. apply H. unfold Card.metadataIndustries. now rewrite E.
  - intros m E1 E2. apply H. unfold Card.metadataIndustries.
    now rewrite E1, E2.
Qed.

Lemma card_tag_row_present_iff_witness :
  Card.card_tag_row
    (Card.ReportCard seoul
       (Card.mkReport 1 [] None (utf16 "2024-01-15") 3 None)) = None.
Proof.
  apply (proj1 (proj2 (card_tag_row_present_iff seoul
           (Card.mkReport 1 [] None (utf16 "2024-01-15") 3 None)))).
  reflexivity.
Defined.

(** X23: on the page a failed count fetch cannot be told from a count of 0:
    the view [Home] fulfils with is the same in both cases, and it does not
    depend on which fetch settles first; only the console differs. *)
Theorem Home_failure_shows_as_zero
        (Err : Type) (e : Err) (other : HomePage.settled Z Err)
        (newsFirst : bool) :
  fst (HomePage.Home (HomePage.Rejected e) other newsFirst)
  = fst (HomePage.Home (HomePage.Fulfilled 0%Z) other newsFirst)
  /\ fst (HomePage.Home other (HomePage.Rejected e) newsFirst)
     = fst (HomePage.Home other (HomePage.Fulfilled 0%Z) newsFirst)
  /\ (forall news subscribers : HomePage.settled Z Err,
         fst (HomePage.Home news subscribers true)
         = fst (HomePage.Home news subscribers false))
  /\ snd (HomePage.Home (HomePage.Rejected e) other newsFirst)
     <> snd (HomePage.Home (HomePage.Fulfilled 0%Z) other newsFirst).
Proof.
  split; [|split; [|split]].
  - destruct other, newsFirst; reflexivity.
  - destruct other, newsFirst; reflexivity.
  - intros [n|e1] [s|e2]; reflexivity.
  - destruct other, newsFirst; cbn; discriminate.
Qed.

Lemma Home_failure_shows_as_zero_witness :
  fst (HomePage.Home (HomePage.Rejected "ECONNREFUSED"%string)
                     (HomePage.Fulfilled 42%Z) true)
  = fst (HomePage.Home (HomePage.Fulfilled 0%Z) (HomePage.Fulfilled 42%Z) true).
Proof.
  exact (proj1 (Home_failure_shows_as_zero "ECONNREFUSED"%string
                  (HomePage.Fulfilled 42%Z) true)).
Defined.

(** X24: the console holds exactly the failures: one line for a failed news
    fetch and one for a failed subscriber fetch, each with its message and
    the error the fetch rejected with, in the order the fetches settled;
    nothing is logged when both succeed. *)
Theorem Home_console_lists_failures
        (Err : Type) (news subscribers : HomePage.settled Z Err)
        (newsFirst : bool) (line : string * Err) :
  (In line (snd (HomePage.Home news subscribers newsFirst))
   <-> (exists e, news = HomePage.Rejected e
                  /\ line = ("Failed to fetch news count:"%string, e))
       \/ (exists e, subscribers = HomePage.Rejected e
                     /\ line = ("Failed to fetch subscriber count:"%string, e)))
  /\ (snd (HomePage.Home news subscribers newsFirst) = []
      <-> HomePage.failures news + HomePage.failures subscribers = 0)
  /\ (forall e1 e2,
         news = HomePage.Rejected e1 -> subscribers = HomePage.Rejected e2 ->
         map fst (snd (HomePage.Home news subscribers newsFirst))
         = if newsFirst
           then ["Failed to fetch news count:";
                 "Failed to fetch subscriber count:"]%string
           else ["Failed to fetch subscriber count:";
                 "Failed to fetch news count:"]%string).
Proof.
  split; [|split].
  - destruct news as [n|e1], subscribers as [s|e2], newsFirst; cbn;
      split;
      try (intros [H|[H|[]]]; subst line; eauto; fail);
      try (intros [H|[]]; subst line; eauto; fail);
      try (intros []; fail);
      intros [[e [H1 H2]]|[e [H1 H2]]];
      try discriminate H1; injection H1 as <-; subst line; tauto.
  - destruct news, subscribers, newsFirst; cbn; split;
      (reflexivity || discriminate).
  - intros e1 e2 -> ->. destruct newsFirst; reflexivity.
Qed.

Lemma Home_console_lists_failures_witness :
  map fst (snd (HomePage.Home (HomePage.Rejected 1) (HomePage.Rejected 2)
                              false))
  = ["Failed to fetch subscriber count:";
     "Failed to fetch news count:"]%string.
Proof.
  apply (proj2 (proj2 (Home_console_lists_failures
                         (HomePage.Rejected 1) (HomePage.Rejected 2) false
                         (""%string, 0))) 1 2 eq_refl eq_refl).
Defined.
